(** * sartwc: IPC protocol server and workspace registry

    A shallow embedding of [src/ipc.c] (the IPC socket server) and of
    [src/workspaces.c] (the workspace registry) of sartwc, and the proofs of
    their specified properties.

    Conventions of the embedding.
    - A C string is the list of its bytes before the terminating NUL.  Where
      the C code can meet a NUL inside a buffer (a decoded [%00], bytes read
      from a socket), the model cuts the list there with [c_str].
    - [struct workspace *] is a workspace identity ([ws_id]); [NULL] is
      [None].
    - [struct wl_list] is a Rocq list; a [link] is either the list head
      (the sentinel) or the node at a position. *)

From Stdlib Require Import ZArith Lia.
From Stdlib Require Import Strings.Byte Strings.String Numbers.DecimalString.
From Stdlib Require DecimalPos DecimalZ Ascii.
From stdpp Require Import base decidable option list numbers.

Local Open Scope Z_scope.

(** ** Bytes and C strings *)

Module CStr.

#[export] Instance byte_eq_dec : EqDecision byte := Byte.byte_eq_dec.

(** The value of an [unsigned char]. *)
Definition byte_val (c : byte) : Z := Z.of_N (Byte.to_N c).

(** The cast [(char) z]: the low eight bits. *)
Definition byte_of_Z (z : Z) : byte :=
  default x00 (Byte.of_N (Z.to_N (z mod 256))).

(** A string literal of the source. *)
Definition str (s : string) : list byte := list_byte_of_string s.

(** The C string held by a buffer: its bytes up to the first NUL. *)
Fixpoint c_str (buf : list byte) : list byte :=
  match buf with
  | [] => []
  | c :: rest => if decide (c = x00) then [] else c :: c_str rest
  end.

(** [isspace] in the C locale: space, \t, \n, \v, \f, \r. *)
Definition isspace (c : byte) : bool :=
  let v := byte_val c in (v =? 32) || ((9 <=? v) && (v <=? 13)).

(** [tolower] in the C locale. *)
Definition tolower (c : byte) : byte :=
  let v := byte_val c in
  if (65 <=? v) && (v <=? 90) then byte_of_Z (v + 32) else c.

(** [strcasecmp a b == 0]. *)
Definition strcaseeq (a b : list byte) : bool :=
  bool_decide (tolower <$> a = tolower <$> b).

(** [strncasecmp s pre (strlen pre) == 0]: [s] starts with [pre], letter
    case ignored. *)
Definition strncaseeq (s pre : list byte) : bool :=
  strcaseeq (take (length pre) s) pre.

(** [strcmp a b == 0]. *)
Definition streq (a b : list byte) : bool := bool_decide (a = b).

(** [printf("%d")]. *)
Definition fmt_d (z : Z) : list byte :=
  str (NilZero.string_of_int (Z.to_int z)).

End CStr.
Import CStr.

(** ** Percent-encoding ([ipc.c]) *)

Module Pct.

Definition ipc_pct_is_unreserved (c : byte) : bool :=
  let v := byte_val c in
  ((65 <=? v) && (v <=? 90))
  || ((97 <=? v) && (v <=? 122))
  || ((48 <=? v) && (v <=? 57))
  || (v =? 45) || (v =? 95) || (v =? 46) || (v =? 126).

(** [c] is a plain [char]; bytes above 0x7f fail every range test whether
    [char] is signed or not. *)
Definition ipc_hex_nibble (c : byte) : Z :=
  let v := byte_val c in
  if (48 <=? v) && (v <=? 57) then v - 48
  else if (97 <=? v) && (v <=? 102) then 10 + (v - 97)
  else if (65 <=? v) && (v <=? 70) then 10 + (v - 65)
  else -1.

(** [ipc_pct_decode_inplace]: [None] is the [false] return; [Some out] is
    the [true] return with [out] the bytes written before the final NUL. *)
Fixpoint ipc_pct_decode_inplace (s : list byte) : option (list byte) :=
  match s with
  | [] => Some []
  | c :: rest =>
    if decide (c = x00) then Some []
    else if negb (bool_decide (c = x25)) then
      cons c <$> ipc_pct_decode_inplace rest
    else
      match rest with
      | c1 :: c2 :: rest' =>
        if bool_decide (c1 = x00) || bool_decide (c2 = x00) then None
        else
          let hi := ipc_hex_nibble c1 in
          let lo := ipc_hex_nibble c2 in
          if (hi <? 0) || (lo <? 0) then None
          else cons (byte_of_Z (Z.lor (Z.shiftl hi 4) lo))
                 <$> ipc_pct_decode_inplace rest'
      | _ => None
      end
  end.

(** One upper-case hexadecimal digit, as [%X] prints it. *)
Definition hex_digit_upper (d : Z) : byte :=
  if d <? 10 then byte_of_Z (48 + d) else byte_of_Z (55 + d).

(** [printf("%02X")] of an [unsigned char]. *)
Definition fmt_02X (v : Z) : list byte :=
  [hex_digit_upper (v / 16); hex_digit_upper (v mod 16)].

(** [buf_add_pct_encoded]: the bytes appended to the buffer. *)
Fixpoint buf_add_pct_encoded (s : list byte) : list byte :=
  match s with
  | [] => []
  | c :: rest =>
    if decide (c = x00) then []
    else if ipc_pct_is_unreserved c then c :: buf_add_pct_encoded rest
    else x25 :: fmt_02X (byte_val c) ++ buf_add_pct_encoded rest
  end.

End Pct.
Import Pct.

(** ** The workspace registry ([workspaces.c]) *)

Module Workspaces.

(** [struct workspace]: its identity, its name, whether its scene tree is
    enabled, and the active flags of its two workspace-group handles. *)
Record workspace := Workspace {
  ws_id : nat;
  ws_name : list byte;
  ws_tree_enabled : bool;
  ws_cosmic_active : bool;
  ws_ext_active : bool }.

(** The fields of [struct view] that the registry reads and writes. *)
Record view := View {
  view_workspace : nat;
  view_visible_on_all_workspaces : bool;
  view_focusable : bool }.

(** The fields of [struct server] that the registry and the IPC server use.
    - [grabbed_view] is the position in [views] of the view that is being
      moved or resized interactively, if there is one.
    - [next_ws] is the identity that the next allocated workspace gets.
    - [state_file] is the content of the state file [workspaces.txt], if it
      exists; [fs_writes] counts how often it was replaced; [fs_ok] says
      whether the state directory can be resolved, created and written.
    - [ipc_events] are the lines that the registry and the command handler
      hand to [ipc_broadcast_event], oldest first: each is what every
      subscribed connection is sent. *)
Record server := Server {
  workspaces_all : list workspace;
  workspaces_current : nat;
  workspaces_last : option nat;
  views : list view;
  grabbed_view : option nat;
  next_ws : nat;
  fs_ok : bool;
  state_file : option (list byte);
  fs_writes : nat;
  ipc_events : list (list byte) }.

Definition set_all (l : list workspace) (s : server) : server :=
  Server l (workspaces_current s) (workspaces_last s) (views s)
    (grabbed_view s) (next_ws s) (fs_ok s) (state_file s) (fs_writes s)
    (ipc_events s).

Definition set_current (c : nat) (s : server) : server :=
  Server (workspaces_all s) c (workspaces_last s) (views s)
    (grabbed_view s) (next_ws s) (fs_ok s) (state_file s) (fs_writes s)
    (ipc_events s).

Definition set_last (l : option nat) (s : server) : server :=
  Server (workspaces_all s) (workspaces_current s) l (views s)
    (grabbed_view s) (next_ws s) (fs_ok s) (state_file s) (fs_writes s)
    (ipc_events s).

Definition set_views (vs : list view) (s : server) : server :=
  Server (workspaces_all s) (workspaces_current s) (workspaces_last s) vs
    (grabbed_view s) (next_ws s) (fs_ok s) (state_file s) (fs_writes s)
    (ipc_events s).

Definition set_next_ws (n : nat) (s : server) : server :=
  Server (workspaces_all s) (workspaces_current s) (workspaces_last s)
    (views s) (grabbed_view s) n (fs_ok s) (state_file s) (fs_writes s)
    (ipc_events s).

Definition write_state_file (content : list byte) (s : server) : server :=
  Server (workspaces_all s) (workspaces_current s) (workspaces_last s)
    (views s) (grabbed_view s) (next_ws s) (fs_ok s) (Some content)
    (S (fs_writes s)) (ipc_events s).

Definition set_ipc_events (ev : list (list byte)) (s : server) : server :=
  Server (workspaces_all s) (workspaces_current s) (workspaces_last s)
    (views s) (grabbed_view s) (next_ws s) (fs_ok s) (state_file s)
    (fs_writes s) ev.

Definition ws_names (s : server) : list (list byte) :=
  ws_name <$> workspaces_all s.

(** The workspace behind a pointer: applies [f] to the list member whose
    identity is [id]. *)
Definition update_ws (id : nat) (f : workspace → workspace) (s : server)
  : server :=
  set_all ((λ w, if decide (ws_id w = id) then f w else w)
             <$> workspaces_all s) s.

Definition set_tree_enabled (b : bool) (w : workspace) : workspace :=
  Workspace (ws_id w) (ws_name w) b (ws_cosmic_active w) (ws_ext_active w).

(** [lab_cosmic_workspace_set_active] followed by
    [lab_ext_workspace_set_active]. *)
Definition set_active (b : bool) (w : workspace) : workspace :=
  Workspace (ws_id w) (ws_name w) (ws_tree_enabled w) b b.

(** [xstrdup_replace(workspace->name, name)]. *)
Definition set_name (name : list byte) (w : workspace) : workspace :=
  Workspace (ws_id w) name (ws_tree_enabled w) (ws_cosmic_active w)
    (ws_ext_active w).

(** The position of a workspace in [workspaces.all]: the node its [link]
    is. *)
Definition ws_position (s : server) (id : nat) : option nat :=
  fst <$> list_find (λ w, ws_id w = id) (workspaces_all s).

(** *** Persistence *)

(** What the [fputs]/[fputc] loop of [workspace_state_persist] writes. *)
Definition serialize_names (names : list (list byte)) : list byte :=
  concat ((λ name, name ++ [x0a]) <$> names).

(** [workspace_state_persist]: every failure path only logs and leaves the
    file as it was. *)
Definition workspace_state_persist (s : server) : server :=
  if fs_ok s then write_state_file (serialize_names (ws_names s)) s else s.

(** The successive results of [getline]: each line with its line feed, the
    last one possibly without. *)
Fixpoint getlines (content : list byte) : list (list byte) :=
  match content with
  | [] => []
  | c :: rest =>
    if decide (c = x0a) then [c] :: getlines rest
    else match getlines rest with
         | [] => [[c]]
         | l :: ls => (c :: l) :: ls
         end
  end.

(** Removes the bytes satisfying [p] from the end of [l]. *)
Fixpoint rstrip (p : byte → bool) (l : list byte) : list byte :=
  match l with
  | [] => []
  | c :: rest =>
    match rstrip p rest with
    | [] => if p c then [] else [c]
    | r => c :: r
    end
  end.

(** Removes the bytes satisfying [p] from the front of [l]. *)
Fixpoint lstrip (p : byte → bool) (l : list byte) : list byte :=
  match l with
  | [] => []
  | c :: rest => if p c then lstrip p rest else l
  end.

Definition is_eol (c : byte) : bool :=
  bool_decide (c = x0a) || bool_decide (c = x0d).

(** [workspace_config_list_load_persisted]: [None] is the [false] return,
    [Some names] the [true] return with the names appended to [out]. *)
Definition workspace_config_list_load_persisted (s : server)
  : option (list (list byte)) :=
  match state_file s with
  | None => None
  | Some content =>
    let names :=
      c_str <$> filter (λ l, l ≠ []) (rstrip is_eol <$> getlines content) in
    if bool_decide (names = []) then None else Some names
  end.

(** *** Lookup and adjacency *)

(** [workspace_by_index]: the position and the workspace at the 1-based
    [index]. *)
Definition workspace_by_index (s : server) (index : Z)
  : option (nat * workspace) :=
  if index <? 1 then None
  else
    let i := Z.to_nat (index - 1) in
    (λ w, (i, w)) <$> workspaces_all s !! i.

(** Modelled from the spec: the macro [for_each_view] of [view.h] with the
    criterion [LAB_VIEW_CRITERIA_NO_OMNIPRESENT], which is not under src/.
    It visits the views that are not visible on all workspaces; by the
    comment in [workspaces_switch_to] it also skips the views that are not
    focusable. *)
Definition for_each_view_no_omnipresent (s : server) : list view :=
  List.filter
    (λ v, view_focusable v && negb (view_visible_on_all_workspaces v))
    (views s).

Definition workspace_has_views (ws : nat) (s : server) : bool :=
  existsb (λ v, bool_decide (view_workspace v = ws))
    (for_each_view_no_omnipresent s).

(** A [struct wl_list *] into a list of [n] nodes: the head of the list or
    the node at a position. *)
Inductive link := Head | Node (i : nat).

Definition link_next (n : nat) (l : link) : link :=
  match l with
  | Head => if decide (n = 0%nat) then Head else Node 0
  | Node i => if decide (S i < n)%nat then Node (S i) else Head
  end.

Definition link_prev (n : nat) (l : link) : link :=
  match l with
  | Head => if decide (n = 0%nat) then Head else Node (n - 1)
  | Node 0 => Head
  | Node (S i) => Node i
  end.

(** The [while (true)] loop of [get_adjacent_occupied], run for at most
    [fuel] iterations; [None] when the fuel runs out before the loop
    ends. *)
Fixpoint adjacent_occupied_loop (s : server) (current start : nat)
    (wrap reverse : bool) (fuel : nat) (lk : link) (has_wrapped : bool)
  : option (option nat) :=
  let n := length (workspaces_all s) in
  match fuel with
  | O => None
  | S fuel' =>
    match lk with
    | Head =>
      if negb wrap then Some None
      else if has_wrapped then Some None
      else
        adjacent_occupied_loop s current start wrap reverse fuel'
          (if reverse then link_prev n Head else link_next n Head) true
    | Node j =>
      match workspaces_all s !! j with
      | None => Some None
      | Some target =>
        if decide (j = start) then Some None
        else if negb (bool_decide (ws_id target = current))
                && workspace_has_views (ws_id target) s
        then Some (Some (ws_id target))
        else
          adjacent_occupied_loop s current start wrap reverse fuel'
            (if reverse then link_prev n (Node j) else link_next n (Node j))
            has_wrapped
      end
    end
  end.

(** [get_adjacent_occupied] with a bound on the iterations of its loop.
    [Some None] is the [NULL] return. The anchor [current] is a member of
    the registry; there is no result for one that is not. *)
Definition get_adjacent_occupied (fuel : nat) (s : server) (current : nat)
    (wrap reverse : bool) : option (option nat) :=
  match ws_position s current with
  | None => None
  | Some start =>
    let n := length (workspaces_all s) in
    adjacent_occupied_loop s current start wrap reverse fuel
      (if reverse then link_prev n (Node start) else link_next n (Node start))
      false
  end.

Definition get_prev_occupied fuel s current wrap :=
  get_adjacent_occupied fuel s current wrap true.

Definition get_next_occupied fuel s current wrap :=
  get_adjacent_occupied fuel s current wrap false.

End Workspaces.
Import Workspaces.

(** ** Event broadcast ([ipc.c]) *)

Module IpcNotify.

(** [workspace_index]: the 1-based position of a workspace, [0] for [NULL]
    and for a workspace that is not in the list. *)
Definition workspace_index (s : server) (ws : option nat) : Z :=
  match ws with
  | None => 0
  | Some id =>
    match ws_position s id with
    | Some i => Z.of_nat (S i)
    | None => 0
    end
  end.

Definition ipc_broadcast_event (event : list byte) (s : server) : server :=
  set_ipc_events (ipc_events s ++ [str "EVENT " ++ event ++ [x0a]]) s.

Definition workspace_changed_event (s : server) : list byte :=
  str "workspace-changed current="
  ++ fmt_d (workspace_index s (Some (workspaces_current s))).

Definition ipc_notify_workspace_changed (s : server) : server :=
  ipc_broadcast_event (workspace_changed_event s) s.

Definition workspace_list_changed_event (s : server) : list byte :=
  str "workspace-list-changed current="
  ++ fmt_d (workspace_index s (Some (workspaces_current s)))
  ++ str " count=" ++ fmt_d (Z.of_nat (length (workspaces_all s))).

Definition ipc_notify_workspace_list_changed (s : server) : server :=
  ipc_broadcast_event (workspace_list_changed_event s) s.

End IpcNotify.
Import IpcNotify.

(** ** Registry operations ([workspaces.c]) *)

Module WorkspaceOps.

(** [add_workspace]: a new workspace at the end of the list, its tree
    disabled and its handles inactive. *)
Definition add_workspace (name : list byte) (s : server) : server :=
  set_next_ws (S (next_ws s))
    (set_all
       (workspaces_all s ++ [Workspace (next_ws s) name false false false])
       s).

(** Modelled from the spec: [view_move_to_workspace] of [view.c], which is
    not under src/. It migrates the view to the workspace. *)
Definition view_move_to_workspace (target : nat) (v : view) : view :=
  View target (view_visible_on_all_workspaces v) (view_focusable v).

(** [workspaces_init], from any state of the server. *)
Definition workspaces_init (s : server) : server :=
  let s := add_workspace (str "1") (set_all [] s) in
  match workspaces_all s with
  | [] => s
  | first :: _ =>
    let initial := ws_id first in
    let s := set_current initial s in
    let s := update_ws initial (set_tree_enabled true) s in
    let s := update_ws initial (set_active true) s in
    workspace_state_persist s
  end.

(** [workspaces_switch_to]. The calls into the focus, indicator, cursor and
    layer collaborators ([desktop_focus_topmost_view], [_osd_show],
    [cursor_update_focus], [desktop_update_top_layer_visibility]) are
    outside src/; they touch no field of the registry and send no
    workspace event, and are left out. The flag [update_focus] only guards
    the first of them. *)
Definition workspaces_switch_to (target : nat) (update_focus : bool)
    (s : server) : server :=
  if decide (target = workspaces_current s) then s
  else
    let old := workspaces_current s in
    (* Disable the old workspace *)
    let s := update_ws old (set_tree_enabled false) s in
    let s := update_ws old (set_active false) s in
    (* Move omnipresent views to the new workspace *)
    let s :=
      set_views
        ((λ v, if view_visible_on_all_workspaces v
               then view_move_to_workspace target v else v) <$> views s) s in
    (* Enable the new workspace *)
    let s := update_ws target (set_tree_enabled true) s in
    let s := set_last (Some old) s in
    let s := set_current target s in
    let s :=
      match grabbed_view s with
      | Some g =>
        set_views (alter (view_move_to_workspace target) g (views s)) s
      | None => s
      end in
    let s := update_ws target (set_active true) s in
    ipc_notify_workspace_changed s.

(** [workspaces_add_named]. *)
Definition workspaces_add_named (name : list byte) (s : server)
  : server * bool :=
  if bool_decide (name = []) then (s, false)
  else
    let s := add_workspace name s in
    let s := workspace_state_persist s in
    (ipc_notify_workspace_list_changed s, true).

(** [workspaces_rename_index]. *)
Definition workspaces_rename_index (index : Z) (name : list byte)
    (s : server) : server * bool :=
  if bool_decide (name = []) then (s, false)
  else
    match workspace_by_index s index with
    | None => (s, false)
    | Some (i, workspace) =>
      if negb (streq (ws_name workspace) name) then
        let s := set_all (alter (set_name name) i (workspaces_all s)) s in
        let s := workspace_state_persist s in
        (ipc_notify_workspace_list_changed s, true)
      else (s, true)
    end.

(** [destroy_workspace]: unlinks the node at position [i]. *)
Definition destroy_workspace (i : nat) (s : server) : server :=
  set_all (delete i (workspaces_all s)) s.

(** [workspaces_remove_index]. [overlay_finish] touches no field of the
    registry and is left out. *)
Definition workspaces_remove_index (index : Z) (s : server)
  : server * bool :=
  let count := length (workspaces_all s) in
  if decide (count ≤ 1)%nat then (s, false)
  else
    match workspace_by_index s index with
    | None => (s, false)
    | Some (i, workspace) =>
      let fallback :=
        match workspaces_all s !! S i with
        | Some next => Some next
        | None => head (workspaces_all s)
        end in
      match fallback with
      | None => (s, false)
      | Some fallback =>
        if decide (ws_id fallback = ws_id workspace) then (s, false)
        else
          let s :=
            set_views
              ((λ v, if decide (view_workspace v = ws_id workspace)
                     then view_move_to_workspace (ws_id fallback) v else v)
                 <$> views s) s in
          let s :=
            if decide (workspaces_current s = ws_id workspace)
            then workspaces_switch_to (ws_id fallback) true s else s in
          let s :=
            if decide (workspaces_last s = Some (ws_id workspace))
            then set_last (Some (ws_id fallback)) s else s in
          let s := destroy_workspace i s in
          let s := workspace_state_persist s in
          (ipc_notify_workspace_list_changed s, true)
      end
    end.

End WorkspaceOps.
Import WorkspaceOps.

(** ** The IPC server ([ipc.c]) *)

Module Ipc.

Definition IPC_BUF_SIZE : Z := 4096.
Definition IPC_MAX_RECV_BUF : Z := 64 * 1024.

(** The fields of [struct ipc_client] that the protocol reads and writes. *)
Record ipc_client := IpcClient {
  subscribed_events : bool;
  recv_buf : list byte }.

Definition set_subscribed (b : bool) (c : ipc_client) : ipc_client :=
  IpcClient b (recv_buf c).

Definition set_recv_buf (buf : list byte) (c : ipc_client) : ipc_client :=
  IpcClient (subscribed_events c) buf.

(** Modelled from the spec: [string_strip] of [common/string-helpers.c],
    which is not under src/. It removes the whitespace at both ends of the
    line. *)
Definition string_strip (s : list byte) : list byte :=
  lstrip isspace (rstrip isspace s).

(** The pieces of [s] between the bytes satisfying [p]. *)
Fixpoint split_on (p : byte → bool) (s : list byte) : list (list byte) :=
  match s with
  | [] => [[]]
  | c :: rest =>
    if p c then [] :: split_on p rest
    else match split_on p rest with
         | [] => [[c]]
         | l :: ls => (c :: l) :: ls
         end
  end.

Definition is_delim (c : byte) : bool :=
  bool_decide (c = x20) || bool_decide (c = x09).

(** The tokens that [strtok_r(line, " \t", &save)] and the following
    [strtok_r(NULL, " \t", &save)] return, in order. *)
Definition strtok_all (line : list byte) : list (list byte) :=
  filter (λ t, t ≠ []) (split_on is_delim line).

(** [eq = strchr(tok, '=')] and [*eq = '\0']: the key before the first
    [=] and the value after it. *)
Fixpoint split_eq (tok : list byte) : option (list byte * list byte) :=
  match tok with
  | [] => None
  | c :: rest =>
    if decide (c = x3d) then Some ([], rest)
    else (λ kv, (c :: kv.1, kv.2)) <$> split_eq rest
  end.

Definition isdigit (c : byte) : bool :=
  let v := byte_val c in (48 <=? v) && (v <=? 57).

Fixpoint strtol_digits (acc : Z) (s : list byte) : Z :=
  match s with
  | [] => acc
  | c :: rest =>
    if isdigit c then strtol_digits (acc * 10 + (byte_val c - 48)) rest
    else acc
  end.

(** [strtol(s, NULL, 10)] with a 64-bit [long]. *)
Definition strtol (s : list byte) : Z :=
  let v :=
    match lstrip isspace s with
    | [] => 0
    | c :: rest =>
      if decide (c = x2d) then - strtol_digits 0 rest
      else if decide (c = x2b) then strtol_digits 0 rest
      else strtol_digits 0 (c :: rest)
    end in
  Z.max (- 2 ^ 63) (Z.min (2 ^ 63 - 1) v).

(** [atoi], as the C library has it: [(int) strtol(s, NULL, 10)]. *)
Definition atoi (s : list byte) : Z :=
  (strtol s + 2 ^ 31) mod 2 ^ 32 - 2 ^ 31.

(** The body of the token loop of [workspace-add]. *)
Definition add_arg (name : option (list byte)) (tok : list byte)
  : option (list byte) :=
  match split_eq tok with
  | None => name
  | Some (k, v) => if strcaseeq k (str "name") then Some v else name
  end.

(** The body of the token loop of [workspace-rename]. *)
Definition rename_arg (st : option (list byte) * Z) (tok : list byte)
  : option (list byte) * Z :=
  match split_eq tok with
  | None => st
  | Some (k, v) =>
    if strcaseeq k (str "name") then (Some v, st.2)
    else if strcaseeq k (str "index") then (st.1, atoi v)
    else st
  end.

(** The body of the token loop of [workspace-remove]. *)
Definition remove_arg (index : Z) (tok : list byte) : Z :=
  match split_eq tok with
  | None => index
  | Some (k, v) => if strcaseeq k (str "index") then atoi v else index
  end.

(** What [handle_command] takes a line for, with the arguments its token
    loop collects; [None] is a [NULL] name. *)
Inductive command :=
| CmdBlank
| CmdPing
| CmdSubscribeEvents
| CmdListViews
| CmdListViewsJson
| CmdListWorkspaces
| CmdListWorkspacesJson
| CmdWorkspaceAdd (name : option (list byte))
| CmdWorkspaceRename (name : option (list byte)) (index : Z)
| CmdWorkspaceRemove (index : Z)
| CmdAction (toks : list (list byte)).

(** The chain of comparisons of [handle_command] and the token loop of the
    branch taken. *)
Definition dispatch (line : list byte) : command :=
  let line := string_strip line in
  if bool_decide (line = []) then CmdBlank
  else if strcaseeq line (str "ping") then CmdPing
  else if strcaseeq line (str "subscribe-events") then CmdSubscribeEvents
  else if strcaseeq line (str "list-views") then CmdListViews
  else if strcaseeq line (str "list-views-json") then CmdListViewsJson
  else if strcaseeq line (str "list-workspaces") then CmdListWorkspaces
  else if strcaseeq line (str "list-workspaces-json")
  then CmdListWorkspacesJson
  else if strncaseeq line (str "workspace-add") then
    CmdWorkspaceAdd (foldl add_arg None (tail (strtok_all line)))
  else if strncaseeq line (str "workspace-rename") then
    let st := foldl rename_arg (None, 0) (tail (strtok_all line)) in
    CmdWorkspaceRename st.1 st.2
  else if strncaseeq line (str "workspace-remove") then
    CmdWorkspaceRemove (foldl remove_arg 0 (tail (strtok_all line)))
  else CmdAction (strtok_all line).

(** [handle_query_workspaces]: the response it sends. *)
Definition handle_query_workspaces (s : server) : list byte :=
  str "current="
  ++ fmt_d (workspace_index s (Some (workspaces_current s))) ++ [x0a]
  ++ str "encoding=percent" ++ [x0a]
  ++ concat
       (imap
          (λ i ws,
             str "workspace index=" ++ fmt_d (Z.of_nat (S i))
             ++ str " name=" ++ buf_add_pct_encoded (ws_name ws)
             ++ str " active="
             ++ fmt_d (if decide (ws_id ws = workspaces_current s)
                       then 1 else 0)
             ++ [x0a])
          (workspaces_all s))
  ++ str "END" ++ [x0a].

Section HandleCommand.

(** The action facility ([action.h]) is a collaborator outside src/. *)
Context {action : Type}.
Variable action_create : list byte → option action.
Variable action_arg_add_str : action → list byte → list byte → action.
Variable action_is_valid : action → bool.
Variable actions_run : server → action → server.

(** The responses of the three queries whose payload is built from
    fields of [struct view] and [struct output] declared outside src/,
    and of the JSON form of the workspace list. *)
Variable handle_query_views : server → list byte.
Variable handle_query_views_json : server → list byte.
Variable handle_query_workspaces_json : server → list byte.

(** The body of the token loop of the action branch. *)
Definition action_arg (a : action) (tok : list byte) : action :=
  match split_eq tok with
  | None => a
  | Some (k, v) => action_arg_add_str a k v
  end.

(** [handle_command]: the server and the client after the command, and
    the bytes sent to the client. *)
Definition handle_command (s : server) (client : ipc_client)
    (line : list byte) : server * ipc_client * list byte :=
  match dispatch line with
  | CmdBlank => (s, client, [])
  | CmdPing => (s, client, str "OK" ++ [x0a])
  | CmdSubscribeEvents =>
    (s, set_subscribed true client, str "OK subscribed-events" ++ [x0a])
  | CmdListViews => (s, client, handle_query_views s)
  | CmdListViewsJson => (s, client, handle_query_views_json s)
  | CmdListWorkspaces => (s, client, handle_query_workspaces s)
  | CmdListWorkspacesJson => (s, client, handle_query_workspaces_json s)
  | CmdWorkspaceAdd name =>
    let decoded :=
      if bool_decide (default [] name = []) then
        Some (fmt_d (Z.of_nat (length (workspaces_all s)) + 1))
      else c_str <$> ipc_pct_decode_inplace (default [] name) in
    match decoded with
    | None =>
      (s, client, str "ERROR invalid percent-encoding in name" ++ [x0a])
    | Some name =>
      match workspaces_add_named name s with
      | (_, false) =>
        (s, client, str "ERROR failed to add workspace" ++ [x0a])
      | (s', true) => (s', client, str "OK" ++ [x0a])
      end
    end
  | CmdWorkspaceRename name index =>
    if (index <? 1) || bool_decide (default [] name = []) then
      (s, client,
       str "ERROR usage: workspace-rename index=N name=..." ++ [x0a])
    else
      match ipc_pct_decode_inplace (default [] name) with
      | None =>
        (s, client, str "ERROR invalid percent-encoding in name" ++ [x0a])
      | Some decoded =>
        match workspaces_rename_index index (c_str decoded) s with
        | (_, false) =>
          (s, client, str "ERROR failed to rename workspace" ++ [x0a])
        | (s', true) => (s', client, str "OK" ++ [x0a])
        end
      end
  | CmdWorkspaceRemove index =>
    if index <? 1 then
      (s, client, str "ERROR usage: workspace-remove index=N" ++ [x0a])
    else
      match workspaces_remove_index index s with
      | (_, false) =>
        (s, client, str "ERROR failed to remove workspace" ++ [x0a])
      | (s', true) => (s', client, str "OK" ++ [x0a])
      end
  | CmdAction toks =>
    match toks with
    | [] => (s, client, str "ERROR no action" ++ [x0a])
    | action_name :: args =>
      match action_create action_name with
      | None => (s, client, str "ERROR unknown action" ++ [x0a])
      | Some a =>
        let a := foldl action_arg a args in
        if negb (action_is_valid a) then
          (s, client, str "ERROR missing required argument" ++ [x0a])
        else (actions_run s a, client, str "OK" ++ [x0a])
      end
    end
  end.

(** [handle_command] on a line, with the bytes sent so far. *)
Definition handle_line (st : server * ipc_client * list byte)
    (line : list byte) : server * ipc_client * list byte :=
  let '(s, client, out) := st in
  let '(s', client', reply) := handle_command s client line in
  (s', client', out ++ reply).

(** The line loop of [handle_client_readable]: [strchr] scans [buf] for
    the next line feed, [cur] being the bytes passed since [start]; each
    complete line goes to [handle_command]. The result is the state
    after the loop and the bytes left after the last line feed. *)
Fixpoint dispatch_lines (st : server * ipc_client * list byte)
    (cur buf : list byte) : server * ipc_client * list byte * list byte :=
  match buf with
  | [] => (st, cur)
  | c :: rest =>
    if decide (c = x0a) then dispatch_lines (handle_line st cur) [] rest
    else dispatch_lines st (cur ++ [c]) rest
  end.

(** What the event loop reports on a client socket: a hang-up or error
    mask, or the outcome of [read]. *)
Inductive readable :=
| Hangup
| ReadRetry
| ReadClosed
| ReadData (data : list byte).

(** [handle_client_readable]: the server after the call, the client
    unless it was destroyed, and the bytes sent to it. [ReadData data]
    is a [read] of [length data] bytes, between 1 and
    [IPC_BUF_SIZE - 1]. [buf_add] appends the C string that the read
    buffer holds, so the bytes of [data] up to its first NUL. *)
Definition handle_client_readable (s : server) (client : ipc_client)
    (ev : readable) : server * option ipc_client * list byte :=
  match ev with
  | Hangup => (s, None, [])
  | ReadRetry => (s, Some client, [])
  | ReadClosed => (s, None, [])
  | ReadData data =>
    let buf := recv_buf client ++ c_str data in
    if decide (IPC_MAX_RECV_BUF < Z.of_nat (length buf)) then
      (s, None, str "ERROR line too long" ++ [x0a])
    else
      let '(s', client', out, rest) :=
        dispatch_lines (s, client, []) [] buf in
      (s', Some (set_recv_buf rest client'), out)
  end.

End HandleCommand.

End Ipc.
Import Ipc.

(** ** Vocabulary of the specification *)

Module Spec.

(** A mutation of the registry: Add(name), Rename(index, name),
    Remove(index). *)
Inductive registry_op :=
| OpAdd (name : list byte)
| OpRename (index : Z) (name : list byte)
| OpRemove (index : Z).

Definition apply_op (s : server) (op : registry_op) : server :=
  match op with
  | OpAdd name => (workspaces_add_named name s).1
  | OpRename index name => (workspaces_rename_index index name s).1
  | OpRemove index => (workspaces_remove_index index s).1
  end.

Definition apply_ops (ops : list registry_op) (s : server) : server :=
  foldl apply_op s ops.

(** The registry [A, B, C] with [B] current. *)
Definition registry_ABC : server :=
  Server
    [Workspace 0 (str "A") false false false;
     Workspace 1 (str "B") true true true;
     Workspace 2 (str "C") false false false]
    1 None [] None 3 true None 0 [].

(** A registry with the single workspace named [a\r]. *)
Definition registry_cr : server :=
  Server [Workspace 0 [x61; x0d] true true true] 0 None [] None 1 true None
    0 [].

(** A name that the state file gives back as it is: a non-empty C string
    without a line feed that does not end in a carriage return. *)
Definition persistable (name : list byte) : Prop :=
  name ≠ [] ∧ (x0a ∉ name) ∧ (x00 ∉ name)
  ∧ list.last name ≠ Some x0d.

#[export] Instance persistable_dec name : Decision (persistable name) :=
  ltac:(unfold persistable; apply _).

(** The candidates of the occupied-neighbour search from the anchor at
    position [start], in the order the search meets them: the workspaces
    after the anchor in the direction of the search and then, if wrapping
    is requested, those from the other end of the list up to the anchor.
    The anchor is not among them. *)
Definition occupied_candidates (s : server) (start : nat)
    (wrap reverse : bool) : list workspace :=
  let l := workspaces_all s in
  if reverse then
    list.reverse (take start l)
    ++ (if wrap then list.reverse (drop (S start) l) else [])
  else drop (S start) l ++ (if wrap then take start l else []).

(** The first occupied workspace of a list of candidates. *)
Definition first_occupied (s : server) (candidates : list workspace)
  : option nat :=
  ws_id <$> List.find (λ w, workspace_has_views (ws_id w) s) candidates.

(** The registry [1, 2, 3] with current [2], where only [2] has a window
    of its own; a second window is visible on all workspaces. *)
Definition registry_anchor_only : server :=
  Server
    [Workspace 0 (str "1") false false false;
     Workspace 1 (str "2") true true true;
     Workspace 2 (str "3") false false false]
    1 None [View 1 false true; View 2 true true] None 3 true None 0 [].

(** A hexadecimal digit: [0-9], [a-f] or [A-F]. *)
Definition is_hex_digit (c : byte) : bool :=
  let v := byte_val c in
  ((48 <=? v) && (v <=? 57))
  || ((97 <=? v) && (v <=? 102))
  || ((65 <=? v) && (v <=? 70)).

(** The C string [s] contains a truncated or otherwise invalid escape: a
    [%] that is not followed by two hexadecimal digits. *)
Fixpoint has_invalid_escape (s : list byte) : bool :=
  match s with
  | [] => false
  | c :: rest =>
    if decide (c = x00) then false
    else
      (bool_decide (c = x25)
       && negb match rest with
               | c1 :: c2 :: _ => is_hex_digit c1 && is_hex_digit c2
               | _ => false
               end)
      || has_invalid_escape rest
  end.

(** The commands of a connection handled in order: the state after them
    and all the bytes sent to the client. *)
Definition handle_lines {action : Type}
    (action_create : list byte → option action)
    (action_arg_add_str : action → list byte → list byte → action)
    (action_is_valid : action → bool)
    (actions_run : server → action → server)
    (handle_query_views handle_query_views_json
       handle_query_workspaces_json : server → list byte)
    (st : server * ipc_client * list byte) (lines : list (list byte))
  : server * ipc_client * list byte :=
  foldl
    (handle_line action_create action_arg_add_str action_is_valid
       actions_run handle_query_views handle_query_views_json
       handle_query_workspaces_json)
    st lines.

(** A compositor without any action, for the examples: every action name
    is unknown, and the three responses left open are empty. *)
Definition no_action_create (name : list byte) : option Empty_set := None.
Definition no_action_arg_add_str (a : Empty_set) (k v : list byte)
  : Empty_set := a.
Definition no_action_is_valid (a : Empty_set) : bool := true.
Definition no_actions_run (s : server) (a : Empty_set) : server := s.
Definition no_payload (s : server) : list byte := [].

Definition example_handle_command :=
  handle_command no_action_create no_action_arg_add_str no_action_is_valid
    no_actions_run no_payload no_payload no_payload.

Definition example_handle_client_readable :=
  handle_client_readable no_action_create no_action_arg_add_str
    no_action_is_valid no_actions_run no_payload no_payload no_payload.

(** A connection that has sent nothing yet. *)
Definition fresh_client : ipc_client := IpcClient false [].

End Spec.
Import Spec.

(** ** Lookup by name and one-step adjacency ([workspaces.c]) *)

Module WorkspaceFind.

(** The digits at the front of [s] and what follows them. *)
Fixpoint span_digits (s : list byte) : list byte * list byte :=
  match s with
  | [] => ([], [])
  | c :: rest =>
    if isdigit c then
      let '(ds, tl) := span_digits rest in (c :: ds, tl)
    else ([], s)
  end.

(** What [strtol(name, &endptr, 10)] leaves in [endptr]: the bytes after
    the number, or all of [name] when it holds no number. *)
Definition strtol_endptr (name : list byte) : list byte :=
  let s :=
    match lstrip isspace name with
    | [] => []
    | c :: rest =>
      if decide (c = x2d) then rest
      else if decide (c = x2b) then rest
      else c :: rest
    end in
  let '(ds, tl) := span_digits s in
  if bool_decide (ds = []) then name else tl.

(** Whether [strtol(name, &endptr, 10)] sets [errno] to [ERANGE]: the
    number does not fit a 64-bit [long]. *)
Definition strtol_erange (name : list byte) : bool :=
  let v :=
    match lstrip isspace name with
    | [] => 0
    | c :: rest =>
      if decide (c = x2d) then - strtol_digits 0 rest
      else if decide (c = x2b) then strtol_digits 0 rest
      else strtol_digits 0 (c :: rest)
    end in
  (v <? - 2 ^ 63) || (2 ^ 63 - 1 <? v).

(** [parse_workspace_index]. *)
Definition parse_workspace_index (name : list byte) : Z :=
  let index := strtol name in
  if strtol_erange name || negb (bool_decide (strtol_endptr name = []))
     || (index <? 0)
  then 0
  else index.

(** [workspace_find_by_name]: by index first, then by name; [None] is the
    [NULL] return. *)
Definition workspace_find_by_name (s : server) (name : list byte)
  : option nat :=
  let parsed_index := parse_workspace_index name in
  let by_index :=
    if bool_decide (parsed_index = 0) then None
    else workspaces_all s !! Z.to_nat (parsed_index - 1) in
  match by_index with
  | Some workspace => Some (ws_id workspace)
  | None =>
    ws_id <$> List.find (λ w, streq (ws_name w) name) (workspaces_all s)
  end.

(** The workspace that a link is embedded in; there is none behind the
    head of the list. *)
Definition link_workspace (s : server) (lk : link) : option nat :=
  match lk with
  | Head => None
  | Node j => ws_id <$> workspaces_all s !! j
  end.

(** [get_prev]. The anchor [current] is a member of the registry; there is
    no result ([None]) for one that is not. *)
Definition get_prev (s : server) (current : nat) (wrap : bool)
  : option nat :=
  match ws_position s current with
  | None => None
  | Some start =>
    let n := length (workspaces_all s) in
    let target_link := link_prev n (Node start) in
    match target_link with
    | Head =>
      (* Current workspace is the first one *)
      if negb wrap then None
      else link_workspace s (link_prev n target_link)
    | _ => link_workspace s target_link
    end
  end.

(** [get_next], under the same convention. *)
Definition get_next (s : server) (current : nat) (wrap : bool)
  : option nat :=
  match ws_position s current with
  | None => None
  | Some start =>
    let n := length (workspaces_all s) in
    let target_link := link_next n (Node start) in
    match target_link with
    | Head =>
      (* Current workspace is the last one *)
      if negb wrap then None
      else link_workspace s (link_next n target_link)
    | _ => link_workspace s target_link
    end
  end.

End WorkspaceFind.
Import WorkspaceFind.

(** ** Invariants of the registry *)

Module Invariants.

(** The pointers of the registry are sound: the workspaces are distinct
    objects allocated before [next_ws], [current] is one of them and so is
    [last] unless it is [NULL]. *)
Record registry_wf (s : server) : Prop := RegistryWf {
  wf_ids : NoDup (ws_id <$> workspaces_all s);
  wf_fresh : ∀ id, id ∈ ws_id <$> workspaces_all s → (id < next_ws s)%nat;
  wf_current : workspaces_current s ∈ ws_id <$> workspaces_all s;
  wf_last : ∀ id, workspaces_last s = Some id →
                  id ∈ ws_id <$> workspaces_all s }.

(** The tree of a workspace is enabled, and its two handles are active,
    exactly when it is the current one. *)
Definition visuals_ok (s : server) : Prop :=
  ∀ w, w ∈ workspaces_all s →
       ws_tree_enabled w = bool_decide (ws_id w = workspaces_current s)
       ∧ ws_cosmic_active w = bool_decide (ws_id w = workspaces_current s)
       ∧ ws_ext_active w = bool_decide (ws_id w = workspaces_current s).

End Invariants.
Import Invariants.

(** ** JSON responses ([ipc.c]) *)

Module IpcJson.

(** One lower-case hexadecimal digit, as [%x] prints it. *)
Definition hex_digit_lower (d : Z) : byte :=
  if d <? 10 then byte_of_Z (48 + d) else byte_of_Z (87 + d).

(** [printf("%04x")] of an [unsigned char]. *)
Definition fmt_04x (v : Z) : list byte :=
  [hex_digit_lower (v / 4096 mod 16); hex_digit_lower (v / 256 mod 16);
   hex_digit_lower (v / 16 mod 16); hex_digit_lower (v mod 16)].

(** The [switch] of [buf_add_json_string]: what is appended for one
    byte. *)
Definition json_escape (c : byte) : list byte :=
  if decide (c = x22) then [x5c; x22]
  else if decide (c = x5c) then [x5c; x5c]
  else if decide (c = x08) then [x5c; x62]
  else if decide (c = x0c) then [x5c; x66]
  else if decide (c = x0a) then [x5c; x6e]
  else if decide (c = x0d) then [x5c; x72]
  else if decide (c = x09) then [x5c; x74]
  else if byte_val c <? 32 then [x5c; x75] ++ fmt_04x (byte_val c)
  else [c].

(** The loop of [buf_add_json_string]. *)
Fixpoint json_string_body (s : list byte) : list byte :=
  match s with
  | [] => []
  | c :: rest =>
    if decide (c = x00) then [] else json_escape c ++ json_string_body rest
  end.

(** [buf_add_json_string]: the bytes appended to the buffer. *)
Definition buf_add_json_string (s : list byte) : list byte :=
  [x22] ++ json_string_body s ++ [x22].

(** A member name of a JSON object with its colon, as the format strings
    of the source spell it. *)
Definition json_key (k : string) : list byte := [x22] ++ str k ++ [x22; x3a].

(** [handle_query_workspaces_json]: the response it sends. [current] is a
    member of the registry; the name of one that is not reads as empty. *)
Definition handle_query_workspaces_json (s : server) : list byte :=
  str "{"
  ++ json_key "current_workspace"
  ++ fmt_d (workspace_index s (Some (workspaces_current s))) ++ str ","
  ++ json_key "current_workspace_name"
  ++ buf_add_json_string
       (default []
          (ws_name
             <$> List.find
                   (λ w, bool_decide (ws_id w = workspaces_current s))
                   (workspaces_all s)))
  ++ str "," ++ json_key "workspaces" ++ str "["
  ++ concat
       (imap
          (λ i ws,
             (if decide (i = 0%nat) then [] else str ",")
             ++ str "{"
             ++ json_key "index" ++ fmt_d (Z.of_nat (S i)) ++ str ","
             ++ json_key "name" ++ buf_add_json_string (ws_name ws)
             ++ str "," ++ json_key "active"
             ++ (if decide (ws_id ws = workspaces_current s)
                 then str "true" else str "false")
             ++ str "}")
          (workspaces_all s))
  ++ str "]}" ++ [x0a].

End IpcJson.
Import IpcJson.

(** ** Reconfiguration of the registry ([workspaces.c]) *)

Module Reconfigure.

(** The first loop of [workspaces_reconfigure]: it walks the configured
    names and the list of workspaces side by side, [lk] being
    [workspace_link]; a workspace whose name differs is renamed, and once
    the link is back at the head of the list every further name is added.
    The result is the server, the link and [list_changed] after the loop.
    A link is the head of the list or a node of it, so the lookup of a
    node always finds its workspace. *)
Fixpoint reconfigure_names (confs : list (list byte)) (lk : link)
    (list_changed : bool) (s : server) : server * link * bool :=
  match confs with
  | [] => (s, lk, list_changed)
  | conf :: confs' =>
    match lk with
    | Head =>
      (* # of configured workspaces increased *)
      reconfigure_names confs' Head true (add_workspace conf s)
    | Node j =>
      match workspaces_all s !! j with
      | None => (s, lk, list_changed)
      | Some workspace =>
        let next := link_next (length (workspaces_all s)) (Node j) in
        if negb (streq (ws_name workspace) conf) then
          (* Workspace is renamed *)
          reconfigure_names confs' next true
            (set_all (alter (set_name conf) j (workspaces_all s)) s)
        else reconfigure_names confs' next list_changed s
      end
    end
  end.

(** The body of the second loop of [workspaces_reconfigure] for the
    workspace [workspace], which is the node at position [j]: its views
    move to the first workspace, which takes its place as [current] and as
    [last], and it is destroyed. *)
Definition reconfigure_destroy (first_workspace j : nat) (s : server)
    (workspace : workspace) : server :=
  let s :=
    set_views
      ((λ v, if decide (view_workspace v = ws_id workspace)
             then view_move_to_workspace first_workspace v else v)
         <$> views s) s in
  let s :=
    if decide (workspaces_current s = ws_id workspace)
    then workspaces_switch_to first_workspace true s else s in
  let s :=
    if decide (workspaces_last s = Some (ws_id workspace))
    then set_last (Some first_workspace) s else s in
  destroy_workspace j s.

(** [workspaces_reconfigure]. [rc_workspaces] are the names of
    [rc.workspace_config.workspaces], which the persisted names, when
    there are any, take precedence over. The second loop destroys the
    workspaces from [workspace_link] to the end of the list, each being
    the node at the position of the link when its turn comes.
    [overlay_finish] touches no field of the registry and is left out. *)
Definition workspaces_reconfigure (rc_workspaces : list (list byte))
    (s : server) : server :=
  let workspace_source :=
    match workspace_config_list_load_persisted s with
    | Some persisted_workspaces => persisted_workspaces
    | None => rc_workspaces
    end in
  let '(s, workspace_link, list_changed) :=
    reconfigure_names workspace_source
      (link_next (length (workspaces_all s)) Head) false s in
  match workspace_link with
  | Head =>
    if list_changed
    then ipc_notify_workspace_list_changed (workspace_state_persist s)
    else s
  | Node j =>
    (* # of configured workspaces decreased *)
    match head (workspaces_all s) with
    | None => s
    | Some first_workspace =>
      let s :=
        foldl (reconfigure_destroy (ws_id first_workspace) j) s
          (drop j (workspaces_all s)) in
      ipc_notify_workspace_list_changed (workspace_state_persist s)
    end
  end.

End Reconfigure.
Import Reconfigure.

(** ** Lookup of a workspace by keyword, position or name
    ([workspaces.c]) *)

Module WorkspacesLookup.

(** [workspaces_find] with a bound on the iterations of the occupied
    search, as [get_adjacent_occupied] has it. [name] is [None] for
    [NULL]; the result [Some None] is the [NULL] return. The anchor is a
    member of the registry. *)
Definition workspaces_find (fuel : nat) (s : server) (anchor : nat)
    (name : option (list byte)) (wrap : bool) : option (option nat) :=
  match name with
  | None => Some None
  | Some name =>
    if strcaseeq name (str "current") then Some (Some anchor)
    else if strcaseeq name (str "last") then Some (workspaces_last s)
    else if strcaseeq name (str "left") then Some (get_prev s anchor wrap)
    else if strcaseeq name (str "right") then Some (get_next s anchor wrap)
    else if strcaseeq name (str "left-occupied")
    then get_prev_occupied fuel s anchor wrap
    else if strcaseeq name (str "right-occupied")
    then get_next_occupied fuel s anchor wrap
    else Some (workspace_find_by_name s name)
  end.

End WorkspacesLookup.
Import WorkspacesLookup.

(** ** Sending on a socket ([ipc.c]) *)

Module IpcSend.

(** What a call of [write] returns: the number of bytes it took, or -1
    with [errno] set to [EINTR] or to something else. *)
Inductive write_result :=
| Wrote (n : Z)
| WriteEintr
| WriteError.

(** [ipc_send_raw] on the results of its successive calls of [write],
    which takes at most the [len] bytes it is offered: whether it returns
    true, and the bytes that the socket took. There is no result ([None])
    when the loop has not ended after the calls listed. *)
Fixpoint ipc_send_raw (writes : list write_result) (data : list byte)
  : option (bool * list byte) :=
  match data with
  | [] => Some (true, [])
  | _ :: _ =>
    match writes with
    | [] => None
    | Wrote n :: writes' =>
      if 0 <? n then
        (λ r, (r.1, take (Z.to_nat n) data ++ r.2))
          <$> ipc_send_raw writes' (drop (Z.to_nat n) data)
      else Some (false, [])
    | WriteEintr :: writes' => ipc_send_raw writes' data
    | WriteError :: _ => Some (false, [])
    end
  end.

End IpcSend.
Import IpcSend.

(** * Properties *)

Section Examples.

Example fmt_d_examples :
  fmt_d 12 = str "12" ∧ fmt_d 0 = str "0" ∧ fmt_d (-7) = str "-7".
Proof. by split_and!. Qed.

Example atoi_examples :
  atoi (str "42") = 42 ∧ atoi (str " -12x") = -12 ∧ atoi (str "abc") = 0
  ∧ atoi (str "4294967297") = 1.
Proof. by split_and!. Qed.

Example strtok_all_example :
  strtok_all ([x20] ++ str "a  b" ++ [x09] ++ str "c=d ")
  = [str "a"; str "b"; str "c=d"].
Proof. reflexivity. Qed.

Example getlines_example :
  getlines (str "ab" ++ [x0d; x0a; x0a] ++ str "c")
  = [str "ab" ++ [x0d; x0a]; [x0a]; str "c"].
Proof. reflexivity. Qed.

Example dispatch_examples :
  dispatch (str " PinG ") = CmdPing
  ∧ dispatch (str "ping x") = CmdAction [str "ping"; str "x"]
  ∧ dispatch (str "workspace-rename NAME=a%20b index=2 name=c")
    = CmdWorkspaceRename (Some (str "c")) 2
  ∧ dispatch (str "Workspace-Remove index=3") = CmdWorkspaceRemove 3
  ∧ dispatch (str "GoToDesktop to=right wrap=yes")
    = CmdAction [str "GoToDesktop"; str "to=right"; str "wrap=yes"].
Proof. by split_and!. Qed.

(** The scenario of the specification: [workspace-add name=web%20docs]
    adds a workspace named [web docs]. *)
Example add_web_docs :
  ws_names
    (example_handle_command registry_ABC fresh_client
       (str "workspace-add name=web%20docs")).1.1
  = [str "A"; str "B"; str "C"; str "web docs"].
Proof. reflexivity. Qed.

End Examples.

Section PctProperties.

Lemma unreserved_not_percent c :
  ipc_pct_is_unreserved c = true → c ≠ x25.
Proof. by destruct c. Qed.

(** Decoding the three bytes that encode one reserved byte gives the byte
    back. *)
Lemma decode_escape c tail :
  c ≠ x00 →
  ipc_pct_decode_inplace (x25 :: fmt_02X (byte_val c) ++ tail)
  = cons c <$> ipc_pct_decode_inplace tail.
Proof. by destruct c. Qed.

(** C2: for every NUL-free byte string [s], percent-decoding the
    percent-encoding of [s] succeeds and returns exactly [s]; control
    bytes, the [%] character and the bytes of multi-byte UTF-8 sequences
    are no exception. *)
Theorem pct_decode_encode (s : list byte) :
  x00 ∉ s → ipc_pct_decode_inplace (buf_add_pct_encoded s) = Some s.
Proof.
  induction s as [|c s IH]; intros Hnul; [done|].
  apply not_elem_of_cons in Hnul as [Hc Hs].
  cbn [buf_add_pct_encoded]. rewrite decide_False by done.
  destruct (ipc_pct_is_unreserved c) eqn:Hun.
  - cbn [ipc_pct_decode_inplace]. rewrite decide_False by done.
    rewrite bool_decide_false by by apply unreserved_not_percent.
    cbn. by rewrite IH.
  - rewrite decode_escape by done. by rewrite IH.
Qed.

Lemma pct_decode_encode_witness :
  ipc_pct_decode_inplace
    (buf_add_pct_encoded [x01; x25; xc3; xa9; x20; x41; x0a; xff])
  = Some [x01; x25; xc3; xa9; x20; x41; x0a; xff].
Proof. apply pct_decode_encode. by apply (bool_decide_unpack _). Defined.

Lemma nibble_negative c :
  (ipc_hex_nibble c <? 0) = negb (is_hex_digit c).
Proof. by destruct c. Qed.

Lemma hex_digit_plain c rest :
  is_hex_digit c = true →
  c ≠ x00 ∧ has_invalid_escape (c :: rest) = has_invalid_escape rest.
Proof. by destruct c. Qed.

(** A C string with an invalid escape is refused by the decoder. *)
Lemma invalid_escape_decode_fails s :
  has_invalid_escape s = true → ipc_pct_decode_inplace s = None.
Proof.
  remember (length s) as n eqn:Hn. revert s Hn.
  induction n as [n IH] using lt_wf_ind. intros s Hn Hbad.
  destruct s as [|c rest]; [done|].
  cbn [has_invalid_escape] in Hbad. cbn [ipc_pct_decode_inplace].
  destruct (decide (c = x00)); [done|].
  destruct (bool_decide (c = x25)); cbn [negb andb orb] in *.
  - destruct rest as [|c1 [|c2 rest']]; [done..|].
    rewrite !nibble_negative.
    destruct (is_hex_digit c1) eqn:Hc1, (is_hex_digit c2) eqn:Hc2;
      cbn [negb andb orb] in *; try by repeat case_bool_decide.
    destruct (hex_digit_plain c1 (c2 :: rest') Hc1) as [Hnul1 Hstep1].
    destruct (hex_digit_plain c2 rest' Hc2) as [Hnul2 Hstep2].
    rewrite Hstep1, Hstep2 in Hbad.
    rewrite !bool_decide_false by done. cbn [orb].
    rewrite (IH (length rest')); [done| |done..].
    subst n. cbn. lia.
  - rewrite (IH (length rest)); [done| |done..].
    subst n. cbn. lia.
Qed.

(** Conversely the decoder refuses nothing else. *)
Lemma decode_fails_invalid_escape s :
  ipc_pct_decode_inplace s = None → has_invalid_escape s = true.
Proof.
  remember (length s) as n eqn:Hn. revert s Hn.
  induction n as [n IH] using lt_wf_ind. intros s Hn Hfail.
  destruct s as [|c rest]; [done|].
  cbn [has_invalid_escape]. cbn [ipc_pct_decode_inplace] in Hfail.
  destruct (decide (c = x00)); [done|].
  destruct (bool_decide (c = x25)); cbn [negb andb orb] in *.
  - destruct rest as [|c1 [|c2 rest']]; [done..|].
    rewrite !nibble_negative in Hfail.
    destruct (is_hex_digit c1) eqn:Hc1, (is_hex_digit c2) eqn:Hc2;
      cbn [negb andb orb] in *; try done.
    destruct (hex_digit_plain c1 (c2 :: rest') Hc1) as [Hnul1 Hstep1].
    destruct (hex_digit_plain c2 rest' Hc2) as [Hnul2 Hstep2].
    rewrite Hstep1, Hstep2.
    rewrite !bool_decide_false in Hfail by done. cbn [orb] in Hfail.
    apply (IH (length rest')); [subst n; cbn; lia|done|].
    by destruct (ipc_pct_decode_inplace rest').
  - apply (IH (length rest)); [subst n; cbn; lia|done|].
    by destruct (ipc_pct_decode_inplace rest).
Qed.

End PctProperties.

Section RegistryProperties.

Lemma all_persist s :
  workspaces_all (workspace_state_persist s) = workspaces_all s.
Proof. unfold workspace_state_persist. by destruct (fs_ok s). Qed.

Lemma length_all_update_ws id f s :
  length (workspaces_all (update_ws id f s)) = length (workspaces_all s).
Proof. cbn. by rewrite length_fmap. Qed.

Lemma length_all_switch_to target uf s :
  length (workspaces_all (workspaces_switch_to target uf s))
  = length (workspaces_all s).
Proof.
  unfold workspaces_switch_to. case_decide; [done|].
  cbn. destruct (grabbed_view s); cbn; by rewrite !length_fmap.
Qed.

Lemma length_all_add name s :
  (length (workspaces_all s)
   ≤ length (workspaces_all (workspaces_add_named name s).1))%nat.
Proof.
  unfold workspaces_add_named. case_bool_decide; [done|].
  cbn. rewrite all_persist. cbn. rewrite length_app. lia.
Qed.

Lemma length_all_rename index name s :
  length (workspaces_all (workspaces_rename_index index name s).1)
  = length (workspaces_all s).
Proof.
  unfold workspaces_rename_index. case_bool_decide; [done|].
  destruct (workspace_by_index s index) as [[i w]|]; [|done].
  destruct (streq (ws_name w) name); [done|].
  cbn. rewrite all_persist. cbn. by rewrite length_alter.
Qed.

(** Remove is rejected at size 1 and below, with no effect at all. *)
Lemma remove_rejected_at_size_1 index s :
  (length (workspaces_all s) ≤ 1)%nat →
  workspaces_remove_index index s = (s, false).
Proof. intros Hlen. unfold workspaces_remove_index. by rewrite decide_True. Qed.

Lemma length_all_remove index s :
  (1 ≤ length (workspaces_all s))%nat →
  (1 ≤ length (workspaces_all (workspaces_remove_index index s).1))%nat.
Proof.
  intros Hlen. unfold workspaces_remove_index.
  case_decide as Hcount; [done|].
  destruct (workspace_by_index s index) as [[i w]|] eqn:Hidx; [|done].
  destruct (_ : option workspace) as [fallback|]; [|done].
  case_decide; [done|].
  cbn -[workspaces_switch_to]. rewrite all_persist.
  cbn -[workspaces_switch_to].
  rewrite length_delete.
  - set (sv := set_views _ s).
    assert (length (workspaces_all sv) = length (workspaces_all s)) as Hsv
      by done.
    repeat case_decide; cbn -[workspaces_switch_to];
      rewrite ?length_all_switch_to; lia.
  - unfold workspace_by_index in Hidx.
    destruct (index <? 1); [done|].
    destruct (workspaces_all s !! Z.to_nat (index - 1)) as [w'|] eqn:Hw;
      [|done].
    injection Hidx as <- <-.
    set (sv := set_views _ s).
    assert (workspaces_all sv !! Z.to_nat (index - 1) = Some w') as Hsv by done.
    assert (∀ t, is_Some (workspaces_all t !! Z.to_nat (index - 1)) →
                 is_Some (workspaces_all
                            (if decide (workspaces_last t = Some (ws_id w'))
                             then set_last (Some (ws_id fallback)) t else t)
                          !! Z.to_nat (index - 1))) as Hlast.
    { intros t Ht. by case_decide. }
    apply Hlast. case_decide; [|by eexists].
    apply lookup_lt_is_Some. rewrite length_all_switch_to.
    apply lookup_lt_is_Some. by eexists.
Qed.

Lemma length_all_apply_op s op :
  (1 ≤ length (workspaces_all s))%nat →
  (1 ≤ length (workspaces_all (apply_op s op)))%nat.
Proof.
  intros Hlen. destruct op as [name|index name|index]; cbn [apply_op].
  - pose proof (length_all_add name s). lia.
  - by rewrite length_all_rename.
  - by apply length_all_remove.
Qed.

Lemma length_all_init s0 : length (workspaces_all (workspaces_init s0)) = 1%nat.
Proof. cbn. by rewrite all_persist. Qed.

(** C1: for every sequence of add/rename/remove operations starting from
    the initial one-workspace registry, the registry size stays >= 1; and
    workspace-remove on a registry of size 1 returns failure and leaves the
    whole server, so the registry, current and last, unchanged. *)
Theorem registry_never_empty (s0 : server) (ops : list registry_op) :
  (1 ≤ length (workspaces_all (apply_ops ops (workspaces_init s0))))%nat
  ∧ ∀ (s : server) (index : Z),
      length (workspaces_all s) = 1%nat →
      workspaces_remove_index index s = (s, false).
Proof.
  split.
  - unfold apply_ops.
    assert (1 ≤ length (workspaces_all (workspaces_init s0)))%nat as Hinit
      by (rewrite length_all_init; lia).
    revert Hinit. generalize (workspaces_init s0).
    induction ops as [|op ops IH]; intros s Hs; [done|].
    cbn [foldl]. apply IH. by apply length_all_apply_op.
  - intros s index Hlen. apply remove_rejected_at_size_1. lia.
Qed.

Lemma registry_never_empty_witness :
  (1 ≤ length (workspaces_all
                 (apply_ops [OpAdd (str "web"); OpRemove 1; OpRemove 1]
                    (workspaces_init registry_ABC))))%nat
  ∧ workspaces_remove_index 1 (workspaces_init registry_ABC)
    = (workspaces_init registry_ABC, false).
Proof.
  destruct (registry_never_empty registry_ABC
              [OpAdd (str "web"); OpRemove 1; OpRemove 1]) as [Hsize Hremove].
  split; [exact Hsize|]. apply Hremove. reflexivity.
Defined.

Lemma ws_position_ids s t id :
  ws_id <$> workspaces_all s = ws_id <$> workspaces_all t →
  ws_position s id = ws_position t id.
Proof.
  unfold ws_position. generalize (workspaces_all s), (workspaces_all t).
  intros l1. induction l1 as [|w1 l1 IH]; intros [|w2 l2] Heq; try done.
  injection Heq as Hid Htl. cbn. rewrite Hid.
  case_decide; [done|]. cbn.
  specialize (IH l2 Htl).
  destruct (list_find _ l1) as [[]|], (list_find _ l2) as [[]|]; cbn in *;
    congruence.
Qed.

Lemma ids_update_ws id f s :
  (∀ w, ws_id (f w) = ws_id w) →
  ws_id <$> workspaces_all (update_ws id f s) = ws_id <$> workspaces_all s.
Proof.
  intros Hf. cbn. rewrite <- list_fmap_compose. apply list_fmap_ext.
  intros i w _. cbn. by case_decide.
Qed.

Lemma ids_switch_to target uf s :
  ws_id <$> workspaces_all (workspaces_switch_to target uf s)
  = ws_id <$> workspaces_all s.
Proof.
  unfold workspaces_switch_to. case_decide; [done|].
  cbn. destruct (grabbed_view s); cbn;
    rewrite <- !list_fmap_compose; apply list_fmap_ext;
    intros i w _; cbn; by repeat case_decide.
Qed.

(** C3: for every registry and every workspace [target] distinct from
    current, Switch(target) sets current to [target], sets last to the
    workspace that was current before the call, and emits exactly one
    event, the workspace-changed event that reports the position of
    [target]. *)
Theorem switch_to_current_last_event
    (s : server) (target : nat) (update_focus : bool) :
  target ≠ workspaces_current s →
  let s' := workspaces_switch_to target update_focus s in
  workspaces_current s' = target
  ∧ workspaces_last s' = Some (workspaces_current s)
  ∧ ipc_events s'
    = ipc_events s
      ++ [str "EVENT workspace-changed current="
          ++ fmt_d (workspace_index s (Some target)) ++ [x0a]].
Proof.
  intros Hne s'.
  pose proof (ids_switch_to target update_focus s) as Hids.
  subst s'. revert Hids. unfold workspaces_switch_to.
  rewrite decide_False by done. cbv zeta.
  unfold ipc_notify_workspace_changed, ipc_broadcast_event,
    workspace_changed_event.
  set (pre := update_ws target (set_active true) _).
  intros Hids.
  assert (workspaces_current pre = target
          ∧ workspaces_last pre = Some (workspaces_current s)
          ∧ ipc_events pre = ipc_events s) as (Hcur & Hlast & Hev)
    by (subst pre; cbn; destruct (grabbed_view s); by repeat split).
  split; [exact Hcur|]. split; [exact Hlast|].
  cbn [ipc_events set_ipc_events]. rewrite Hev, Hcur.
  unfold workspace_index.
  by rewrite (ws_position_ids pre s target) by done.
Qed.

(** The scenario of the specification: registry [A, B, C], current [B];
    Switch(C) gives current = C, last = B and one workspace-changed
    event. *)
Lemma switch_to_current_last_event_witness :
  let s' := workspaces_switch_to 2 true registry_ABC in
  workspaces_current s' = 2%nat
  ∧ workspaces_last s' = Some 1%nat
  ∧ ipc_events s' = [str "EVENT workspace-changed current=3" ++ [x0a]].
Proof.
  apply (switch_to_current_last_event registry_ABC 2 true). by vm_compute.
Defined.

End RegistryProperties.

Section PersistenceProperties.

Lemma getlines_line name rest :
  x0a ∉ name →
  getlines (name ++ x0a :: rest) = (name ++ [x0a]) :: getlines rest.
Proof.
  induction name as [|c name IH]; intros Hlf; cbn.
  - done.
  - apply not_elem_of_cons in Hlf as [Hc Hname].
    rewrite decide_False by done. by rewrite IH.
Qed.

Lemma getlines_serialize names :
  Forall (λ name, x0a ∉ name) names →
  getlines (serialize_names names) = (λ name, name ++ [x0a]) <$> names.
Proof.
  unfold serialize_names. induction 1 as [|name names Hname _ IH]; [done|].
  cbn. rewrite <- app_assoc. cbn. rewrite getlines_line by done.
  by rewrite IH.
Qed.

Lemma rstrip_snoc p l c : p c = true → rstrip p (l ++ [c]) = rstrip p l.
Proof.
  intros Hc. induction l as [|d l IH]; cbn; [by rewrite Hc|by rewrite IH].
Qed.

Lemma rstrip_keeps p l :
  (∀ c, list.last l = Some c → p c = false) → rstrip p l = l.
Proof.
  induction l as [|d l IH]; [done|]. intros Hlast. cbn.
  destruct l as [|e l].
  - cbn. by rewrite Hlast.
  - rewrite IH by (intros c Hc; by apply Hlast). done.
Qed.

Lemma c_str_nul_free l : x00 ∉ l → c_str l = l.
Proof.
  induction l as [|c l IH]; [done|]. intros [Hc Hl]%not_elem_of_cons.
  cbn. rewrite decide_False by done. by rewrite IH.
Qed.

Lemma last_not_eol name c :
  persistable name → list.last name = Some c → is_eol c = false.
Proof.
  intros (_ & Hlf & _ & Hcr) Hlast. unfold is_eol.
  rewrite !bool_decide_false; [done| |]; intros ->.
  - by rewrite Hlast in Hcr.
  - apply Hlf. apply (last_Some_elem_of _ _ Hlast).
Qed.

Lemma load_names names :
  Forall persistable names →
  c_str <$> filter (λ l, l ≠ [])
              (rstrip is_eol <$> ((λ name, name ++ [x0a]) <$> names))
  = names.
Proof.
  induction 1 as [|name names Hname _ IH]; [done|].
  rewrite !fmap_cons, rstrip_snoc by done.
  rewrite rstrip_keeps by (intros c; by apply last_not_eol).
  destruct Hname as (Hne & _ & Hnul & _).
  rewrite filter_cons_True by done.
  by rewrite fmap_cons, c_str_nul_free, IH.
Qed.

(** C7, as the code has it: for every registry whose workspace names are
    all non-empty, contain no line feed and do not end in a carriage
    return, persisting the registry and then loading the persisted state
    yields exactly the same ordered list of names. (The registry has a
    member, its names are C strings, and the state file can be
    written.) *)
Theorem persist_load_names (s : server) :
  fs_ok s = true →
  workspaces_all s ≠ [] →
  Forall persistable (ws_names s) →
  workspace_config_list_load_persisted (workspace_state_persist s)
  = Some (ws_names s).
Proof.
  intros Hfs Hne Hnames.
  unfold workspace_state_persist, workspace_config_list_load_persisted.
  rewrite Hfs. cbn [state_file write_state_file].
  rewrite getlines_serialize
    by (revert Hnames; apply List.Forall_impl; by intros name (_ & ? & _)).
  rewrite load_names by done.
  rewrite bool_decide_false; [done|].
  unfold ws_names. by destruct (workspaces_all s).
Qed.

Lemma persist_load_names_witness :
  workspace_config_list_load_persisted
    (workspace_state_persist
       (apply_ops [OpAdd (str "web docs"); OpAdd [x61; x0d; x62]]
          (workspaces_init registry_ABC)))
  = Some [str "1"; str "web docs"; [x61; x0d; x62]].
Proof.
  apply (persist_load_names
           (apply_ops [OpAdd (str "web docs"); OpAdd [x61; x0d; x62]]
              (workspaces_init registry_ABC))).
  - reflexivity.
  - by vm_compute.
  - by apply (bool_decide_unpack _).
Defined.

(** C7 as stated fails: the name [a\r] is non-empty and contains no
    newline, yet the loader, which strips carriage returns from the end of
    every line, gives back [a]. *)
Lemma persist_load_counterexample :
  fs_ok registry_cr = true
  ∧ ws_names registry_cr = [[x61; x0d]]
  ∧ Forall (λ name, name ≠ [] ∧ (x0a ∉ name)) (ws_names registry_cr)
  ∧ workspace_config_list_load_persisted (workspace_state_persist registry_cr)
    = Some [[x61]]
  ∧ workspace_config_list_load_persisted (workspace_state_persist registry_cr)
    ≠ Some (ws_names registry_cr).
Proof.
  split; [reflexivity|]. split; [reflexivity|].
  split; [by apply (bool_decide_unpack _)|].
  split; [reflexivity|]. by vm_compute.
Qed.

End PersistenceProperties.

Section AdjacencyProperties.

Variable s : server.
Variable anchor start : nat.
Hypothesis ids_NoDup : NoDup (ws_id <$> workspaces_all s).
Hypothesis anchor_at_start : ws_id <$> workspaces_all s !! start = Some anchor.

Local Abbreviation l := (workspaces_all s).
Local Abbreviation n := (length (workspaces_all s)).
Local Abbreviation loop := (adjacent_occupied_loop s anchor start).

Lemma start_lt_length : (start < n)%nat.
Proof.
  pose proof anchor_at_start as Hanchor.
  destruct (l !! start) eqn:Hw; [|done].
  apply lookup_lt_is_Some. by eexists.
Qed.

Lemma other_id j w : l !! j = Some w → j ≠ start → ws_id w ≠ anchor.
Proof.
  intros Hj Hne Heq. apply Hne.
  eapply (NoDup_lookup _ _ _ anchor ids_NoDup); rewrite list_lookup_fmap.
  - by rewrite Hj, <- Heq.
  - done.
Qed.

Lemma ws_position_anchor : ws_position s anchor = Some start.
Proof.
  unfold ws_position. pose proof other_id as Hother.
  pose proof anchor_at_start as Hanchor.
  destruct (l !! start) as [wa|] eqn:Hwa; [|done].
  assert (list_find (λ w, ws_id w = anchor) l = Some (start, wa)) as ->;
    [|done].
  apply list_find_Some. split_and!; [done|by injection Hanchor|].
  intros j w Hj Hlt Heq. apply (Hother j w); [done|lia|done].
Qed.

Lemma first_occupied_cons w ws :
  first_occupied s (w :: ws)
  = if workspace_has_views (ws_id w) s then Some (ws_id w)
    else first_occupied s ws.
Proof. unfold first_occupied. cbn. by destruct (workspace_has_views _ _). Qed.

(** One iteration of the loop at a node other than the anchor. *)
Lemma loop_node (wrap rev : bool) fuel j w hw :
  l !! j = Some w → j ≠ start →
  loop wrap rev (S fuel) (Node j) hw
  = if workspace_has_views (ws_id w) s then Some (Some (ws_id w))
    else loop wrap rev fuel
           (if rev then link_prev n (Node j) else link_next n (Node j)) hw.
Proof.
  intros Hj Hne. cbn [adjacent_occupied_loop]. rewrite Hj.
  rewrite decide_False by done.
  rewrite bool_decide_false by by eapply other_id.
  done.
Qed.

(** One iteration of the loop at the anchor: the search has come full
    circle. *)
Lemma loop_start wrap rev fuel hw :
  loop wrap rev (S fuel) (Node start) hw = Some None.
Proof.
  cbn [adjacent_occupied_loop].
  by destruct (l !! start); [rewrite decide_True|].
Qed.

(** Forward, from a node before the anchor up to the anchor. *)
Lemma forward_to_start (wrap : bool) k : ∀ j fuel hw,
  (j + k = start)%nat → (k < fuel)%nat →
  loop wrap false fuel (Node j) hw
  = Some (first_occupied s (take k (drop j l))).
Proof.
  pose proof start_lt_length as Hstart.
  induction k as [|k IH]; intros j [|fuel] hw Hjk Hfuel; try lia.
  - replace j with start by lia. by rewrite loop_start.
  - destruct (l !! j) as [w|] eqn:Hj;
      [|apply lookup_ge_None in Hj; lia].
    rewrite (loop_node wrap false fuel j w) by (done || lia).
    rewrite (drop_S _ _ _ Hj). cbn [take]. rewrite first_occupied_cons.
    destruct (workspace_has_views _ _); [done|].
    cbn [link_next]. rewrite decide_True by lia.
    apply IH; lia.
Qed.

(** Forward, from a node after the anchor to the end of the list and,
    when wrapping, on from the first node. *)
Lemma forward_to_end (wrap : bool) k : ∀ j fuel,
  (j + k = n)%nat → (start < j)%nat →
  (k + (if wrap then S start else 0) < fuel)%nat →
  loop wrap false fuel (if decide (j < n)%nat then Node j else Head) false
  = Some (first_occupied s (drop j l ++ if wrap then take start l else [])).
Proof.
  pose proof start_lt_length as Hstart.
  induction k as [|k IH]; intros j [|fuel] Hjk Hj Hfuel; try lia.
  - rewrite decide_False by lia. rewrite drop_ge by lia.
    cbn [adjacent_occupied_loop]. destruct wrap; [|done]. cbn [negb app].
    cbn [link_next]. rewrite decide_False by lia.
    rewrite (forward_to_start true start) by lia. by rewrite drop_0.
  - rewrite decide_True by lia.
    destruct (l !! j) as [w|] eqn:Hw;
      [|apply lookup_ge_None in Hw; lia].
    rewrite (loop_node wrap false fuel j w) by (done || lia).
    rewrite (drop_S _ _ _ Hw). cbn [app]. rewrite first_occupied_cons.
    destruct (workspace_has_views _ _); [done|].
    cbn [link_next]. apply IH; lia.
Qed.

(** Backward, from a node after the anchor down to the anchor. *)
Lemma backward_to_start (wrap : bool) k : ∀ fuel hw,
  (start + k < n)%nat → (k < fuel)%nat →
  loop wrap true fuel (Node (start + k)) hw
  = Some (first_occupied s (list.reverse (take k (drop (S start) l)))).
Proof.
  induction k as [|k IH]; intros [|fuel] hw Hlen Hfuel; try lia.
  - rewrite Nat.add_0_r. by rewrite loop_start.
  - destruct (l !! (start + S k)%nat) as [w|] eqn:Hw;
      [|apply lookup_ge_None in Hw; lia].
    rewrite (loop_node wrap true fuel _ w) by (done || lia).
    assert (drop (S start) l !! k = Some w) as Hk
      by (rewrite lookup_drop, <- Hw; f_equal; lia).
    rewrite (take_S_r _ _ _ Hk), reverse_snoc, first_occupied_cons.
    destruct (workspace_has_views _ _); [done|].
    replace (start + S k)%nat with (S (start + k)) by lia.
    cbn [link_prev]. apply IH; lia.
Qed.

(** Backward, from a node before the anchor to the head of the list and,
    when wrapping, on from the last node. *)
Lemma backward_to_head (wrap : bool) k : ∀ fuel,
  (k ≤ start)%nat →
  (k + (if wrap then n - start else 0) < fuel)%nat →
  loop wrap true fuel (match k with O => Head | S j => Node j end) false
  = Some (first_occupied s
            (list.reverse (take k l)
             ++ if wrap then list.reverse (drop (S start) l) else [])).
Proof.
  pose proof start_lt_length as Hstart.
  induction k as [|k IH]; intros [|fuel] Hk Hfuel; try lia.
  - cbn [adjacent_occupied_loop take list.reverse app].
    destruct wrap; [|done]. cbn [negb].
    cbn [link_prev]. rewrite decide_False by lia.
    replace (n - 1)%nat with (start + (n - 1 - start))%nat by lia.
    rewrite backward_to_start by lia.
    rewrite take_ge; [done|]. rewrite length_drop. lia.
  - destruct (l !! k) as [w|] eqn:Hw;
      [|apply lookup_ge_None in Hw; lia].
    rewrite (loop_node wrap true fuel k w) by (done || lia).
    rewrite (take_S_r _ _ _ Hw), reverse_snoc. cbn [app].
    rewrite first_occupied_cons.
    destruct (workspace_has_views _ _); [done|].
    replace (link_prev n (Node k)) with
      (match k with O => Head | S j => Node j end) by by destruct k.
    apply IH; lia.
Qed.

(** With a fuel of one more than the size of the registry the search
    returns, and it returns the first occupied candidate. *)
Lemma get_adjacent_occupied_candidates (wrap reverse : bool) fuel :
  (n < fuel)%nat →
  get_adjacent_occupied fuel s anchor wrap reverse
  = Some (first_occupied s (occupied_candidates s start wrap reverse)).
Proof.
  intros Hfuel. pose proof start_lt_length as Hstart.
  unfold get_adjacent_occupied, occupied_candidates.
  rewrite ws_position_anchor. destruct reverse.
  - replace (link_prev n (Node start)) with
      (match start with O => Head | S j => Node j end) by by destruct start.
    apply backward_to_head; [done|]. destruct wrap; lia.
  - cbn [link_next]. apply (forward_to_end wrap (n - S start)); [lia..|].
    destruct wrap; lia.
Qed.

(** The anchor is not among the candidates. *)
Lemma candidates_not_anchor (wrap reverse : bool) w :
  w ∈ occupied_candidates s start wrap reverse → ws_id w ≠ anchor.
Proof.
  assert (∀ k, w ∈ take start (drop k l) → (k = 0)%nat →
               ws_id w ≠ anchor) as Hbefore.
  { intros k (j & Hj & Hlt)%elem_of_take ->. rewrite drop_0 in Hj.
    apply (other_id j w); [done|lia]. }
  assert (w ∈ drop (S start) l → ws_id w ≠ anchor) as Hafter.
  { intros (j & Hj)%list_elem_of_lookup_1. rewrite lookup_drop in Hj.
    apply (other_id _ w Hj). lia. }
  specialize (Hbefore 0%nat). rewrite drop_0 in Hbefore.
  unfold occupied_candidates.
  destruct reverse, wrap; rewrite ?app_nil_r, ?elem_of_app, ?elem_of_reverse;
    intuition.
Qed.

Lemma first_occupied_none candidates :
  (∀ w, w ∈ candidates → workspace_has_views (ws_id w) s = false) →
  first_occupied s candidates = None.
Proof.
  induction candidates as [|w ws IH]; intros Hnone; [done|].
  rewrite first_occupied_cons, Hnone by left.
  apply IH. intros w' Hw'. apply Hnone. by right.
Qed.

End AdjacencyProperties.

(** A workspace to which no view of its own is assigned is not occupied. *)
Lemma not_occupied s ws :
  (∀ v, v ∈ views s →
        view_visible_on_all_workspaces v = false →
        view_workspace v ≠ ws) →
  workspace_has_views ws s = false.
Proof.
  intros Hviews. unfold workspace_has_views, for_each_view_no_omnipresent.
  apply not_true_is_false. intros (v & Hin & Hv)%existsb_exists.
  apply filter_In in Hin as [Hin Hcrit].
  apply andb_true_iff in Hcrit as [_ Homni%negb_true_iff].
  apply bool_decide_eq_true in Hv.
  by apply (Hviews v); [apply list_elem_of_In|..].
Qed.

(** C5: the left-occupied/right-occupied search ([reverse] true/false)
    from an anchor that is a member of the registry ends within one more
    iteration than the registry has workspaces, for both settings of
    [wrap]. It returns the first occupied workspace among the candidates:
    those met by stepping from the anchor in the one direction and, only
    when wrapping is requested and only once, on from the other end of the
    list up to the anchor, which is never a candidate. In a registry in
    which every window that is not omnipresent is assigned to the anchor it
    returns none. *)
Theorem occupied_search_terminates
    (s : server) (anchor start : nat) (wrap reverse : bool) (fuel : nat) :
  NoDup (ws_id <$> workspaces_all s) →
  ws_id <$> workspaces_all s !! start = Some anchor →
  (length (workspaces_all s) < fuel)%nat →
  get_adjacent_occupied fuel s anchor wrap reverse
  = Some (first_occupied s (occupied_candidates s start wrap reverse))
  ∧ ((∀ v, v ∈ views s →
           view_visible_on_all_workspaces v = false →
           view_workspace v = anchor) →
     get_adjacent_occupied fuel s anchor wrap reverse = Some None).
Proof.
  intros Hdup Hanchor Hfuel.
  pose proof (get_adjacent_occupied_candidates s anchor start Hdup Hanchor
                wrap reverse fuel Hfuel) as Hsearch.
  split; [done|]. intros Honly. rewrite Hsearch. f_equal.
  apply first_occupied_none. intros w Hw. apply not_occupied.
  intros v Hv Homni Heq.
  apply (candidates_not_anchor s anchor start Hdup Hanchor wrap reverse w Hw).
  rewrite <- Heq. by apply Honly.
Qed.

Lemma occupied_search_terminates_witness :
  get_adjacent_occupied 4 registry_anchor_only 1 true false = Some None
  ∧ get_adjacent_occupied 4 registry_anchor_only 1 false true = Some None.
Proof.
  split.
  - apply (occupied_search_terminates registry_anchor_only 1 1 true false 4).
    + by apply (bool_decide_unpack _).
    + reflexivity.
    + cbn. lia.
    + intros v [->|[->|[]%elem_of_nil]%elem_of_cons]%elem_of_cons Homni;
        by cbn in *.
  - apply (occupied_search_terminates registry_anchor_only 1 1 false true 4).
    + by apply (bool_decide_unpack _).
    + reflexivity.
    + cbn. lia.
    + intros v [->|[->|[]%elem_of_nil]%elem_of_cons]%elem_of_cons Homni;
        by cbn in *.
Defined.

Section IpcProperties.

Context {action : Type}.
Variable action_create : list byte → option action.
Variable action_arg_add_str : action → list byte → list byte → action.
Variable action_is_valid : action → bool.
Variable actions_run : server → action → server.
Variable handle_query_views : server → list byte.
Variable handle_query_views_json : server → list byte.
Variable handle_query_workspaces_json : server → list byte.

Local Abbreviation handle_command' :=
  (handle_command action_create action_arg_add_str action_is_valid
     actions_run handle_query_views handle_query_views_json
     handle_query_workspaces_json).
Local Abbreviation handle_line' :=
  (handle_line action_create action_arg_add_str action_is_valid
     actions_run handle_query_views handle_query_views_json
     handle_query_workspaces_json).
Local Abbreviation handle_lines' :=
  (handle_lines action_create action_arg_add_str action_is_valid
     actions_run handle_query_views handle_query_views_json
     handle_query_workspaces_json).
Local Abbreviation dispatch_lines' :=
  (dispatch_lines action_create action_arg_add_str action_is_valid
     actions_run handle_query_views handle_query_views_json
     handle_query_workspaces_json).
Local Abbreviation handle_client_readable' :=
  (handle_client_readable action_create action_arg_add_str action_is_valid
     actions_run handle_query_views handle_query_views_json
     handle_query_workspaces_json).

Lemma rstrip_all p l : Forall (λ c, p c = true) l → rstrip p l = [].
Proof.
  induction 1 as [|c l Hc _ IH]; [done|]. cbn. by rewrite IH, Hc.
Qed.

Lemma dispatch_blank line :
  Forall (λ c, isspace c = true) line → dispatch line = CmdBlank.
Proof.
  intros Hspace. unfold dispatch, string_strip. by rewrite rstrip_all.
Qed.

(** The line loop passes a line feed: the line before it is handled. *)
Lemma dispatch_lines_line st cur line rest :
  x0a ∉ line →
  dispatch_lines' st cur (line ++ x0a :: rest)
  = dispatch_lines' (handle_line' st (cur ++ line)) [] rest.
Proof.
  revert cur. induction line as [|c line IH]; intros cur Hlf; cbn.
  - by rewrite app_nil_r.
  - apply not_elem_of_cons in Hlf as [Hc Hline].
    rewrite decide_False by done. rewrite IH by done.
    by rewrite <- app_assoc.
Qed.

(** Without a line feed the line loop handles nothing. *)
Lemma dispatch_lines_partial st cur tail :
  x0a ∉ tail → dispatch_lines' st cur tail = (st, cur ++ tail).
Proof.
  revert cur. induction tail as [|c tail IH]; intros cur Hlf; cbn.
  - by rewrite app_nil_r.
  - apply not_elem_of_cons in Hlf as [Hc Htail].
    rewrite decide_False by done. rewrite IH by done.
    by rewrite <- app_assoc.
Qed.

Lemma dispatch_lines_complete lines : ∀ st tail,
  Forall (λ line, x0a ∉ line) lines → x0a ∉ tail →
  dispatch_lines' st [] (concat ((λ line, line ++ [x0a]) <$> lines) ++ tail)
  = (handle_lines' st lines, tail).
Proof.
  induction lines as [|line lines IH]; intros st tail Hlines Htail.
  - cbn. by rewrite dispatch_lines_partial.
  - inversion_clear Hlines as [|? ? Hline Hrest].
    rewrite fmap_cons. cbn [concat]. rewrite <- !app_assoc. cbn [app].
    rewrite dispatch_lines_line by done. cbn [app].
    by rewrite IH.
Qed.

(** C10: for every command line that is empty or consists only of
    whitespace, dispatching the line sends no byte to the client, changes
    neither the server nor the client, and, arriving as a line of a
    connection, leaves the connection open. *)
Theorem blank_line_no_effect (s : server) (client : ipc_client)
    (line : list byte) :
  Forall (λ c, isspace c = true) line →
  handle_command' s client line = (s, client, [])
  ∧ (recv_buf client = [] → (x0a ∉ line) → (x00 ∉ line) →
     Z.of_nat (length line) < IPC_MAX_RECV_BUF →
     handle_client_readable' s client (ReadData (line ++ [x0a]))
     = (s, Some client, [])).
Proof.
  intros Hspace.
  assert (handle_command' s client line = (s, client, [])) as Hblank
    by (unfold handle_command; by rewrite dispatch_blank).
  split; [done|]. intros Hbuf Hlf Hnul Hlen.
  unfold handle_client_readable. rewrite Hbuf. cbn [app].
  rewrite c_str_nul_free
    by (rewrite not_elem_of_app, not_elem_of_cons; split_and!;
        [done..|apply not_elem_of_nil]).
  rewrite decide_False by (rewrite length_app; cbn [length]; lia).
  rewrite (dispatch_lines_line _ [] line []) by done.
  cbn [app dispatch_lines]. unfold handle_line. rewrite Hblank.
  destruct client as [sub buf]. cbn in Hbuf. by subst buf.
Qed.

(** C9: a read within the size limit dispatches exactly the complete
    line-feed-delimited lines of the accumulated input, in order and with
    the delimiter removed, and retains the trailing partial line for the
    next read. Feeding a fresh connection the chunks [li] and then
    [st-workspaces\n] executes nothing on the first read and exactly one
    command, [list-workspaces], on the second. *)
Theorem framing_complete_lines (s : server) (client : ipc_client) :
  (∀ (data : list byte) (lines : list (list byte)) (tail : list byte),
     recv_buf client ++ c_str data
     = concat ((λ line, line ++ [x0a]) <$> lines) ++ tail →
     Forall (λ line, x0a ∉ line) lines →
     (x0a ∉ tail) →
     Z.of_nat (length (recv_buf client ++ c_str data)) ≤ IPC_MAX_RECV_BUF →
     handle_client_readable' s client (ReadData data)
     = let '(s', client', out) := handle_lines' (s, client, []) lines in
       (s', Some (set_recv_buf tail client'), out))
  ∧ (recv_buf client = [] →
     handle_client_readable' s client (ReadData (str "li"))
     = (s, Some (set_recv_buf (str "li") client), [])
     ∧ handle_client_readable' s (set_recv_buf (str "li") client)
         (ReadData (str "st-workspaces" ++ [x0a]))
       = (let '(s', client', out) :=
            handle_lines' (s, client, []) [str "list-workspaces"] in
          (s', Some client', out))
     ∧ handle_lines' (s, client, []) [str "list-workspaces"]
       = (s, client, handle_query_workspaces s)).
Proof.
  assert (∀ (cl : ipc_client) data lines tail,
            recv_buf cl ++ c_str data
            = concat ((λ line, line ++ [x0a]) <$> lines) ++ tail →
            Forall (λ line, x0a ∉ line) lines →
            (x0a ∉ tail) →
            Z.of_nat (length (recv_buf cl ++ c_str data))
            ≤ IPC_MAX_RECV_BUF →
            handle_client_readable' s cl (ReadData data)
            = let '(s', client', out) := handle_lines' (s, cl, []) lines in
              (s', Some (set_recv_buf tail client'), out)) as Hframing.
  { intros cl data lines tail Hbuf Hlines Htail Hlen.
    unfold handle_client_readable.
    rewrite decide_False by lia.
    rewrite Hbuf, dispatch_lines_complete by done.
    by destruct (handle_lines' _ _) as [[s' client'] out]. }
  split; [apply Hframing|]. intros Hempty.
  assert (handle_lines' (s, client, []) [str "list-workspaces"]
          = (s, client, handle_query_workspaces s)) as Hone by reflexivity.
  split_and!.
  - rewrite (Hframing client (str "li") [] (str "li")); try done.
    + by rewrite Hempty.
    + by apply (bool_decide_unpack _).
    + rewrite Hempty. by vm_compute.
  - rewrite (Hframing (set_recv_buf (str "li") client)
               (str "st-workspaces" ++ [x0a]) [str "list-workspaces"] []).
    + destruct client as [sub buf]. cbn in Hempty. by subst buf.
    + reflexivity.
    + repeat constructor. by apply (bool_decide_unpack _).
    + apply not_elem_of_nil.
    + by vm_compute.
  - exact Hone.
Qed.

(** C4: if the name argument of a workspace-add or workspace-rename
    command contains a truncated or otherwise invalid escape, the command
    replies with an ERROR line and has no effect at all: the server, with
    its registry, its state file and its broadcast events, and the client
    are as before. *)
Theorem invalid_escape_rejected (s : server) (client : ipc_client)
    (line name : list byte) :
  has_invalid_escape name = true →
  (dispatch line = CmdWorkspaceAdd (Some name)
   ∨ ∃ index, dispatch line = CmdWorkspaceRename (Some name) index) →
  ∃ reply,
    handle_command' s client line = (s, client, reply)
    ∧ (reply = str "ERROR invalid percent-encoding in name" ++ [x0a]
       ∨ reply
         = str "ERROR usage: workspace-rename index=N name=..." ++ [x0a]).
Proof.
  intros Hbad Hcmd.
  assert (name ≠ []) as Hname by (by intros ->).
  pose proof (invalid_escape_decode_fails name Hbad) as Hdecode.
  unfold handle_command. destruct Hcmd as [->|[index ->]].
  - change (default [] (Some name)) with name.
    rewrite bool_decide_false, Hdecode by done.
    eexists. split; [done|by left].
  - change (default [] (Some name)) with name.
    rewrite (bool_decide_false _ Hname).
    destruct (index <? 1); cbn [orb].
    + eexists. split; [done|by right].
    + rewrite Hdecode. eexists. split; [done|by left].
Qed.

(** At the command level too, remove is rejected at size 1 without any
    effect. *)
Lemma remove_command_rejected_at_size_1 s client line index :
  dispatch line = CmdWorkspaceRemove index →
  length (workspaces_all s) = 1%nat →
  ∃ reply,
    handle_command' s client line = (s, client, reply)
    ∧ (reply = str "ERROR usage: workspace-remove index=N" ++ [x0a]
       ∨ reply = str "ERROR failed to remove workspace" ++ [x0a]).
Proof.
  intros Hcmd Hlen. unfold handle_command. rewrite Hcmd.
  destruct (index <? 1); [eexists; split; [done|by left]|].
  rewrite remove_rejected_at_size_1 by lia.
  eexists. split; [done|by right].
Qed.

Lemma fmt_d_not_empty z : fmt_d z ≠ [].
Proof.
  unfold fmt_d. destruct (Z.to_int z) as [d|d]; [by destruct d|done].
Qed.

Lemma add_named_effect name s :
  name ≠ [] →
  let s' := (workspaces_add_named name s).1 in
  (workspaces_add_named name s).2 = true
  ∧ workspaces_all s'
    = workspaces_all s ++ [Workspace (next_ws s) name false false false]
  ∧ state_file s'
    = (if fs_ok s
       then Some (concat ((λ n, n ++ [x0a]) <$> ws_names s)
                  ++ name ++ [x0a])
       else state_file s)
  ∧ fs_writes s' = (if fs_ok s then S (fs_writes s) else fs_writes s)
  ∧ ipc_events s'
    = ipc_events s
      ++ [str "EVENT workspace-list-changed current="
          ++ fmt_d (workspace_index s' (Some (workspaces_current s)))
          ++ str " count="
          ++ fmt_d (Z.of_nat (S (length (workspaces_all s)))) ++ [x0a]].
Proof.
  intros Hname. unfold workspaces_add_named.
  rewrite bool_decide_false by done. cbn [fst snd].
  set (s1 := add_workspace name s).
  assert (ws_names s1 = ws_names s ++ [name]) as Hnames
    by (unfold ws_names; cbn; by rewrite fmap_app).
  assert (workspaces_all (workspace_state_persist s1)
          = workspaces_all s
            ++ [Workspace (next_ws s) name false false false]) as Hall
    by by rewrite all_persist.
  unfold ipc_notify_workspace_list_changed, ipc_broadcast_event.
  split_and!.
  - done.
  - done.
  - cbn [state_file set_ipc_events]. unfold workspace_state_persist.
    change (fs_ok s1) with (fs_ok s).
    destruct (fs_ok s); [|done].
    cbn [state_file write_state_file]. unfold serialize_names.
    rewrite Hnames, fmap_app, concat_app. cbn [fmap list_fmap concat].
    by rewrite app_nil_r.
  - cbn [fs_writes set_ipc_events]. unfold workspace_state_persist.
    change (fs_ok s1) with (fs_ok s). by destruct (fs_ok s).
  - cbn [ipc_events set_ipc_events]. unfold workspace_list_changed_event.
    assert (ipc_events (workspace_state_persist s1) = ipc_events s) as ->
      by (unfold workspace_state_persist; change (fs_ok s1) with (fs_ok s);
          by destruct (fs_ok s)).
    assert (workspaces_current (workspace_state_persist s1)
            = workspaces_current s) as ->
      by (unfold workspace_state_persist; change (fs_ok s1) with (fs_ok s);
          by destruct (fs_ok s)).
    rewrite Hall, length_app, Nat.add_1_r. cbn [length].
    unfold workspace_index, ws_position. cbn [workspaces_all set_ipc_events].
    rewrite Hall. cbn [app]. by rewrite <- !app_assoc.
Qed.

(** C8: a workspace-add command with an empty or absent name adds a
    workspace named the decimal representation of the previous size plus
    one and replies OK; every successful add puts the workspace at the end
    of the registry, persists the name list (the state file, when it can
    be written, holds every name followed by a line feed, the new name
    last) and broadcasts one event, the line
    [EVENT workspace-list-changed current=<position of current> count=<new
    size>]; a synthesized name is not checked against the names in the
    registry, so that add, add, remove 1, add from the initial registry
    gives two workspaces named [3]. *)
Theorem add_synthesizes_name (s : server) (client : ipc_client) :
  (∀ line,
     dispatch line = CmdWorkspaceAdd None
     ∨ dispatch line = CmdWorkspaceAdd (Some []) →
     handle_command' s client line
     = ((workspaces_add_named
           (fmt_d (Z.of_nat (length (workspaces_all s)) + 1)) s).1,
        client, str "OK" ++ [x0a]))
  ∧ (∀ name, name = fmt_d (Z.of_nat (length (workspaces_all s)) + 1)
             ∨ name ≠ [] →
       let s' := (workspaces_add_named name s).1 in
       (workspaces_add_named name s).2 = true
       ∧ workspaces_all s'
         = workspaces_all s ++ [Workspace (next_ws s) name false false false]
       ∧ state_file s'
         = (if fs_ok s
            then Some (concat ((λ n, n ++ [x0a]) <$> ws_names s)
                       ++ name ++ [x0a])
            else state_file s)
       ∧ fs_writes s' = (if fs_ok s then S (fs_writes s) else fs_writes s)
       ∧ ipc_events s'
         = ipc_events s
           ++ [str "EVENT workspace-list-changed current="
               ++ fmt_d (workspace_index s' (Some (workspaces_current s)))
               ++ str " count="
               ++ fmt_d (Z.of_nat (S (length (workspaces_all s))))
               ++ [x0a]])
  ∧ ws_names
      (handle_lines' (workspaces_init registry_ABC, client, [])
         [str "workspace-add"; str "workspace-add";
          str "workspace-remove index=1"; str "workspace-add name="]).1.1
    = [str "2"; str "3"; str "3"].
Proof.
  split_and!.
  - intros line Hcmd. unfold handle_command.
    pose proof (fmt_d_not_empty (Z.of_nat (length (workspaces_all s)) + 1))
      as Hname.
    destruct (add_named_effect _ s Hname) as [Hok _].
    destruct Hcmd as [-> | ->]; cbn [from_option];
      rewrite bool_decide_true by done;
      by destruct (workspaces_add_named _ s) as [s' []].
  - intros name [-> | Hname]; apply add_named_effect;
      [apply fmt_d_not_empty|done].
  - reflexivity.
Qed.

End IpcProperties.

Lemma blank_line_no_effect_witness :
  example_handle_command registry_ABC fresh_client [x20; x09; x0d]
  = (registry_ABC, fresh_client, [])
  ∧ example_handle_client_readable registry_ABC fresh_client
      (ReadData ([x20; x09; x0d] ++ [x0a]))
    = (registry_ABC, Some fresh_client, []).
Proof.
  destruct (blank_line_no_effect no_action_create no_action_arg_add_str
              no_action_is_valid no_actions_run no_payload no_payload
              no_payload registry_ABC fresh_client [x20; x09; x0d])
    as [Hcmd Hconn].
  - by repeat constructor.
  - split; [exact Hcmd|]. apply Hconn.
    + reflexivity.
    + by apply (bool_decide_unpack _).
    + by apply (bool_decide_unpack _).
    + by vm_compute.
Defined.

Lemma framing_complete_lines_witness :
  example_handle_client_readable registry_ABC
    (IpcClient false (str "pi")) (ReadData (str "ng" ++ [x0a; x0a] ++ str "li"))
  = (registry_ABC, Some (IpcClient false (str "li")), str "OK" ++ [x0a]).
Proof.
  destruct (framing_complete_lines no_action_create no_action_arg_add_str
              no_action_is_valid no_actions_run no_payload no_payload
              no_payload registry_ABC (IpcClient false (str "pi")))
    as [Hframing _].
  apply (Hframing (str "ng" ++ [x0a; x0a] ++ str "li") [str "ping"; []]
           (str "li")).
  - reflexivity.
  - repeat constructor; by apply (bool_decide_unpack _).
  - by apply (bool_decide_unpack _).
  - by vm_compute.
Defined.

Lemma invalid_escape_rejected_witness :
  (∃ reply,
     example_handle_command registry_ABC fresh_client
       (str "workspace-add name=web%2")
     = (registry_ABC, fresh_client, reply)
     ∧ (reply = str "ERROR invalid percent-encoding in name" ++ [x0a]
        ∨ reply
          = str "ERROR usage: workspace-rename index=N name=..." ++ [x0a]))
  ∧ (∃ reply,
       example_handle_command registry_ABC fresh_client
         (str "workspace-rename index=1 name=%zz")
       = (registry_ABC, fresh_client, reply)
       ∧ (reply = str "ERROR invalid percent-encoding in name" ++ [x0a]
          ∨ reply
            = str "ERROR usage: workspace-rename index=N name=..." ++ [x0a])).
Proof.
  split.
  - apply (invalid_escape_rejected no_action_create no_action_arg_add_str
             no_action_is_valid no_actions_run no_payload no_payload
             no_payload registry_ABC fresh_client
             (str "workspace-add name=web%2") (str "web%2")).
    + reflexivity.
    + left. reflexivity.
  - apply (invalid_escape_rejected no_action_create no_action_arg_add_str
             no_action_is_valid no_actions_run no_payload no_payload
             no_payload registry_ABC fresh_client
             (str "workspace-rename index=1 name=%zz") (str "%zz")).
    + reflexivity.
    + right. exists 1. reflexivity.
Defined.

Lemma add_synthesizes_name_witness :
  example_handle_command registry_ABC fresh_client (str "workspace-add")
  = ((workspaces_add_named (str "4") registry_ABC).1, fresh_client,
     str "OK" ++ [x0a])
  ∧ example_handle_command registry_ABC fresh_client
      (str "Workspace-Add name=")
    = ((workspaces_add_named (str "4") registry_ABC).1, fresh_client,
       str "OK" ++ [x0a])
  ∧ ws_names (workspaces_add_named (str "web docs") registry_ABC).1
    = [str "A"; str "B"; str "C"; str "web docs"]
  ∧ state_file (workspaces_add_named (str "web docs") registry_ABC).1
    = Some (str "A" ++ [x0a] ++ str "B" ++ [x0a] ++ str "C" ++ [x0a]
            ++ str "web docs" ++ [x0a])
  ∧ ipc_events (workspaces_add_named (str "web docs") registry_ABC).1
    = [str "EVENT workspace-list-changed current=2 count=4" ++ [x0a]].
Proof.
  destruct (add_synthesizes_name no_action_create no_action_arg_add_str
              no_action_is_valid no_actions_run no_payload no_payload
              no_payload registry_ABC fresh_client) as (Hcmd & Hadd & _).
  destruct (Hadd (str "web docs")) as (_ & Hall & Hfile & _ & Hev);
    [by right|].
  split_and!.
  - apply (Hcmd (str "workspace-add")). left. reflexivity.
  - apply (Hcmd (str "Workspace-Add name=")). right. reflexivity.
  - unfold ws_names. by rewrite Hall.
  - by rewrite Hfile.
  - rewrite Hev. reflexivity.
Defined.

Section DispatchProperties.

Lemma lstrip_head p l c rest : lstrip p l = c :: rest → p c = false.
Proof.
  induction l as [|d l IH]; [done|]. cbn.
  destruct (p d) eqn:Hd; [done|]. by intros [= <- _].
Qed.

Lemma delim_is_space c : is_delim c = true → isspace c = true.
Proof. by destruct c. Qed.

(** The first piece of a split is a prefix of the string, and it is not
    empty when the string does not start with a separator. *)
Lemma split_on_prefix p l :
  ∃ t ts r,
    split_on p l = t :: ts ∧ l = t ++ r
    ∧ (∀ c rest, l = c :: rest → p c = false → t ≠ []).
Proof.
  induction l as [|c l (t & ts & r & Hsplit & Hl & _)]; cbn.
  - by exists [], [], [].
  - destruct (p c) eqn:Hc.
    + exists [], (split_on p l), (c :: l). split_and!; [done..|].
      intros ? ? [= <- _]. congruence.
    + rewrite Hsplit. exists (c :: t), ts, r.
      split_and!; [|by rewrite Hl|]; done.
Qed.

(** The first token of a stripped line is the start of the line. *)
Lemma first_token_prefix line tok :
  head (strtok_all (string_strip line)) = Some tok →
  tok ≠ [] ∧ take (length tok) (string_strip line) = tok.
Proof.
  unfold strtok_all. intros Htok.
  destruct (string_strip line) as [|c rest] eqn:Hline; [done|].
  assert (is_delim c = false) as Hc.
  { apply not_true_is_false. intros Hd%delim_is_space.
    apply lstrip_head in Hline. congruence. }
  destruct (split_on_prefix is_delim (c :: rest))
    as (t & ts & r & Hsplit & Hl & Hne).
  specialize (Hne c rest eq_refl Hc).
  rewrite Hsplit, filter_cons_True in Htok by done.
  injection Htok as <-. split; [done|].
  by rewrite Hl, take_app_length.
Qed.

Lemma strcaseeq_head a b :
  strcaseeq a b = true → tolower <$> head a = tolower <$> head b.
Proof.
  intros Heq%bool_decide_eq_true.
  destruct a as [|x a], b as [|y b]; try done.
  rewrite !fmap_cons in Heq. injection Heq as Hxy _.
  change (Some (tolower x) = Some (tolower y)). by rewrite Hxy.
Qed.

Lemma strcaseeq_take k a b :
  strcaseeq a b = true → strcaseeq (take k a) (take k b) = true.
Proof.
  intros Heq%bool_decide_eq_true. apply bool_decide_eq_true.
  by rewrite !fmap_take, Heq.
Qed.

Lemma strcaseeq_length a b : strcaseeq a b = true → length a = length b.
Proof.
  intros Heq%bool_decide_eq_true.
  by rewrite <- (length_fmap tolower a), Heq, length_fmap.
Qed.

Lemma strcaseeq_trans a b c :
  strcaseeq a b = true → strcaseeq b c = strcaseeq a c.
Proof.
  intros Heq%bool_decide_eq_true. unfold strcaseeq. by rewrite Heq.
Qed.

(** A line whose first token is a command name, letter case ignored,
    starts with that name. *)
Lemma first_token_strncaseeq line tok cmd pre :
  head (strtok_all (string_strip line)) = Some tok →
  strcaseeq tok cmd = true →
  (length pre ≤ length cmd)%nat →
  strncaseeq (string_strip line) pre = strcaseeq (take (length pre) cmd) pre.
Proof.
  intros [_ Htok]%first_token_prefix Hcmd Hlen.
  unfold strncaseeq.
  pose proof (strcaseeq_length _ _ Hcmd) as Hlentok.
  replace (take (length pre) (string_strip line))
    with (take (length pre) tok).
  - symmetry. apply strcaseeq_trans. by apply strcaseeq_take.
  - rewrite <- Htok at 1. rewrite take_take. f_equal. lia.
Qed.

Lemma first_token_strcaseeq line tok cmd query :
  head (strtok_all (string_strip line)) = Some tok →
  strcaseeq tok cmd = true →
  tolower <$> head cmd ≠ tolower <$> head query →
  strcaseeq (string_strip line) query = false.
Proof.
  intros [Hne Htok]%first_token_prefix Hcmd Hhead.
  apply not_true_is_false. intros Heq%strcaseeq_head.
  apply strcaseeq_head in Hcmd. apply Hhead.
  rewrite <- Hcmd, <- Heq, <- Htok.
  destruct tok as [|c tok]; [done|].
  by destruct (string_strip line).
Qed.

(** The half of C6 that the code has: a line whose first token is the name
    of a workspace command, letter case ignored, is handled as that
    command. *)
Lemma dispatch_first_token line tok :
  head (strtok_all (string_strip line)) = Some tok →
  (strcaseeq tok (str "workspace-add") = true →
   ∃ name, dispatch line = CmdWorkspaceAdd name)
  ∧ (strcaseeq tok (str "workspace-rename") = true →
     ∃ name index, dispatch line = CmdWorkspaceRename name index)
  ∧ (strcaseeq tok (str "workspace-remove") = true →
     ∃ index, dispatch line = CmdWorkspaceRemove index).
Proof.
  intros Htok.
  assert (string_strip line ≠ []) as Hline
    by (intros Hnil; by rewrite Hnil in Htok).
  assert (∀ cmd query,
            strcaseeq tok cmd = true →
            tolower <$> head cmd = Some x77 →
            tolower <$> head query ≠ Some x77 →
            strcaseeq (string_strip line) query = false) as Hquery.
  { intros cmd query Hcmd Hw Hq.
    apply (first_token_strcaseeq line tok cmd); [done..|]. by rewrite Hw. }
  assert (∀ cmd, strcaseeq tok cmd = true →
                 tolower <$> head cmd = Some x77 →
                 ∃ rest,
                   dispatch line
                   = (if strncaseeq (string_strip line) (str "workspace-add")
                      then CmdWorkspaceAdd (foldl add_arg None rest)
                      else if strncaseeq (string_strip line)
                                (str "workspace-rename")
                      then CmdWorkspaceRename
                             (foldl rename_arg (None, 0) rest).1
                             (foldl rename_arg (None, 0) rest).2
                      else if strncaseeq (string_strip line)
                                (str "workspace-remove")
                      then CmdWorkspaceRemove (foldl remove_arg 0 rest)
                      else CmdAction (strtok_all (string_strip line))))
    as Hworkspace.
  { intros cmd Hcmd Hw. exists (tail (strtok_all (string_strip line))).
    unfold dispatch. rewrite (bool_decide_false _ Hline).
    rewrite (Hquery cmd (str "ping") Hcmd Hw) by by vm_compute.
    rewrite (Hquery cmd (str "subscribe-events") Hcmd Hw) by by vm_compute.
    rewrite (Hquery cmd (str "list-views") Hcmd Hw) by by vm_compute.
    rewrite (Hquery cmd (str "list-views-json") Hcmd Hw) by by vm_compute.
    rewrite (Hquery cmd (str "list-workspaces") Hcmd Hw) by by vm_compute.
    by rewrite (Hquery cmd (str "list-workspaces-json") Hcmd Hw)
      by by vm_compute. }
  split_and!; intros Hcmd;
    destruct (Hworkspace _ Hcmd eq_refl) as [rest ->];
    rewrite ?(first_token_strncaseeq line tok _ (str "workspace-add")
                Htok Hcmd) by (vm_compute; lia);
    rewrite ?(first_token_strncaseeq line tok _ (str "workspace-rename")
                Htok Hcmd) by (vm_compute; lia);
    rewrite ?(first_token_strncaseeq line tok _ (str "workspace-remove")
                Htok Hcmd) by (vm_compute; lia).
  - by eexists.
  - by do 2 eexists.
  - by eexists.
Qed.

End DispatchProperties.

(** C6 fails on the code at the line [workspace-address name=x]: its first
    token is [workspace-address], which is not [workspace-add], yet the
    line is handled as workspace-add, because the three workspace commands
    are recognised by a comparison of the first bytes of the line and not
    of its first token. The line adds a workspace named [x] and is
    answered OK. *)
Theorem workspace_command_prefix_match :
  let line := str "workspace-address name=x" in
  head (strtok_all (string_strip line)) = Some (str "workspace-address")
  ∧ strcaseeq (str "workspace-address") (str "workspace-add") = false
  ∧ dispatch line = CmdWorkspaceAdd (Some (str "x"))
  ∧ example_handle_command registry_ABC fresh_client line
    = ((workspaces_add_named (str "x") registry_ABC).1, fresh_client,
       str "OK" ++ [x0a])
  ∧ ws_names (example_handle_command registry_ABC fresh_client line).1.1
    = [str "A"; str "B"; str "C"; str "x"].
Proof. by split_and!. Qed.

Section InvariantProperties.

Lemma persist_registry s :
  workspaces_all (workspace_state_persist s) = workspaces_all s
  ∧ workspaces_current (workspace_state_persist s) = workspaces_current s
  ∧ workspaces_last (workspace_state_persist s) = workspaces_last s
  ∧ next_ws (workspace_state_persist s) = next_ws s
  ∧ views (workspace_state_persist s) = views s.
Proof. unfold workspace_state_persist. by destruct (fs_ok s). Qed.

Lemma registry_wf_same s s' :
  ws_id <$> workspaces_all s' = ws_id <$> workspaces_all s →
  next_ws s' = next_ws s →
  workspaces_current s' = workspaces_current s →
  workspaces_last s' = workspaces_last s →
  registry_wf s → registry_wf s'.
Proof.
  intros Hids Hnext Hcur Hlast [? ? ? ?].
  split; rewrite ?Hids, ?Hnext, ?Hcur, ?Hlast; done.
Qed.

Lemma visuals_ok_same s s' :
  workspaces_all s' = workspaces_all s →
  workspaces_current s' = workspaces_current s →
  visuals_ok s → visuals_ok s'.
Proof. unfold visuals_ok. intros -> ->. done. Qed.

Lemma registry_wf_persist s :
  registry_wf s → registry_wf (workspace_state_persist s).
Proof.
  destruct (persist_registry s) as (Hall & Hcur & Hlast & Hnext & _).
  apply registry_wf_same; by rewrite ?Hall.
Qed.

Lemma visuals_ok_persist s :
  visuals_ok s → visuals_ok (workspace_state_persist s).
Proof.
  destruct (persist_registry s) as (Hall & Hcur & _).
  by apply visuals_ok_same.
Qed.

Lemma switch_to_registry target uf s :
  target ≠ workspaces_current s →
  workspaces_current (workspaces_switch_to target uf s) = target
  ∧ workspaces_last (workspaces_switch_to target uf s)
    = Some (workspaces_current s)
  ∧ next_ws (workspaces_switch_to target uf s) = next_ws s.
Proof.
  intros Hne. unfold workspaces_switch_to. rewrite decide_False by done.
  cbn. by destruct (grabbed_view s).
Qed.

Lemma registry_wf_switch_to target uf s :
  target ∈ ws_id <$> workspaces_all s →
  registry_wf s → registry_wf (workspaces_switch_to target uf s).
Proof.
  intros Htarget Hwf.
  destruct (decide (target = workspaces_current s)) as [Heq|Hne].
  { unfold workspaces_switch_to. by rewrite decide_True. }
  destruct (switch_to_registry target uf s Hne) as (Hcur & Hlast & Hnext).
  destruct Hwf as [Hdup Hfresh Hmem Hlastmem].
  split; rewrite ?ids_switch_to, ?Hnext, ?Hcur; try done.
  intros id. rewrite Hlast. by intros [= <-].
Qed.

Lemma visuals_ok_switch_to target uf s :
  visuals_ok s → visuals_ok (workspaces_switch_to target uf s).
Proof.
  intros Hvis.
  destruct (decide (target = workspaces_current s)) as [Heq|Hne].
  { unfold workspaces_switch_to. by rewrite decide_True. }
  intros w' Hw'.
  destruct (switch_to_registry target uf s Hne) as (-> & _).
  revert Hw'. unfold workspaces_switch_to. rewrite decide_False by done.
  cbn. destruct (grabbed_view s); cbn;
    rewrite <- !list_fmap_compose;
    intros (w & -> & Hw)%list_elem_of_fmap;
    destruct (Hvis w Hw) as (Htree & Hcosmic & Hext);
    destruct w as [id name tree cosmic ext]; cbn in *;
    repeat (case_decide; cbn in * );
    repeat case_bool_decide; by simplify_eq.
Qed.

End InvariantProperties.

Section InvariantProperties2.

Lemma persist_notify_registry s :
  let s' := ipc_notify_workspace_list_changed (workspace_state_persist s) in
  workspaces_all s' = workspaces_all s
  ∧ workspaces_current s' = workspaces_current s
  ∧ workspaces_last s' = workspaces_last s
  ∧ next_ws s' = next_ws s
  ∧ views s' = views s.
Proof. exact (persist_registry s). Qed.

Lemma registry_wf_add name s :
  registry_wf s → registry_wf (workspaces_add_named name s).1.
Proof.
  intros Hwf. unfold workspaces_add_named. case_bool_decide; [done|].
  cbn [fst].
  destruct (persist_notify_registry (add_workspace name s))
    as (Hall & Hcur & Hlast & Hnext & _).
  apply (registry_wf_same (add_workspace name s)); [by rewrite Hall|done..|].
  destruct Hwf as [Hdup Hfresh Hmem Hlastmem].
  assert (ws_id <$> workspaces_all (add_workspace name s)
          = (ws_id <$> workspaces_all s) ++ [next_ws s]) as Hids
    by (cbn; by rewrite fmap_app).
  split; rewrite Hids.
  - apply list.NoDup_app. split_and!; [done| |apply NoDup_singleton].
    intros id Hid%Hfresh ->%list_elem_of_singleton. lia.
  - intros id [Hid%Hfresh| ->%list_elem_of_singleton]%elem_of_app; cbn; lia.
  - apply elem_of_app. by left.
  - intros id Hid. apply elem_of_app. left. by apply Hlastmem.
Qed.

Lemma visuals_ok_add name s :
  registry_wf s → visuals_ok s → visuals_ok (workspaces_add_named name s).1.
Proof.
  intros Hwf Hvis. unfold workspaces_add_named. case_bool_decide; [done|].
  cbn [fst].
  destruct (persist_notify_registry (add_workspace name s))
    as (Hall & Hcur & _).
  apply (visuals_ok_same (add_workspace name s)); [done..|].
  intros w [Hw| ->%list_elem_of_singleton]%elem_of_app; [by apply Hvis|].
  cbn. rewrite bool_decide_false; [done|].
  intros Heq. pose proof (wf_fresh s Hwf _ (wf_current s Hwf)). lia.
Qed.

Lemma rename_registry index name s :
  ws_id <$> workspaces_all (workspaces_rename_index index name s).1
  = ws_id <$> workspaces_all s
  ∧ next_ws (workspaces_rename_index index name s).1 = next_ws s
  ∧ workspaces_current (workspaces_rename_index index name s).1
    = workspaces_current s
  ∧ workspaces_last (workspaces_rename_index index name s).1
    = workspaces_last s.
Proof.
  unfold workspaces_rename_index. case_bool_decide; [done|].
  destruct (workspace_by_index s index) as [[i w]|]; [|done].
  destruct (negb _); [|done]. cbn [fst].
  set (s1 := set_all _ s).
  destruct (persist_notify_registry s1) as (Hall & Hcur & Hlast & Hnext & _).
  rewrite Hall, Hcur, Hlast, Hnext. split_and!; try done.
  subst s1. cbn.
  rewrite (list_fmap_alter ws_id (set_name name) id)
    by (apply list.Forall_forall; by intros []).
  by rewrite list_alter_id.
Qed.

Lemma visuals_ok_rename index name s :
  visuals_ok s → visuals_ok (workspaces_rename_index index name s).1.
Proof.
  intros Hvis. unfold workspaces_rename_index. case_bool_decide; [done|].
  destruct (workspace_by_index s index) as [[i w]|]; [|done].
  destruct (negb _); [|done]. cbn [fst].
  set (s1 := set_all _ s).
  destruct (persist_notify_registry s1) as (Hall & Hcur & _).
  apply (visuals_ok_same s1); [done..|].
  subst s1. unfold visuals_ok in *. cbn.
  apply list.Forall_forall, Forall_alter; [by apply list.Forall_forall|].
  by intros [].
Qed.

End InvariantProperties2.

Section InvariantProperties3.

Lemma registry_wf_rename index name s :
  registry_wf s → registry_wf (workspaces_rename_index index name s).1.
Proof.
  destruct (rename_registry index name s) as (Hids & Hnext & Hcur & Hlast).
  by apply registry_wf_same.
Qed.

Lemma remove_rejected index s s' :
  workspaces_remove_index index s = (s', false) → s' = s.
Proof.
  unfold workspaces_remove_index. case_decide; [by intros [= <-]|].
  destruct (workspace_by_index s index) as [[i w]|]; [|by intros [= <-]].
  destruct (_ : option workspace) as [fb|]; [|by intros [= <-]].
  case_decide; [by intros [= <-]|done].
Qed.

(** The registry after a successful remove of the workspace [w] at
    position [i] with the fallback [fb]. *)
Lemma remove_registry index s s' :
  workspaces_remove_index index s = (s', true) →
  ∃ i w fb,
    workspace_by_index s index = Some (i, w)
    ∧ fb ∈ workspaces_all s
    ∧ ws_id fb ≠ ws_id w
    ∧ (match workspaces_all s !! S i with
       | Some next => Some next
       | None => head (workspaces_all s)
       end = Some fb)
    ∧ s' = ipc_notify_workspace_list_changed
             (workspace_state_persist
                (destroy_workspace i
                   (let s1 :=
                      set_views
                        ((λ v, if decide (view_workspace v = ws_id w)
                               then view_move_to_workspace (ws_id fb) v
                               else v) <$> views s) s in
                    let s2 :=
                      if decide (workspaces_current s1 = ws_id w)
                      then workspaces_switch_to (ws_id fb) true s1 else s1 in
                    if decide (workspaces_last s2 = Some (ws_id w))
                    then set_last (Some (ws_id fb)) s2 else s2))).
Proof.
  unfold workspaces_remove_index. case_decide; [done|].
  destruct (workspace_by_index s index) as [[i w]|]; [|done].
  destruct (_ : option workspace) as [fb|] eqn:Hfb; [|done].
  case_decide; [done|]. intros [= <-].
  exists i, w, fb. split_and!; try done.
  destruct (workspaces_all s !! S i) eqn:Hnext.
  - injection Hfb as ->. by eapply list_elem_of_lookup_2.
  - by apply head_Some_elem_of.
Qed.

Lemma elem_of_delete_ne (l : list nat) i x y :
  l !! i = Some y → x ∈ l → x ≠ y → x ∈ delete i l.
Proof.
  intros Hi (j & Hj)%list_elem_of_lookup_1 Hne.
  destruct (decide (j < i)%nat).
  - apply (list_elem_of_lookup_2 _ j). by rewrite list_lookup_delete_lt.
  - assert (j ≠ i) by congruence.
    apply (list_elem_of_lookup_2 _ (j - 1)).
    rewrite list_lookup_delete_ge by lia. rewrite <- Hj. f_equal. lia.
Qed.

Lemma workspace_by_index_lookup s index i w :
  workspace_by_index s index = Some (i, w) →
  workspaces_all s !! i = Some w ∧ index = Z.of_nat (S i).
Proof.
  unfold workspace_by_index. destruct (index <? 1) eqn:Hlt; [done|].
  destruct (workspaces_all s !! _) eqn:Hw; [|done].
  intros [= <- <-]. split; [done|]. apply Z.ltb_ge in Hlt. lia.
Qed.

Lemma registry_wf_remove index s :
  registry_wf s → registry_wf (workspaces_remove_index index s).1.
Proof.
  intros Hwf.
  destruct (workspaces_remove_index index s) as [s' []] eqn:Hrm;
    [|by rewrite (remove_rejected _ _ _ Hrm)].
  apply remove_registry in Hrm as (i & w & fb & Hidx & Hfb & Hne & _ & ->).
  apply workspace_by_index_lookup in Hidx as [Hw _]. cbn [fst].
  set (s1 := set_views _ s).
  assert (registry_wf s1) as Hwf1 by by apply (registry_wf_same s).
  assert (ws_id fb ∈ ws_id <$> workspaces_all s1) as Hfbid
    by by apply list_elem_of_fmap_2.
  assert ((ws_id <$> workspaces_all s1) !! i = Some (ws_id w)) as Hwid
    by (rewrite list_lookup_fmap; cbn; by rewrite Hw).
  cbv zeta.
  set (s2 := if decide (workspaces_current s1 = ws_id w) then _ else s1).
  assert (registry_wf s2
          ∧ ws_id <$> workspaces_all s2 = ws_id <$> workspaces_all s1
          ∧ workspaces_current s2 ≠ ws_id w) as (Hwf2 & Hids2 & Hcur2).
  { subst s2. case_decide as Hcur; [|done].
    destruct (switch_to_registry (ws_id fb) true s1) as (-> & _);
      [congruence|].
    split_and!; [by apply registry_wf_switch_to|apply ids_switch_to|done]. }
  set (s3 := if decide (workspaces_last s2 = Some (ws_id w)) then _ else s2).
  assert (registry_wf s3
          ∧ ws_id <$> workspaces_all s3 = ws_id <$> workspaces_all s1
          ∧ workspaces_current s3 ≠ ws_id w
          ∧ workspaces_last s3 ≠ Some (ws_id w))
    as (Hwf3 & Hids3 & Hcur3 & Hlast3).
  { subst s3. case_decide as Hlast; [|done].
    split_and!; [|done..|cbn; congruence].
    destruct Hwf2 as [? ? ? ?]. split; try done.
    cbn. intros id [= <-]. by rewrite Hids2. }
  destruct (persist_notify_registry (destroy_workspace i s3))
    as (Hall & Hcur & Hlast & Hnext & _).
  apply (registry_wf_same (destroy_workspace i s3)); [by rewrite Hall|done..|].
  destruct Hwf3 as [Hdup Hfresh Hmem Hlastmem].
  assert (ws_id <$> workspaces_all (destroy_workspace i s3)
          = delete i (ws_id <$> workspaces_all s3)) as Hids
    by (cbn; by rewrite list_fmap_delete).
  rewrite Hids3 in *.
  split; rewrite Hids.
  - by eapply sublist_NoDup, sublist_delete.
  - intros id Hid%list_elem_of_delete_inv. by apply Hfresh.
  - by apply (elem_of_delete_ne _ _ _ (ws_id w)).
  - intros id Hid. apply (elem_of_delete_ne _ _ _ (ws_id w)); [done| |].
    + by apply Hlastmem.
    + intros ->. by apply Hlast3.
Qed.

Lemma visuals_ok_remove index s :
  visuals_ok s → visuals_ok (workspaces_remove_index index s).1.
Proof.
  intros Hvis.
  destruct (workspaces_remove_index index s) as [s' []] eqn:Hrm;
    [|by rewrite (remove_rejected _ _ _ Hrm)].
  apply remove_registry in Hrm as (i & w & fb & _ & _ & _ & _ & ->).
  cbn [fst]. set (s1 := set_views _ s). cbv zeta.
  assert (visuals_ok s1) as Hvis1 by done.
  set (s2 := if decide (workspaces_current s1 = ws_id w) then _ else s1).
  assert (visuals_ok s2) as Hvis2
    by (subst s2; case_decide; [by apply visuals_ok_switch_to|done]).
  set (s3 := if decide (workspaces_last s2 = Some (ws_id w)) then _ else s2).
  assert (visuals_ok s3) as Hvis3 by (subst s3; by case_decide).
  destruct (persist_notify_registry (destroy_workspace i s3))
    as (Hall & Hcur & _).
  apply (visuals_ok_same (destroy_workspace i s3)); [done..|].
  unfold visuals_ok in *. cbn.
  apply list.Forall_forall, Forall_delete. by apply list.Forall_forall.
Qed.

Lemma init_registry s0 :
  workspaces_all (workspaces_init s0)
  = [Workspace (next_ws s0) (str "1") true true true]
  ∧ workspaces_current (workspaces_init s0) = next_ws s0
  ∧ workspaces_last (workspaces_init s0) = workspaces_last s0
  ∧ next_ws (workspaces_init s0) = S (next_ws s0).
Proof.
  unfold workspaces_init. cbn.
  set (s1 := update_ws _ _ _).
  destruct (persist_registry s1) as (-> & -> & -> & -> & _).
  subst s1. cbn. by rewrite !decide_True by (cbn; by rewrite ?decide_True).
Qed.

Lemma registry_wf_init s0 :
  workspaces_last s0 = None → registry_wf (workspaces_init s0).
Proof.
  intros Hlast.
  destruct (init_registry s0) as (Hall & Hcur & Hlast' & Hnext).
  split; rewrite ?Hall, ?Hcur, ?Hlast', ?Hnext; cbn.
  - apply NoDup_singleton.
  - intros id ->%list_elem_of_singleton. lia.
  - by apply list_elem_of_singleton.
  - by rewrite Hlast.
Qed.

Lemma visuals_ok_init s0 : visuals_ok (workspaces_init s0).
Proof.
  destruct (init_registry s0) as (Hall & Hcur & _).
  intros w. rewrite Hall, Hcur. intros ->%list_elem_of_singleton.
  cbn. by rewrite bool_decide_true.
Qed.

Lemma invariants_apply_ops ops : ∀ s,
  registry_wf s → visuals_ok s →
  registry_wf (apply_ops ops s) ∧ visuals_ok (apply_ops ops s).
Proof.
  unfold apply_ops.
  induction ops as [|op ops IH]; intros s Hwf Hvis; [done|].
  cbn [foldl]. destruct op as [name|index name|index]; cbn [apply_op].
  - apply IH; [by apply registry_wf_add|by apply visuals_ok_add].
  - apply IH; [by apply registry_wf_rename|by apply visuals_ok_rename].
  - apply IH; [by apply registry_wf_remove|by apply visuals_ok_remove].
Qed.

End InvariantProperties3.

(** X1: starting from [workspaces_init] on a fresh server, after every
    sequence of add/rename/remove operations the workspaces are distinct
    objects, [current] is a member of the registry, and [last] is a member
    of the registry or [NULL]: no operation leaves a pointer to a destroyed
    workspace behind. *)
Theorem registry_pointers_sound (s0 : server) (ops : list registry_op) :
  workspaces_last s0 = None →
  let s := apply_ops ops (workspaces_init s0) in
  NoDup (ws_id <$> workspaces_all s)
  ∧ workspaces_current s ∈ ws_id <$> workspaces_all s
  ∧ (∀ id, workspaces_last s = Some id → id ∈ ws_id <$> workspaces_all s).
Proof.
  intros Hlast s.
  destruct (invariants_apply_ops ops (workspaces_init s0)) as [[? ? ? ?] _];
    [by apply registry_wf_init|apply visuals_ok_init|done].
Qed.

Lemma registry_pointers_sound_witness :
  let s :=
    apply_ops [OpAdd (str "a"); OpAdd (str "b"); OpRemove 1; OpRemove 2]
      (workspaces_init registry_ABC) in
  NoDup (ws_id <$> workspaces_all s)
  ∧ workspaces_current s ∈ ws_id <$> workspaces_all s
  ∧ (∀ id, workspaces_last s = Some id → id ∈ ws_id <$> workspaces_all s).
Proof. apply (registry_pointers_sound registry_ABC). reflexivity. Defined.

(** X2: starting from [workspaces_init] on a fresh server, after every
    sequence of add/rename/remove operations the scene tree of a workspace
    is enabled, and its two workspace-group handles are active, exactly
    when it is the current workspace. *)
Theorem only_current_enabled (s0 : server) (ops : list registry_op) :
  workspaces_last s0 = None →
  let s := apply_ops ops (workspaces_init s0) in
  ∀ w, w ∈ workspaces_all s →
       ws_tree_enabled w = bool_decide (ws_id w = workspaces_current s)
       ∧ ws_cosmic_active w = bool_decide (ws_id w = workspaces_current s)
       ∧ ws_ext_active w = bool_decide (ws_id w = workspaces_current s).
Proof.
  intros Hlast s.
  destruct (invariants_apply_ops ops (workspaces_init s0)) as [_ Hvis];
    [by apply registry_wf_init|apply visuals_ok_init|done].
Qed.

Lemma only_current_enabled_witness :
  let s :=
    apply_ops [OpAdd (str "a"); OpAdd (str "b"); OpRemove 1; OpRemove 2]
      (workspaces_init registry_ABC) in
  Forall
    (λ w, ws_tree_enabled w = bool_decide (ws_id w = workspaces_current s)
          ∧ ws_cosmic_active w = bool_decide (ws_id w = workspaces_current s)
          ∧ ws_ext_active w = bool_decide (ws_id w = workspaces_current s))
    (workspaces_all s).
Proof.
  apply list.Forall_forall.
  apply (only_current_enabled registry_ABC). reflexivity.
Defined.

(** X3: a switch to a member of the registry keeps both invariants: the
    pointers stay sound and, the old workspace being disabled and the
    target enabled, exactly the new current workspace is enabled and
    active. *)
Theorem switch_to_keeps_invariants
    (s : server) (target : nat) (update_focus : bool) :
  registry_wf s → visuals_ok s →
  target ∈ ws_id <$> workspaces_all s →
  registry_wf (workspaces_switch_to target update_focus s)
  ∧ visuals_ok (workspaces_switch_to target update_focus s)
  ∧ workspaces_current (workspaces_switch_to target update_focus s) = target.
Proof.
  intros Hwf Hvis Htarget.
  split_and!;
    [by apply registry_wf_switch_to|by apply visuals_ok_switch_to|].
  destruct (decide (target = workspaces_current s)) as [Heq|Hne].
  - unfold workspaces_switch_to. by rewrite decide_True.
  - by destruct (switch_to_registry target update_focus s Hne) as [? _].
Qed.

Lemma switch_to_keeps_invariants_witness :
  registry_wf (workspaces_switch_to 2 true registry_ABC)
  ∧ visuals_ok (workspaces_switch_to 2 true registry_ABC)
  ∧ workspaces_current (workspaces_switch_to 2 true registry_ABC) = 2%nat.
Proof.
  apply (switch_to_keeps_invariants registry_ABC 2 true).
  - split; cbn.
    + by apply (bool_decide_unpack _).
    + intros id Hid. repeat (apply elem_of_cons in Hid as [->|Hid]; [lia|]).
      by apply elem_of_nil in Hid.
    + by apply (bool_decide_unpack _).
    + done.
  - intros w Hw. cbn in Hw.
    repeat (apply elem_of_cons in Hw as [->|Hw]; [done|]).
    by apply elem_of_nil in Hw.
  - by apply (bool_decide_unpack _).
Defined.

Section OperationProperties.

Lemma names_update_ws id f s :
  (∀ w, ws_name (f w) = ws_name w) →
  ws_names (update_ws id f s) = ws_names s.
Proof.
  intros Hf. unfold ws_names. cbn. rewrite <- list_fmap_compose.
  apply list_fmap_ext. intros i w _. cbn. by case_decide.
Qed.

Lemma names_switch_to target uf s :
  ws_names (workspaces_switch_to target uf s) = ws_names s.
Proof.
  unfold workspaces_switch_to. case_decide; [done|].
  unfold ws_names. cbn. destruct (grabbed_view s); cbn;
    rewrite <- !list_fmap_compose; apply list_fmap_ext;
    intros i w _; cbn; by repeat case_decide.
Qed.

(** What a switch does to the view at a position: it moves the view to
    the target when the view is visible on all workspaces or is the
    grabbed view, and leaves it alone otherwise. *)
Lemma switch_to_view_lookup target uf s k :
  target ≠ workspaces_current s →
  views (workspaces_switch_to target uf s) !! k
  = (λ v, if view_visible_on_all_workspaces v
             || bool_decide (grabbed_view s = Some k)
          then view_move_to_workspace target v else v) <$> views s !! k.
Proof.
  intros Hne. unfold workspaces_switch_to. rewrite decide_False by done.
  cbn. destruct (grabbed_view s) as [g|]; cbn.
  - rewrite list_lookup_alter. case_decide as Hg.
    + subst g. rewrite list_lookup_fmap.
      destruct (views s !! k) as [v|]; [|done]. cbn.
      rewrite bool_decide_true by done. rewrite orb_true_r.
      by destruct (view_visible_on_all_workspaces v).
    + rewrite list_lookup_fmap.
      destruct (views s !! k) as [v|]; [|done]. cbn.
      rewrite bool_decide_false by congruence. by rewrite orb_false_r.
  - rewrite list_lookup_fmap. destruct (views s !! k) as [v|]; [|done].
    cbn. by rewrite orb_false_r.
Qed.

Lemma switch_to_view_workspace target uf s k v' :
  views (workspaces_switch_to target uf s) !! k = Some v' →
  ∃ v, views s !! k = Some v
       ∧ (view_workspace v' = view_workspace v
          ∨ view_workspace v' = target).
Proof.
  destruct (decide (target = workspaces_current s)) as [Heq|Hne].
  { unfold workspaces_switch_to. rewrite decide_True by done. eauto. }
  rewrite switch_to_view_lookup by done.
  destruct (views s !! k) as [v|]; [|done]. intros [= <-].
  exists v. split; [done|]. destruct (_ || _); [by right|by left].
Qed.

End OperationProperties.

(** X4: a switch to another workspace takes the windows that are visible
    on all workspaces, and the window that is being moved or resized,
    along to the target; every other window stays where it is. The list
    of views after the switch is the list before it, position by
    position, with exactly these views moved: no view is added, dropped
    or reordered. *)
Theorem switch_to_moves_omnipresent_views
    (s : server) (target : nat) (update_focus : bool) :
  target ≠ workspaces_current s →
  views (workspaces_switch_to target update_focus s)
  = imap
      (λ k v, if view_visible_on_all_workspaces v
                 || bool_decide (grabbed_view s = Some k)
              then View target (view_visible_on_all_workspaces v)
                     (view_focusable v)
              else v)
      (views s).
Proof.
  intros Hne. apply list_eq. intros k.
  rewrite switch_to_view_lookup, list_lookup_imap by done.
  by destruct (views s !! k).
Qed.

Lemma switch_to_moves_omnipresent_views_witness :
  views (workspaces_switch_to 0 true registry_anchor_only)
  = [View 1 false true; View 0 true true]
  ∧ views (workspaces_switch_to 0 true
             (Server (workspaces_all registry_anchor_only) 1 None
                [View 1 false true; View 1 false false; View 2 true true]
                (Some 1%nat) 3 true None 0 []))
    = [View 1 false true; View 0 false false; View 0 true true].
Proof.
  split.
  - etrans.
    + apply (switch_to_moves_omnipresent_views registry_anchor_only 0 true).
      by vm_compute.
    + reflexivity.
  - etrans.
    + apply (switch_to_moves_omnipresent_views
               (Server (workspaces_all registry_anchor_only) 1 None
                  [View 1 false true; View 1 false false; View 2 true true]
                  (Some 1%nat) 3 true None 0 []) 0 true).
      by vm_compute.
    + reflexivity.
Defined.

(** X5: renaming the workspace at a valid 1-based index to a non-empty
    name succeeds and changes that name and no other, keeping the order and
    the identities. When the name is the one the workspace already has,
    nothing at all changes: no write of the state file and no event.
    Otherwise the state file, when it can be written, holds the new
    names, each followed by a line feed, and exactly one event is
    broadcast, the line
    [EVENT workspace-list-changed current=<position of current>
    count=<size>]. *)
Theorem rename_index_effect
    (s : server) (i : nat) (w : workspace) (name : list byte) :
  workspaces_all s !! i = Some w →
  name ≠ [] →
  let r := workspaces_rename_index (Z.of_nat (S i)) name s in
  r.2 = true
  ∧ ws_names r.1 = <[i:=name]> (ws_names s)
  ∧ ws_id <$> workspaces_all r.1 = ws_id <$> workspaces_all s
  ∧ (ws_name w = name → r.1 = s)
  ∧ (ws_name w ≠ name →
     state_file r.1
     = (if fs_ok s
        then Some (concat ((λ n, n ++ [x0a]) <$> <[i:=name]> (ws_names s)))
        else state_file s)
     ∧ ipc_events r.1
       = ipc_events s
         ++ [str "EVENT workspace-list-changed current="
             ++ fmt_d (workspace_index s (Some (workspaces_current s)))
             ++ str " count="
             ++ fmt_d (Z.of_nat (length (workspaces_all s))) ++ [x0a]]).
Proof.
  intros Hw Hname r.
  assert (workspace_by_index s (Z.of_nat (S i)) = Some (i, w)) as Hidx.
  { unfold workspace_by_index.
    replace (Z.of_nat (S i) <? 1) with false by (symmetry; apply Z.ltb_ge; lia).
    replace (Z.to_nat (Z.of_nat (S i) - 1)) with i by lia. by rewrite Hw. }
  assert (<[i:=name]> (ws_names s)
          = ws_names (set_all (alter (set_name name) i (workspaces_all s)) s))
    as Hnames.
  { unfold ws_names. cbn.
    apply list_eq. intros j. rewrite list_lookup_fmap.
    destruct (decide (i = j)) as [<-|Hne].
    - rewrite list_lookup_alter_eq, Hw. cbn.
      apply list_lookup_insert_eq. rewrite length_fmap.
      apply lookup_lt_is_Some. by eexists.
    - by rewrite list_lookup_alter_ne, list_lookup_insert_ne,
        list_lookup_fmap by done. }
  destruct (rename_registry (Z.of_nat (S i)) name s) as (Hids & _).
  subst r. revert Hids. unfold workspaces_rename_index.
  rewrite bool_decide_false, Hidx by done. unfold streq.
  case_bool_decide as Hsame; cbn [negb fst snd]; intros Hids.
  - split_and!; try done.
    symmetry. apply list_insert_id. unfold ws_names.
    by rewrite list_lookup_fmap, Hw, <- Hsame.
  - set (s1 := set_all _ s) in *.
    destruct (persist_notify_registry s1) as (Hall & _).
    split; [done|]. split; [unfold ws_names at 1; by rewrite Hall|].
    split; [done|]. split; [done|].
    intros _. rewrite Hall in Hids.
    unfold ipc_notify_workspace_list_changed, ipc_broadcast_event,
      workspace_list_changed_event.
    cbn [state_file ipc_events set_ipc_events].
    destruct (persist_registry s1) as (Hall1 & Hcur1 & _).
    rewrite Hcur1, Hall1.
    change (workspaces_current s1) with (workspaces_current s).
    assert (workspace_index (workspace_state_persist s1)
              (Some (workspaces_current s))
            = workspace_index s (Some (workspaces_current s))) as ->.
    { unfold workspace_index.
      rewrite (ws_position_ids (workspace_state_persist s1) s); [done|].
      by rewrite Hall1. }
    assert (length (workspaces_all s1) = length (workspaces_all s)) as ->
      by (cbn; by rewrite length_alter).
    rewrite <- !app_assoc.
    unfold workspace_state_persist. change (fs_ok s1) with (fs_ok s).
    destruct (fs_ok s); [|by split].
    cbn [state_file ipc_events write_state_file]. unfold serialize_names.
    by rewrite Hnames.
Qed.

Lemma rename_index_effect_witness :
  let r := workspaces_rename_index 2 (str "web docs") registry_ABC in
  r.2 = true
  ∧ ws_names r.1 = [str "A"; str "web docs"; str "C"]
  ∧ (workspaces_rename_index 2 (str "B") registry_ABC).1 = registry_ABC
  ∧ state_file r.1
    = Some (str "A" ++ [x0a] ++ str "web docs" ++ [x0a] ++ str "C"
            ++ [x0a])
  ∧ ipc_events r.1
    = [str "EVENT workspace-list-changed current=2 count=3" ++ [x0a]].
Proof.
  destruct (rename_index_effect registry_ABC 1
              (Workspace 1 (str "B") true true true) (str "web docs"))
    as (Hok & Hnames & _ & _ & Hchanged); [reflexivity|done|].
  destruct (rename_index_effect registry_ABC 1
              (Workspace 1 (str "B") true true true) (str "B"))
    as (_ & _ & _ & Hsame & _); [reflexivity|done|].
  destruct Hchanged as [Hfile Hev]; [by vm_compute|].
  split_and!; [exact Hok|exact Hnames|by apply Hsame|..].
  - etrans; [exact Hfile|reflexivity].
  - etrans; [exact Hev|reflexivity].
Defined.

Section RemoveProperties.

Lemma names_persist_notify s :
  ws_names (ipc_notify_workspace_list_changed (workspace_state_persist s))
  = ws_names s.
Proof.
  unfold ws_names. by destruct (persist_notify_registry s) as (-> & _).
Qed.

Lemma length_views_switch_to target uf s :
  length (views (workspaces_switch_to target uf s)) = length (views s).
Proof.
  unfold workspaces_switch_to.
  destruct (decide (target = workspaces_current s)); [done|].
  cbn. destruct (grabbed_view s); cbn;
    by rewrite ?length_alter, !length_fmap.
Qed.

End RemoveProperties.

(** X6: in a registry of at least two distinct workspaces, removing the
    workspace at a valid position succeeds. Its list successor, or the
    head of the list when it was the tail, is the fallback: the name list
    loses exactly the removed entry, [current] moves to the fallback when
    the removed workspace was current, every view that was on the removed
    workspace is on the fallback, and no view is left on the removed
    workspace. *)
Theorem remove_index_effect (s : server) (i : nat) (w : workspace) :
  NoDup (ws_id <$> workspaces_all s) →
  (2 ≤ length (workspaces_all s))%nat →
  workspaces_all s !! i = Some w →
  ∃ fb,
    workspaces_all s
      !! (if decide (S i < length (workspaces_all s))%nat then S i else 0%nat)
    = Some fb
    ∧ let r := workspaces_remove_index (Z.of_nat (S i)) s in
      r.2 = true
      ∧ ws_names r.1 = delete i (ws_names s)
      ∧ ws_id <$> workspaces_all r.1 = delete i (ws_id <$> workspaces_all s)
      ∧ workspaces_current r.1
        = (if decide (workspaces_current s = ws_id w) then ws_id fb
           else workspaces_current s)
      ∧ (∀ k v, views s !! k = Some v → view_workspace v = ws_id w →
                view_workspace <$> views r.1 !! k = Some (ws_id fb))
      ∧ (∀ v, v ∈ views r.1 → view_workspace v ≠ ws_id w).
Proof.
  intros Hdup Hlen Hw.
  pose proof (lookup_lt_Some _ _ _ Hw) as Hi.
  set (j := if decide (S i < length (workspaces_all s))%nat
            then S i else 0%nat).
  assert (j < length (workspaces_all s))%nat as Hj
    by (subst j; case_decide; lia).
  destruct (lookup_lt_is_Some_2 _ _ Hj) as [fb Hfb].
  exists fb. split; [done|].
  assert (ws_id fb ≠ ws_id w) as Hne.
  { intros Heq. assert (j = i); [|subst j; case_decide; lia].
    eapply (NoDup_lookup _ _ _ (ws_id w) Hdup);
      rewrite list_lookup_fmap; [by rewrite Hfb, <- Heq|by rewrite Hw]. }
  assert (match workspaces_all s !! S i with
          | Some next => Some next
          | None => head (workspaces_all s)
          end = Some fb) as Hfallback.
  { subst j. case_decide as Hlt.
    - by rewrite Hfb.
    - rewrite lookup_ge_None_2 by lia. by rewrite head_lookup. }
  intros r.
  assert (r = (r.1, true)) as Hr.
  { subst r. unfold workspaces_remove_index.
    rewrite decide_False by lia.
    unfold workspace_by_index.
    replace (Z.of_nat (S i) <? 1) with false
      by (symmetry; apply Z.ltb_ge; lia).
    replace (Z.to_nat (Z.of_nat (S i) - 1)) with i by lia.
    rewrite Hw. cbn [fmap option_fmap option_map]. rewrite Hfallback.
    by rewrite decide_False. }
  destruct (remove_registry _ _ _ Hr)
    as (i' & w' & fb' & Hidx & _ & _ & Hfb' & Hs').
  apply workspace_by_index_lookup in Hidx as [Hw' Hi'].
  assert (i' = i) as -> by lia.
  assert (w' = w) as -> by congruence.
  assert (fb' = fb) as -> by congruence.
  clear Hw' Hi' Hfb'. rewrite Hr. cbn [fst snd]. rewrite Hs'. clear Hs' Hr r.
  set (s1 := set_views _ s). cbv zeta.
  set (s2 := if decide (workspaces_current s1 = ws_id w) then _ else s1).
  set (s3 := if decide (workspaces_last s2 = Some (ws_id w)) then _ else s2).
  assert (ws_names s3 = ws_names s
          ∧ ws_id <$> workspaces_all s3 = ws_id <$> workspaces_all s
          ∧ workspaces_current s3
            = (if decide (workspaces_current s = ws_id w) then ws_id fb
               else workspaces_current s)
          ∧ views s3 = views s2) as (Hnames & Hids & Hcur & Hviews).
  { assert (ws_names s2 = ws_names s
            ∧ ws_id <$> workspaces_all s2 = ws_id <$> workspaces_all s
            ∧ workspaces_current s2
              = (if decide (workspaces_current s = ws_id w) then ws_id fb
                 else workspaces_current s)) as (Hnames2 & Hids2 & Hcur2).
    { unfold s2. change (workspaces_current s1) with (workspaces_current s).
      case_decide as Hcur; [|done].
      rewrite names_switch_to, ids_switch_to.
      destruct (switch_to_registry (ws_id fb) true s1) as (-> & _);
        [cbn; congruence|done]. }
    unfold s3. destruct (decide (workspaces_last s2 = _)); by split_and!. }
  assert (∀ k v, views s !! k = Some v →
            ∃ v2, views s2 !! k = Some v2
                  ∧ (view_workspace v = ws_id w → view_workspace v2 = ws_id fb)
                  ∧ view_workspace v2 ≠ ws_id w) as Hmoved.
  { intros k v Hv.
    assert (views s1 !! k
            = Some (if decide (view_workspace v = ws_id w)
                    then view_move_to_workspace (ws_id fb) v else v)) as Hv1
      by (unfold s1; cbn; by rewrite list_lookup_fmap, Hv).
    unfold s2.
    destruct (decide (workspaces_current s1 = ws_id w)) as [Hcur1|Hcur1].
    - rewrite switch_to_view_lookup, Hv1 by congruence.
      eexists. split; [done|].
      destruct (_ || _); destruct (decide (view_workspace v = ws_id w));
        cbn; split; done || congruence.
    - rewrite Hv1. eexists. split; [done|].
      destruct (decide (view_workspace v = ws_id w));
        cbn; split; done || congruence. }
  rewrite names_persist_notify.
  destruct (persist_notify_registry (destroy_workspace i s3))
    as (Hall' & Hcur' & _ & _ & Hviews').
  rewrite Hall', Hcur', Hviews'.
  unfold ws_names at 1. cbn [workspaces_all destroy_workspace set_all
    workspaces_current views].
  rewrite !list_fmap_delete. fold (ws_names s3).
  rewrite Hnames, Hids, Hcur, Hviews.
  split_and!; try done.
  - intros k v Hv Hon. destruct (Hmoved k v Hv) as (v2 & -> & Hfbw & _).
    cbn. f_equal. by apply Hfbw.
  - intros v2 (k & Hk)%list_elem_of_lookup_1.
    assert (is_Some (views s !! k)) as [v Hv].
    { apply lookup_lt_is_Some. apply lookup_lt_Some in Hk.
      assert (length (views s2) = length (views s)) as <-; [|done].
      assert (length (views s1) = length (views s)) as <-
        by (unfold s1; cbn; by rewrite length_fmap).
      unfold s2.
      destruct (decide (workspaces_current s1 = ws_id w)); [|done].
      apply length_views_switch_to. }
    destruct (Hmoved k v Hv) as (v2' & Hv2' & _ & Hnot). congruence.
Qed.

Lemma remove_index_effect_witness :
  let r := workspaces_remove_index 2 registry_anchor_only in
  r.2 = true
  ∧ ws_names r.1 = [str "1"; str "3"]
  ∧ workspaces_current r.1 = 2%nat
  ∧ (∀ v, v ∈ views r.1 → view_workspace v ≠ 1%nat).
Proof.
  destruct (remove_index_effect registry_anchor_only 1
              (Workspace 1 (str "2") true true true))
    as (fb & Hfb & Hok & Hnames & _ & Hcur & _ & Hviews).
  - by apply (bool_decide_unpack _).
  - cbn. lia.
  - reflexivity.
  - injection Hfb as <-. by split_and!.
Defined.

(** X7: an index below 1 or beyond the size of the registry is rejected
    by rename and by remove, and an empty name by add and by rename, all
    without any effect on the server. *)
Theorem invalid_arguments_rejected
    (s : server) (index : Z) (name : list byte) :
  (index < 1 ∨ Z.of_nat (length (workspaces_all s)) < index →
   workspaces_rename_index index name s = (s, false)
   ∧ workspaces_remove_index index s = (s, false))
  ∧ workspaces_add_named [] s = (s, false)
  ∧ workspaces_rename_index index [] s = (s, false).
Proof.
  split; [|done]. intros Hindex.
  assert (workspace_by_index s index = None) as Hnone.
  { unfold workspace_by_index. destruct (index <? 1) eqn:Hlt; [done|].
    apply Z.ltb_ge in Hlt. rewrite lookup_ge_None_2; [done|]. lia. }
  split.
  - unfold workspaces_rename_index. rewrite Hnone. by case_bool_decide.
  - unfold workspaces_remove_index. rewrite Hnone. by case_decide.
Qed.

Lemma invalid_arguments_rejected_witness :
  workspaces_rename_index 4 (str "x") registry_ABC = (registry_ABC, false)
  ∧ workspaces_remove_index 0 registry_ABC = (registry_ABC, false).
Proof.
  destruct (invalid_arguments_rejected registry_ABC 4 (str "x"))
    as [[Hrename _] _]; [right; by vm_compute|].
  destruct (invalid_arguments_rejected registry_ABC 0 (str "x"))
    as [[_ Hremove] _]; [left; lia|].
  by split.
Defined.

(** X8: in a registry of distinct workspaces [workspace_index] and
    [workspace_by_index] are inverse to each other: the index reported for
    a member is its 1-based position, looking that index up gives the
    member back, and a workspace that is not a member is reported as 0,
    which no lookup accepts. *)
Theorem workspace_index_by_index (s : server) :
  NoDup (ws_id <$> workspaces_all s) →
  (∀ i w, workspaces_all s !! i = Some w →
          workspace_index s (Some (ws_id w)) = Z.of_nat (S i)
          ∧ workspace_by_index s (workspace_index s (Some (ws_id w)))
            = Some (i, w))
  ∧ (∀ id, id ∉ ws_id <$> workspaces_all s →
           workspace_index s (Some id) = 0
           ∧ workspace_by_index s (workspace_index s (Some id)) = None).
Proof.
  intros Hdup. split.
  - intros i w Hw.
    assert (ws_position s (ws_id w) = Some i) as Hpos
      by (apply ws_position_anchor; [done|by rewrite Hw]).
    unfold workspace_index. rewrite Hpos. split; [done|].
    unfold workspace_by_index.
    replace (Z.of_nat (S i) <? 1) with false
      by (symmetry; apply Z.ltb_ge; lia).
    replace (Z.to_nat (Z.of_nat (S i) - 1)) with i by lia. by rewrite Hw.
  - intros id Hid.
    assert (ws_position s id = None) as Hpos.
    { unfold ws_position.
      destruct (list_find _ _) as [[i w]|] eqn:Hfind; [|done].
      apply list_find_Some in Hfind as (Hw & <- & _).
      destruct Hid. apply list_elem_of_fmap_2.
      by eapply list_elem_of_lookup_2. }
    unfold workspace_index. by rewrite Hpos.
Qed.

Lemma workspace_index_by_index_witness :
  workspace_index registry_ABC (Some 2%nat) = 3
  ∧ workspace_by_index registry_ABC 3
    = Some (2%nat, Workspace 2 (str "C") false false false)
  ∧ workspace_index registry_ABC (Some 7%nat) = 0.
Proof.
  destruct (workspace_index_by_index registry_ABC) as [Hmember Hother];
    [by apply (bool_decide_unpack _)|].
  destruct (Hmember 2%nat (Workspace 2 (str "C") false false false))
    as [Hindex Hlookup]; [reflexivity|].
  destruct (Hother 7%nat) as [Hzero _]; [by apply (bool_decide_unpack _)|].
  split_and!; [exact Hindex| |exact Hzero].
  by rewrite Hindex in Hlookup.
Defined.

(** X9: from the member at position [i] of a registry of distinct
    workspaces, [get_next] gives the successor; at the tail it gives none
    without wrap and the head of the list with wrap. [get_prev] gives the
    predecessor; at the head it gives none without wrap and the tail of the
    list with wrap. *)
Theorem get_prev_next_boundaries
    (s : server) (i : nat) (w : workspace) (wrap : bool) :
  NoDup (ws_id <$> workspaces_all s) →
  workspaces_all s !! i = Some w →
  get_next s (ws_id w) wrap
  = (if decide (S i < length (workspaces_all s))%nat
     then ws_id <$> workspaces_all s !! S i
     else if wrap then ws_id <$> workspaces_all s !! 0%nat else None)
  ∧ get_prev s (ws_id w) wrap
    = (match i with
       | S j => ws_id <$> workspaces_all s !! j
       | O =>
         if wrap
         then ws_id <$> workspaces_all s
                        !! (length (workspaces_all s) - 1)%nat
         else None
       end).
Proof.
  intros Hdup Hw.
  pose proof (lookup_lt_Some _ _ _ Hw) as Hi.
  assert (ws_position s (ws_id w) = Some i) as Hpos
    by (apply ws_position_anchor; [done|by rewrite Hw]).
  unfold get_next, get_prev. rewrite Hpos. split.
  - cbn [link_next]. case_decide; [done|].
    destruct wrap; [|done]. cbn [negb link_next].
    by rewrite decide_False by lia.
  - destruct i as [|j]; [|done]. cbn [link_prev].
    destruct wrap; [|done]. cbn [negb].
    by rewrite decide_False by lia.
Qed.

Lemma get_prev_next_boundaries_witness :
  get_next registry_ABC 2 false = None
  ∧ get_next registry_ABC 2 true = Some 0%nat
  ∧ get_prev registry_ABC 0 false = None
  ∧ get_prev registry_ABC 0 true = Some 2%nat
  ∧ get_next registry_ABC 1 false = Some 2%nat.
Proof.
  assert (NoDup (ws_id <$> workspaces_all registry_ABC)) as Hdup
    by by apply (bool_decide_unpack _).
  pose proof (λ i w wrap,
      get_prev_next_boundaries registry_ABC i w wrap Hdup) as Hb.
  destruct (Hb 2%nat _ false eq_refl) as [Hn2f _].
  destruct (Hb 2%nat _ true eq_refl) as [Hn2t _].
  destruct (Hb 0%nat _ false eq_refl) as [_ Hp0f].
  destruct (Hb 0%nat _ true eq_refl) as [_ Hp0t].
  destruct (Hb 1%nat _ false eq_refl) as [Hn1f _].
  by split_and!.
Defined.

(** X10: with wrap, in a registry of distinct workspaces, [get_prev]
    undoes [get_next] and [get_next] undoes [get_prev]: stepping right and
    then left, or left and then right, comes back to the anchor. *)
Theorem get_prev_next_inverse (s : server) (i : nat) (w : workspace) :
  NoDup (ws_id <$> workspaces_all s) →
  workspaces_all s !! i = Some w →
  (∃ id, get_next s (ws_id w) true = Some id
         ∧ get_prev s id true = Some (ws_id w))
  ∧ (∃ id, get_prev s (ws_id w) true = Some id
           ∧ get_next s id true = Some (ws_id w)).
Proof.
  intros Hdup Hw.
  pose proof (lookup_lt_Some _ _ _ Hw) as Hi.
  assert (∀ j, j < length (workspaces_all s) →
               ∃ wj, workspaces_all s !! j = Some wj)%nat as Hlookup
    by (intros j Hj; by apply lookup_lt_is_Some_2).
  assert (∀ j wj wrap, workspaces_all s !! j = Some wj →
            get_next s (ws_id wj) wrap
            = (if decide (S j < length (workspaces_all s))%nat
               then ws_id <$> workspaces_all s !! S j
               else if wrap then ws_id <$> workspaces_all s !! 0%nat
                    else None)
            ∧ get_prev s (ws_id wj) wrap
              = (match j with
                 | S j' => ws_id <$> workspaces_all s !! j'
                 | O =>
                   if wrap
                   then ws_id <$> workspaces_all s
                                  !! (length (workspaces_all s) - 1)%nat
                   else None
                 end)) as Hstep.
  { intros j wj wrap Hwj.
    assert (ws_position s (ws_id wj) = Some j) as Hpos
      by (apply ws_position_anchor; [done|by rewrite Hwj]).
    pose proof (lookup_lt_Some _ _ _ Hwj) as Hj.
    unfold get_next, get_prev. rewrite Hpos. split.
    - cbn [link_next]. case_decide; [done|].
      destruct wrap; [|done]. cbn [negb link_next].
      by rewrite decide_False by lia.
    - destruct j as [|j']; [|done]. cbn [link_prev].
      destruct wrap; [|done]. cbn [negb].
      by rewrite decide_False by lia. }
  destruct (Hstep i w true Hw) as [Hnext Hprev]. split.
  - rewrite Hnext. case_decide as Hlt.
    + destruct (Hlookup (S i) Hlt) as [wn Hwn]. rewrite Hwn. cbn.
      eexists. split; [done|].
      destruct (Hstep (S i) wn true Hwn) as [_ ->]. by rewrite Hw.
    + destruct (Hlookup 0%nat) as [wn Hwn]; [lia|]. rewrite Hwn. cbn.
      eexists. split; [done|].
      destruct (Hstep 0%nat wn true Hwn) as [_ ->].
      replace (length (workspaces_all s) - 1)%nat with i by lia.
      by rewrite Hw.
  - rewrite Hprev. destruct i as [|j].
    + destruct (Hlookup (length (workspaces_all s) - 1)%nat) as [wp Hwp];
        [lia|]. rewrite Hwp. cbn. eexists. split; [done|].
      destruct (Hstep _ wp true Hwp) as [-> _].
      rewrite decide_False by lia. by rewrite Hw.
    + destruct (Hlookup j) as [wp Hwp]; [lia|]. rewrite Hwp. cbn.
      eexists. split; [done|].
      destruct (Hstep j wp true Hwp) as [-> _].
      rewrite decide_True by lia. by rewrite Hw.
Qed.

Lemma get_prev_next_inverse_witness :
  (∃ id, get_next registry_ABC 2 true = Some id
         ∧ get_prev registry_ABC id true = Some 2%nat)
  ∧ (∃ id, get_prev registry_ABC 2 true = Some id
           ∧ get_next registry_ABC id true = Some 2%nat).
Proof.
  apply (get_prev_next_inverse registry_ABC 2
           (Workspace 2 (str "C") false false false));
    [by apply (bool_decide_unpack _)|reflexivity].
Defined.

Section TakeDrop.

Context {A : Type}.

Lemma elem_of_take_inv (x : A) n l : x ∈ take n l → x ∈ l.
Proof.
  intros (j & Hj & _)%elem_of_take. by eapply list_elem_of_lookup_2.
Qed.

Lemma elem_of_drop_inv (x : A) n l : x ∈ drop n l → x ∈ l.
Proof.
  intros (j & Hj)%list_elem_of_lookup_1. rewrite lookup_drop in Hj.
  by eapply list_elem_of_lookup_2.
Qed.

End TakeDrop.

(** A workspace is occupied exactly when a view that is focusable and
    not visible on all workspaces is assigned to it. *)
Lemma workspace_has_views_view ws s :
  workspace_has_views ws s = true
  ↔ ∃ v, v ∈ views s ∧ view_workspace v = ws
         ∧ view_focusable v = true
         ∧ view_visible_on_all_workspaces v = false.
Proof.
  unfold workspace_has_views, for_each_view_no_omnipresent.
  rewrite existsb_exists. split.
  - intros (v & [Hin Hcrit]%filter_In & Hv%bool_decide_eq_true).
    apply andb_true_iff in Hcrit as [Hfoc Homni%negb_true_iff].
    exists v. split_and!; [by apply list_elem_of_In|done..].
  - intros (v & Hin & Hv & Hfoc & Homni). exists v. split.
    + apply filter_In. split; [by apply list_elem_of_In|].
      by rewrite Hfoc, Homni.
    + by apply bool_decide_eq_true.
Qed.

(** X11: the occupied-neighbour search of [get_adjacent_occupied] is
    sound and, with wrap, complete, a workspace counting as occupied when
    a view that is focusable and not visible on all workspaces is
    assigned to it. A workspace that the search returns is a member of the
    registry other than the anchor and has such a view; with wrap the
    search returns none only when every such view that is on a member of
    the registry is on the anchor. A view that is not focusable, like one
    that is visible on all workspaces, makes no workspace occupied. *)
Theorem occupied_search_sound_complete
    (s : server) (anchor start : nat) (wrap reverse : bool) (fuel : nat) :
  NoDup (ws_id <$> workspaces_all s) →
  ws_id <$> workspaces_all s !! start = Some anchor →
  (length (workspaces_all s) < fuel)%nat →
  (∀ id, get_adjacent_occupied fuel s anchor wrap reverse = Some (Some id) →
         id ≠ anchor
         ∧ id ∈ ws_id <$> workspaces_all s
         ∧ ∃ v, v ∈ views s ∧ view_workspace v = id
                ∧ view_focusable v = true
                ∧ view_visible_on_all_workspaces v = false)
  ∧ (get_adjacent_occupied fuel s anchor true reverse = Some None →
     ∀ v, v ∈ views s →
          view_focusable v = true →
          view_visible_on_all_workspaces v = false →
          view_workspace v ∈ ws_id <$> workspaces_all s →
          view_workspace v = anchor).
Proof.
  intros Hdup Hanchor Hfuel.
  pose proof (λ wr, get_adjacent_occupied_candidates s anchor start Hdup
                      Hanchor wr reverse fuel Hfuel) as Hsearch.
  split.
  - intros id. rewrite Hsearch. intros [= Hfound].
    unfold first_occupied in Hfound.
    destruct (List.find _ _) as [w|] eqn:Hfind; [|done].
    injection Hfound as <-.
    apply find_some in Hfind as [Hin%list_elem_of_In Hocc].
    split_and!; [|apply list_elem_of_fmap_2|by apply workspace_has_views_view].
    + by apply (candidates_not_anchor s anchor start Hdup Hanchor
                  wrap reverse).
    + revert Hin. unfold occupied_candidates.
      destruct reverse, wrap;
        rewrite ?app_nil_r, ?elem_of_app, ?elem_of_reverse;
        intros; destruct_or?;
        first [by eapply elem_of_take_inv|by eapply elem_of_drop_inv].
  - rewrite Hsearch. intros [= Hnone] v Hv Hfoc Homni Hmember.
    apply list_elem_of_fmap_1 in Hmember as (w & Hid & Hw).
    destruct (decide (ws_id w = anchor)) as [Heq|Hne]; [congruence|].
    exfalso.
    assert (workspace_has_views (ws_id w) s = true) as Hocc
      by (apply workspace_has_views_view; exists v; by rewrite <- Hid).
    rewrite <- not_false_iff_true in Hocc. apply Hocc.
    unfold first_occupied in Hnone.
    destruct (List.find _ _) as [w'|] eqn:Hfind; [done|].
    apply (find_none _ _ Hfind). apply list_elem_of_In.
    apply list_elem_of_lookup_1 in Hw as [j Hj].
    assert (j ≠ start) as Hjs.
    { intros ->. apply Hne. rewrite Hj in Hanchor. by injection Hanchor. }
    unfold occupied_candidates.
    destruct reverse; rewrite elem_of_app, ?elem_of_reverse;
      destruct (decide (j < start)%nat).
    + left. apply elem_of_take. exists j. split; [done|lia].
    + right. apply (list_elem_of_lookup_2 _ (j - S start)).
      rewrite lookup_drop, <- Hj. f_equal. lia.
    + right. apply elem_of_take. exists j. split; [done|lia].
    + left. apply (list_elem_of_lookup_2 _ (j - S start)).
      rewrite lookup_drop, <- Hj. f_equal. lia.
Qed.

(** From workspace [1] of the registry [1, 2, 3] with a window of its own
    on [2] the search finds [2]. With only a window that is not focusable
    on [3] and one visible on all workspaces on [2], it finds nothing from
    [1], also with wrap. *)
Lemma occupied_search_sound_complete_witness :
  (1%nat ≠ 0%nat
   ∧ 1%nat ∈ ws_id <$> workspaces_all registry_anchor_only
   ∧ ∃ v, v ∈ views registry_anchor_only ∧ view_workspace v = 1%nat
          ∧ view_focusable v = true
          ∧ view_visible_on_all_workspaces v = false)
  ∧ get_adjacent_occupied 4
      (Server (workspaces_all registry_anchor_only) 0 None
         [View 2 false false; View 1 true true; View 0 false true]
         None 3 true None 0 [])
      0 true false
    = Some None
  ∧ (∀ v, v ∈ [View 2 false false; View 1 true true; View 0 false true] →
          view_focusable v = true →
          view_visible_on_all_workspaces v = false →
          view_workspace v ∈ ws_id <$> workspaces_all registry_anchor_only →
          view_workspace v = 0%nat).
Proof.
  split; [|split; [reflexivity|]].
  - destruct (occupied_search_sound_complete registry_anchor_only 0 0 true
                false 4) as [Hsound _].
    + by apply (bool_decide_unpack _).
    + reflexivity.
    + cbn. lia.
    + apply (Hsound 1%nat). reflexivity.
  - destruct (occupied_search_sound_complete
                (Server (workspaces_all registry_anchor_only) 0 None
                   [View 2 false false; View 1 true true; View 0 false true]
                   None 3 true None 0 [])
                0 0 true false 4) as [_ Hcomplete].
    + by apply (bool_decide_unpack _).
    + reflexivity.
    + cbn. lia.
    + apply Hcomplete. reflexivity.
Defined.

Section DecimalProperties.

(** The digits that [%d] prints for a decimal numeral. *)
Local Abbreviation digits_of d := (str (NilEmpty.string_of_uint d)).

Lemma digit_plain c :
  isdigit c = true → isspace c = false ∧ c ≠ x2d ∧ c ≠ x2b ∧ c ≠ x00.
Proof. by destruct c. Qed.

Lemma strtol_digits_acc d : ∀ acc : positive,
  strtol_digits (Z.pos acc) (digits_of d) = Z.pos (Pos.of_uint_acc d acc).
Proof.
  induction d as [|d IH|d IH|d IH|d IH|d IH|d IH|d IH|d IH|d IH|d IH];
    intros acc; [done|..];
    cbn [NilEmpty.string_of_uint Pos.of_uint_acc];
    change (str (String ?a ?s)) with (Ascii.byte_of_ascii a :: str s);
    cbn [strtol_digits]; cbn -[Z.mul Z.add];
    rewrite <- IH; f_equal; lia.
Qed.

Lemma strtol_digits_zero d :
  strtol_digits 0 (digits_of d) = Z.of_N (Pos.of_uint d).
Proof.
  induction d as [|d IH|d IH|d IH|d IH|d IH|d IH|d IH|d IH|d IH|d IH];
    [done|..];
    cbn [NilEmpty.string_of_uint Pos.of_uint];
    change (str (String ?a ?s)) with (Ascii.byte_of_ascii a :: str s);
    cbn [strtol_digits]; cbn -[Z.mul Z.add strtol_digits Pos.of_uint_acc];
    [exact IH|apply strtol_digits_acc..].
Qed.

Lemma span_digits_all d : span_digits (digits_of d) = (digits_of d, []).
Proof.
  induction d as [|d IH|d IH|d IH|d IH|d IH|d IH|d IH|d IH|d IH|d IH];
    [done|..];
    cbn [NilEmpty.string_of_uint];
    change (str (String ?a ?s)) with (Ascii.byte_of_ascii a :: str s);
    cbn [span_digits]; cbn -[span_digits]; by rewrite IH.
Qed.

Lemma digits_of_head d :
  d ≠ Decimal.Nil →
  ∃ c rest, digits_of d = c :: rest ∧ isdigit c = true.
Proof. destruct d; [done|..]; intros _; by do 2 eexists. Qed.

Lemma to_uint_not_nil p : Pos.to_uint p ≠ Decimal.Nil.
Proof.
  intros Hnil. pose proof (DecimalPos.Unsigned.of_to p) as Hp.
  by rewrite Hnil in Hp.
Qed.

Lemma fmt_d_pos p : fmt_d (Z.pos p) = digits_of (Pos.to_uint p).
Proof.
  unfold fmt_d. cbn [Z.to_int NilZero.string_of_int].
  pose proof (to_uint_not_nil p). by destruct (Pos.to_uint p).
Qed.

Lemma fmt_d_neg p : fmt_d (Z.neg p) = x2d :: digits_of (Pos.to_uint p).
Proof.
  unfold fmt_d. cbn [Z.to_int NilZero.string_of_int].
  pose proof (to_uint_not_nil p). by destruct (Pos.to_uint p).
Qed.

Lemma strtol_minus l :
  strtol (x2d :: l)
  = Z.max (- 2 ^ 63) (Z.min (2 ^ 63 - 1) (- strtol_digits 0 l))
  ∧ strtol_endptr (x2d :: l)
    = (let '(ds, tl) := span_digits l in
       if bool_decide (ds = []) then x2d :: l else tl)
  ∧ strtol_erange (x2d :: l)
    = ((- strtol_digits 0 l <? - 2 ^ 63)
       || (2 ^ 63 - 1 <? - strtol_digits 0 l)).
Proof. done. Qed.

(** What [strtol] makes of a number printed with [%d]. *)
Lemma strtol_fmt_d z :
  strtol (fmt_d z) = Z.max (- 2 ^ 63) (Z.min (2 ^ 63 - 1) z)
  ∧ strtol_endptr (fmt_d z) = []
  ∧ strtol_erange (fmt_d z) = (z <? - 2 ^ 63) || (2 ^ 63 - 1 <? z).
Proof.
  destruct z as [|p|p]; [done|..].
  - rewrite fmt_d_pos.
    destruct (digits_of_head _ (to_uint_not_nil p)) as (c & rest & Hd & Hc).
    destruct (digit_plain c Hc) as (Hsp & Hminus & Hplus & _).
    pose proof (strtol_digits_zero (Pos.to_uint p)) as Hval.
    pose proof (span_digits_all (Pos.to_uint p)) as Hspan.
    rewrite DecimalPos.Unsigned.of_to in Hval.
    unfold strtol, strtol_endptr, strtol_erange.
    rewrite Hd in *. cbn [lstrip]. rewrite Hsp.
    rewrite !decide_False by done. rewrite Hval, Hspan.
    by rewrite bool_decide_false.
  - rewrite fmt_d_neg.
    destruct (digits_of_head _ (to_uint_not_nil p)) as (c & rest & Hd & Hc).
    pose proof (strtol_digits_zero (Pos.to_uint p)) as Hval.
    pose proof (span_digits_all (Pos.to_uint p)) as Hspan.
    rewrite DecimalPos.Unsigned.of_to in Hval.
    destruct (strtol_minus (digits_of (Pos.to_uint p))) as (-> & -> & ->).
    rewrite Hval, Hspan, Hd. by rewrite bool_decide_false.
Qed.

End DecimalProperties.

(** X12: [parse_workspace_index] reads back what [%d] prints: the decimal
    representation of a number between 0 and [LONG_MAX] parses to that
    number, and that of any other number to 0. *)
Theorem parse_workspace_index_fmt_d (z : Z) :
  parse_workspace_index (fmt_d z)
  = (if (0 <=? z) && (z <=? 2 ^ 63 - 1) then z else 0).
Proof.
  unfold parse_workspace_index.
  destruct (strtol_fmt_d z) as (-> & -> & ->).
  rewrite bool_decide_true by done. cbn [negb orb].
  destruct (0 <=? z) eqn:Hlo, (z <=? 2 ^ 63 - 1) eqn:Hhi;
    destruct (z <? - 2 ^ 63) eqn:Hmin, (2 ^ 63 - 1 <? z) eqn:Hmax;
    cbn [andb orb]; try lia;
    try (destruct (_ <? 0) eqn:Hneg; lia).
Qed.

(** [atoi] reads back what [%d] prints for every [int]. *)
Lemma atoi_fmt_d (z : Z) :
  - 2 ^ 31 ≤ z < 2 ^ 31 → atoi (fmt_d z) = z.
Proof.
  intros Hz. unfold atoi. destruct (strtol_fmt_d z) as (-> & _).
  rewrite Z.max_r, Z.min_r by lia.
  rewrite Z.mod_small by lia. lia.
Qed.

Section FindProperties.

Lemma find_first {A} (p : A → bool) (l : list A) : ∀ i x,
  l !! i = Some x → p x = true →
  (∀ j y, (j < i)%nat → l !! j = Some y → p y = false) →
  List.find p l = Some x.
Proof.
  induction l as [|a l IH]; intros [|i] x Hx Hp Hbefore; try done.
  - injection Hx as ->. cbn. by rewrite Hp.
  - cbn. rewrite (Hbefore 0%nat a) by (done || lia).
    apply (IH i); [done..|].
    intros j y Hj Hy. apply (Hbefore (S j)); [lia|done].
Qed.

Lemma find_nothing {A} (p : A → bool) (l : list A) :
  (∀ x, x ∈ l → p x = false) → List.find p l = None.
Proof.
  induction l as [|a l IH]; intros Hnone; [done|].
  cbn. rewrite Hnone by left. apply IH. intros x Hx. apply Hnone. by right.
Qed.

Lemma lstrip_split p l :
  ∃ sp, l = sp ++ lstrip p l ∧ Forall (λ c, p c = true) sp.
Proof.
  induction l as [|c l (sp & Hl & Hsp)]; [by exists []|].
  cbn. destruct (p c) eqn:Hc.
  - exists (c :: sp). split; [by rewrite Hl at 1|by constructor].
  - by exists [].
Qed.

Lemma span_digits_split l :
  l = (span_digits l).1 ++ (span_digits l).2
  ∧ Forall (λ c, isdigit c = true) (span_digits l).1.
Proof.
  induction l as [|c l [Hl Hds]]; [done|].
  cbn. destruct (isdigit c) eqn:Hc; [|done].
  destruct (span_digits l) as [ds tl]. cbn in *.
  split; [by rewrite Hl at 1|by constructor].
Qed.

Lemma strtol_digits_nonneg l : ∀ acc, 0 ≤ acc → 0 ≤ strtol_digits acc l.
Proof.
  induction l as [|c l IH]; intros acc Hacc; [done|].
  cbn. destruct (isdigit c) eqn:Hc; [|done].
  apply IH. unfold isdigit in Hc. lia.
Qed.

End FindProperties.

(** X14: [workspace_find_by_name] resolves a number before it resolves a
    name. In a registry of fewer than 2^63 workspaces, the decimal
    representation of a position always gives the workspace at that
    position, whatever the workspaces are called; a string that is no
    position in the registry gives the first workspace of that name, and
    none when there is no such workspace. *)
Theorem workspace_find_by_name_resolution (s : server) :
  Z.of_nat (length (workspaces_all s)) < 2 ^ 63 →
  (∀ i w, workspaces_all s !! i = Some w →
          workspace_find_by_name s (fmt_d (Z.of_nat (S i)))
          = Some (ws_id w))
  ∧ (∀ name,
       parse_workspace_index name = 0
       ∨ Z.of_nat (length (workspaces_all s)) < parse_workspace_index name →
       (∀ i w, workspaces_all s !! i = Some w →
               ws_name w = name →
               (∀ j w', (j < i)%nat → workspaces_all s !! j = Some w' →
                        ws_name w' ≠ name) →
               workspace_find_by_name s name = Some (ws_id w))
       ∧ ((∀ w, w ∈ workspaces_all s → ws_name w ≠ name) →
          workspace_find_by_name s name = None)).
Proof.
  intros Hsize. split.
  - intros i w Hw. unfold workspace_find_by_name.
    pose proof (lookup_lt_Some _ _ _ Hw) as Hi.
    assert (parse_workspace_index (fmt_d (Z.of_nat (S i))) = Z.of_nat (S i))
      as ->.
    { unfold parse_workspace_index.
      destruct (strtol_fmt_d (Z.of_nat (S i))) as (-> & -> & ->).
      rewrite Z.max_r, Z.min_r by lia.
      rewrite bool_decide_true by done.
      rewrite !(proj2 (Z.ltb_ge _ _)) by lia. done. }
    rewrite bool_decide_false by lia.
    replace (Z.to_nat (Z.of_nat (S i) - 1)) with i by lia.
    by rewrite Hw.
  - intros name Hparse.
    assert (workspace_find_by_name s name
            = ws_id <$> List.find (λ w, streq (ws_name w) name)
                          (workspaces_all s)) as ->.
    { unfold workspace_find_by_name. case_bool_decide as Hzero; [done|].
      rewrite lookup_ge_None_2; [done|]. lia. }
    split.
    + intros i w Hw Hname Hfirst.
      rewrite (find_first _ _ i w); [done..| |].
      * by apply bool_decide_eq_true.
      * intros j w' Hj Hw'. apply bool_decide_eq_false. by eapply Hfirst.
    + intros Hnone. rewrite find_nothing; [done|].
      intros w Hw. apply bool_decide_eq_false. by apply Hnone.
Qed.

Lemma workspace_find_by_name_resolution_witness :
  workspace_find_by_name
    (apply_ops [OpRename 1 (str "2"); OpRename 2 (str "web")] registry_ABC)
    (str "2") = Some 1%nat
  ∧ workspace_find_by_name
      (apply_ops [OpRename 1 (str "2"); OpRename 2 (str "web")] registry_ABC)
      (str "web") = Some 1%nat
  ∧ workspace_find_by_name registry_ABC (str "none") = None.
Proof.
  set (s := apply_ops _ registry_ABC).
  destruct (workspace_find_by_name_resolution s) as [Hindex Hname];
    [by vm_compute|].
  destruct (workspace_find_by_name_resolution registry_ABC)
    as [_ Hname']; [by vm_compute|].
  split_and!.
  - apply (Hindex 1%nat (Workspace 1 (str "web") true true true)).
    reflexivity.
  - destruct (Hname (str "web")) as [Hfound _]; [by left|].
    apply (Hfound 1%nat (Workspace 1 (str "web") true true true));
      [reflexivity..|].
    intros [|j] w' Hj Hw'; [|lia]. injection Hw' as <-. by vm_compute.
  - destruct (Hname' (str "none")) as [_ Hnone]; [by left|].
    apply Hnone. intros w Hw. cbn in Hw.
    repeat (apply elem_of_cons in Hw as [->|Hw]; [by vm_compute|]).
    by apply elem_of_nil in Hw.
Defined.

(** X15: [parse_workspace_index] gives a position only for a number that
    spans the whole string: when the result is not 0, the string is
    optional leading whitespace, an optional plus sign and then digits
    only, and the result is the positive number, at most [LONG_MAX], that
    the digits denote. A trailing byte, a minus sign or a string without
    digits always gives 0. *)
Theorem parse_workspace_index_shape (name : list byte) :
  parse_workspace_index name ≠ 0 →
  ∃ sp sign ds,
    name = sp ++ sign ++ ds
    ∧ Forall (λ c, isspace c = true) sp
    ∧ (sign = [] ∨ sign = [x2b])
    ∧ ds ≠ []
    ∧ Forall (λ c, isdigit c = true) ds
    ∧ parse_workspace_index name = strtol_digits 0 ds
    ∧ 0 < parse_workspace_index name ≤ 2 ^ 63 - 1.
Proof.
  unfold parse_workspace_index, strtol, strtol_erange, strtol_endptr.
  destruct (lstrip_split isspace name) as (sp & Hname & Hsp).
  set (v := match lstrip isspace name with
            | [] => 0
            | c :: rest =>
              if decide (c = x2d) then - strtol_digits 0 rest
              else if decide (c = x2b) then strtol_digits 0 rest
              else strtol_digits 0 (c :: rest)
            end).
  set (body := match lstrip isspace name with
               | [] => []
               | c :: rest =>
                 if decide (c = x2d) then rest
                 else if decide (c = x2b) then rest
                 else c :: rest
               end).
  destruct (span_digits_split body) as [Hbody Hds].
  destruct (span_digits body) as [ds tl] eqn:Hspan. cbn [fst snd] in *.
  destruct ((v <? - 2 ^ 63) || (2 ^ 63 - 1 <? v)) eqn:Hrange; [done|].
  apply orb_false_iff in Hrange as [Hmin Hmax].
  rewrite Z.max_r, Z.min_r by lia. cbn [orb].
  destruct (decide (ds = [])) as [->|Hnodigit].
  { (* no digit: [endptr] is the whole string *)
    rewrite (bool_decide_true ([] = [])) by done.
    destruct name as [|c name]; [done|by rewrite bool_decide_false]. }
  rewrite (bool_decide_false (ds = [])) by done.
  destruct (decide (tl = [])) as [->|Htl];
    [rewrite bool_decide_true by done|by rewrite bool_decide_false].
  cbn [negb orb].
  rewrite app_nil_r in Hbody.
  destruct (v <? 0) eqn:Hneg; [done|]. intros Hv.
  subst v body.
  destruct (lstrip isspace name) as [|c rest] eqn:Hstrip; [done|].
  destruct (decide (c = x2d)) as [->|Hminus].
  { pose proof (strtol_digits_nonneg rest 0 ltac:(lia)).
    apply Z.ltb_ge in Hneg. lia. }
  apply Z.ltb_ge in Hneg. apply Z.ltb_ge in Hmax.
  destruct (decide (c = x2b)) as [->|Hplus].
  - subst ds. exists sp, [x2b], rest. rewrite Hname at 1.
    split_and!; try done; [by right|lia..].
  - subst ds. exists sp, [], (c :: rest). rewrite Hname at 1.
    split_and!; try done; [by left|lia..].
Qed.

Lemma parse_workspace_index_shape_witness :
  ∃ sp sign ds,
    [x20] ++ str "+124" = sp ++ sign ++ ds
    ∧ Forall (λ c, isspace c = true) sp
    ∧ (sign = [] ∨ sign = [x2b])
    ∧ ds ≠ []
    ∧ Forall (λ c, isdigit c = true) ds
    ∧ parse_workspace_index ([x20] ++ str "+124") = strtol_digits 0 ds
    ∧ 0 < parse_workspace_index ([x20] ++ str "+124") ≤ 2 ^ 63 - 1.
Proof. apply parse_workspace_index_shape. by vm_compute. Defined.

(** The table in the comment of [parse_workspace_index]. *)
Example parse_workspace_index_table :
  parse_workspace_index (str "2nd desktop") = 0
  ∧ parse_workspace_index (str "-50") = 0
  ∧ parse_workspace_index (str "0") = 0
  ∧ parse_workspace_index (str "124") = 124
  ∧ parse_workspace_index (str "1.24") = 0.
Proof. by split_and!. Qed.

Section EncoderProperties.

Lemma hex_digit_upper_unreserved d :
  0 ≤ d < 16 → ipc_pct_is_unreserved (hex_digit_upper d) = true.
Proof.
  intros Hd.
  assert (d = 0 ∨ d = 1 ∨ d = 2 ∨ d = 3 ∨ d = 4 ∨ d = 5 ∨ d = 6 ∨ d = 7
          ∨ d = 8 ∨ d = 9 ∨ d = 10 ∨ d = 11 ∨ d = 12 ∨ d = 13 ∨ d = 14
          ∨ d = 15) as Hcases by lia.
  by repeat destruct Hcases as [->|Hcases]; [..|subst d].
Qed.

Lemma byte_val_range c : 0 ≤ byte_val c < 256.
Proof. by destruct c. Qed.

(** An unreserved byte and the percent sign are neither whitespace nor
    [=] nor NUL. *)
Lemma unreserved_plain c :
  ipc_pct_is_unreserved c = true ∨ c = x25 →
  isspace c = false ∧ c ≠ x3d ∧ c ≠ x00.
Proof. by destruct c; intros [?|?]. Qed.

Lemma encoded_unreserved s :
  Forall (λ c, ipc_pct_is_unreserved c = true ∨ c = x25)
    (buf_add_pct_encoded s).
Proof.
  induction s as [|c s IH]; cbn [buf_add_pct_encoded]; [done|].
  destruct (decide (c = x00)); [done|].
  destruct (ipc_pct_is_unreserved c) eqn:Hun.
  - constructor; [by left|done].
  - pose proof (byte_val_range c) as Hc.
    constructor; [by right|]. unfold fmt_02X. cbn [app].
    constructor.
    { left. apply hex_digit_upper_unreserved.
      split; [apply Z.div_pos; lia|apply Z.div_lt_upper_bound; lia]. }
    constructor; [|done].
    left. apply hex_digit_upper_unreserved. apply Z.mod_pos_bound. lia.
Qed.

Lemma encoded_length s :
  (length (c_str s) ≤ length (buf_add_pct_encoded s)
   ≤ 3 * length (c_str s))%nat.
Proof.
  induction s as [|c s IH]; cbn [buf_add_pct_encoded c_str]; [done|].
  destruct (decide (c = x00)); [done|].
  destruct (ipc_pct_is_unreserved c); cbn [length app fmt_02X]; lia.
Qed.

End EncoderProperties.

(** X16: whatever the bytes of a name, its percent-encoding consists of
    unreserved bytes and percent signs only: it holds no whitespace, no
    line feed, no [=] and no NUL, so it is one token of its response
    line. It has between one and three bytes for every byte of the
    name. *)
Theorem pct_encoded_alphabet (s : list byte) :
  Forall (λ c, (ipc_pct_is_unreserved c = true ∨ c = x25)
               ∧ isspace c = false ∧ c ≠ x3d ∧ c ≠ x00)
    (buf_add_pct_encoded s)
  ∧ (length (c_str s) ≤ length (buf_add_pct_encoded s)
     ≤ 3 * length (c_str s))%nat.
Proof.
  split; [|apply encoded_length].
  eapply List.Forall_impl; [|apply encoded_unreserved].
  intros c Hc. split; [done|]. by apply unreserved_plain.
Qed.

Section DecoderProperties.

Lemma decode_length_aux n : ∀ s out,
  (length s ≤ n)%nat →
  ipc_pct_decode_inplace s = Some out →
  (length out + 2 * length (filter (λ c, c = x25) (c_str s))
   = length (c_str s))%nat
  ∧ (x25 ∉ c_str s → out = c_str s).
Proof.
  induction n as [|n IH]; intros s out Hlen Hdec.
  { destruct s; [|cbn in Hlen; lia]. cbn in Hdec. by simplify_eq. }
  destruct s as [|c rest]; [cbn in Hdec; by simplify_eq|].
  cbn [ipc_pct_decode_inplace c_str] in *.
  destruct (decide (c = x00)); [by simplify_eq|].
  destruct (decide (c = x25)) as [->|Hpct].
  - rewrite bool_decide_true in Hdec by done. cbn [negb] in Hdec.
    destruct rest as [|c1 [|c2 rest']]; [done..|].
    destruct (decide (c1 = x00)) as [->|Hc1]; [done|].
    destruct (decide (c2 = x00)) as [->|Hc2];
      [by rewrite bool_decide_false in Hdec by done|].
    rewrite !bool_decide_false in Hdec by done. cbn [orb] in Hdec.
    destruct ((ipc_hex_nibble c1 <? 0) || (ipc_hex_nibble c2 <? 0)) eqn:Hnib;
      [done|].
    apply orb_false_iff in Hnib as [Hn1 Hn2].
    destruct (ipc_pct_decode_inplace rest') as [out'|] eqn:Hrest; [|done].
    cbn in Hdec. simplify_eq.
    destruct (IH rest' out') as [Hl _]; [cbn in Hlen; lia|done|].
    assert (c1 ≠ x25) as Hp1 by (intros ->; done).
    assert (c2 ≠ x25) as Hp2 by (intros ->; done).
    cbn [c_str]. rewrite !decide_False by done.
    rewrite filter_cons_True by done.
    rewrite !filter_cons_False by done.
    split; [cbn [length]; lia|].
    intros Hno. exfalso. apply Hno. by left.
  - rewrite bool_decide_false in Hdec by done. cbn [negb] in Hdec.
    destruct (ipc_pct_decode_inplace rest) as [out'|] eqn:Hrest; [|done].
    cbn in Hdec. simplify_eq.
    destruct (IH rest out') as [Hl Hid]; [cbn in Hlen; lia|done|].
    rewrite filter_cons_False by done.
    split; [cbn [length]; lia|].
    intros Hno. apply not_elem_of_cons in Hno as [_ Hno].
    by rewrite Hid.
Qed.

End DecoderProperties.

(** X17: when the decoder accepts a string, every percent sign of the
    string starts an escape of three bytes that gives one byte: the result
    is shorter than the string by twice the number of its percent signs.
    So the write position never passes the read position of the in-place
    decoding, and a string without a percent sign is left as it is. *)
Theorem pct_decode_length (s out : list byte) :
  ipc_pct_decode_inplace s = Some out →
  (length out + 2 * length (filter (λ c, c = x25) (c_str s))
   = length (c_str s))%nat
  ∧ (length out ≤ length (c_str s))%nat
  ∧ (x25 ∉ c_str s → out = c_str s).
Proof.
  intros Hdec.
  destruct (decode_length_aux (length s) s out) as [Hl Hid]; [done..|].
  split_and!; [done|lia|done].
Qed.

Lemma pct_decode_length_witness :
  (length [x61; x20; x62]
   + 2 * length (filter (λ c, c = x25) (c_str (str "a%20b")))
   = length (c_str (str "a%20b")))%nat
  ∧ (length [x61; x20; x62] ≤ length (c_str (str "a%20b")))%nat
  ∧ (x25 ∉ c_str (str "a%20b") → [x61; x20; x62] = c_str (str "a%20b")).
Proof. apply pct_decode_length. reflexivity. Defined.

Section ConnectionProperties.

Context {action : Type}.
Variable action_create : list byte → option action.
Variable action_arg_add_str : action → list byte → list byte → action.
Variable action_is_valid : action → bool.
Variable actions_run : server → action → server.
Variable handle_query_views : server → list byte.
Variable handle_query_views_json : server → list byte.
Variable handle_query_workspaces_json : server → list byte.

Local Abbreviation handle_command' :=
  (handle_command action_create action_arg_add_str action_is_valid
     actions_run handle_query_views handle_query_views_json
     handle_query_workspaces_json).
Local Abbreviation handle_line' :=
  (handle_line action_create action_arg_add_str action_is_valid
     actions_run handle_query_views handle_query_views_json
     handle_query_workspaces_json).
Local Abbreviation dispatch_lines' :=
  (dispatch_lines action_create action_arg_add_str action_is_valid
     actions_run handle_query_views handle_query_views_json
     handle_query_workspaces_json).
Local Abbreviation handle_client_readable' :=
  (handle_client_readable action_create action_arg_add_str action_is_valid
     actions_run handle_query_views handle_query_views_json
     handle_query_workspaces_json).

(** A command reads nothing of the client: it hands the client on, with
    the subscription set by [subscribe-events]. *)
Lemma handle_command_client s line :
  ∃ s' sub reply,
    (∀ cl, handle_command' s cl line
           = (s', if sub : bool then set_subscribed true cl else cl, reply)).
Proof.
  unfold handle_command.
  destruct (dispatch line) as [| | | | | | |name|name index|index|toks].
  1-2, 4-7: by eexists _, false, _.
  - by eexists _, true, _.
  - destruct (if bool_decide (default [] name = []) then _ else _)
      as [decoded|]; [|by eexists _, false, _].
    destruct (workspaces_add_named decoded s) as [s' []];
      by eexists _, false, _.
  - destruct ((index <? 1) || bool_decide (default [] name = []));
      [by eexists _, false, _|].
    destruct (ipc_pct_decode_inplace (default [] name)) as [decoded|];
      [|by eexists _, false, _].
    destruct (workspaces_rename_index index (c_str decoded) s) as [s' []];
      by eexists _, false, _.
  - destruct (index <? 1); [by eexists _, false, _|].
    destruct (workspaces_remove_index index s) as [s' []];
      by eexists _, false, _.
  - destruct toks as [|action_name args]; [by eexists _, false, _|].
    destruct (action_create action_name) as [a|]; [|by eexists _, false, _].
    destruct (negb (action_is_valid _)); by eexists _, false, _.
Qed.

(** The line loop on another receive buffer and after other replies. *)
Lemma dispatch_lines_frame b o buf : ∀ s client out cur,
  dispatch_lines' (s, set_recv_buf b client, o ++ out) cur buf
  = let '(s', client', out', rest) :=
      dispatch_lines' (s, client, out) cur buf in
    (s', set_recv_buf b client', o ++ out', rest).
Proof.
  induction buf as [|c buf IH]; intros s client out cur; [done|].
  cbn [dispatch_lines]. destruct (decide (c = x0a)); [|apply IH].
  unfold handle_line.
  destruct (handle_command_client s cur) as (s' & sub & reply & Hcmd).
  rewrite !Hcmd. rewrite <- app_assoc.
  destruct sub; [|apply IH].
  apply (IH s' (set_subscribed true client)).
Qed.

(** The line loop keeps the subscription of a subscribed client. *)
Lemma dispatch_lines_subscribed buf : ∀ s client out cur s' client' out' rest,
  dispatch_lines' (s, client, out) cur buf = (s', client', out', rest) →
  subscribed_events client = true → subscribed_events client' = true.
Proof.
  induction buf as [|c buf IH];
    intros s client out cur s' client' out' rest Hloop Hsub.
  { cbn in Hloop. by simplify_eq. }
  cbn [dispatch_lines] in Hloop.
  destruct (decide (c = x0a)); [|by eapply IH].
  unfold handle_line in Hloop.
  destruct (handle_command_client s cur) as (s1 & sub & reply & Hcmd).
  rewrite Hcmd in Hloop. eapply IH; [done|]. by destruct sub.
Qed.

(** What the line loop leaves is the end of its input after the last line
    feed. *)
Lemma dispatch_lines_rest buf : ∀ st cur st' rest,
  dispatch_lines' st cur buf = (st', rest) →
  x0a ∉ cur →
  (x0a ∉ rest) ∧ rest `suffix_of` (cur ++ buf).
Proof.
  induction buf as [|c buf IH]; intros st cur st' rest Hloop Hcur.
  { cbn in Hloop. simplify_eq. by rewrite app_nil_r. }
  cbn [dispatch_lines] in Hloop.
  destruct (decide (c = x0a)) as [->|Hc].
  - destruct (IH _ _ _ _ Hloop) as [Hlf Hsuf]; [apply not_elem_of_nil|].
    split; [done|]. cbn [app] in Hsuf.
    etrans; [done|]. apply suffix_app_r. by apply suffix_cons_r.
  - destruct (IH _ _ _ _ Hloop) as [Hlf Hsuf].
    { rewrite not_elem_of_app, not_elem_of_cons. split_and!; try done.
      apply not_elem_of_nil. }
    split; [done|]. by rewrite <- app_assoc in Hsuf.
Qed.

(** The line loop cuts its input after the last line feed: what comes
    before the cut is empty or ends in a line feed, and what is left
    holds none. *)
Lemma dispatch_lines_split buf : ∀ st cur st' rest,
  dispatch_lines' st cur buf = (st', rest) →
  x0a ∉ cur →
  ∃ pre, cur ++ buf = pre ++ rest
         ∧ (pre = [] ∨ list.last pre = Some x0a)
         ∧ (x0a ∉ rest).
Proof.
  induction buf as [|c buf IH]; intros st cur st' rest Hloop Hcur.
  { cbn in Hloop. simplify_eq. exists []. rewrite app_nil_r.
    split_and!; [done|by left|done]. }
  cbn [dispatch_lines] in Hloop.
  destruct (decide (c = x0a)) as [->|Hc].
  - destruct (IH _ _ _ _ Hloop) as (pre & Hbuf & Hpre & Hlf);
      [apply not_elem_of_nil|].
    cbn [app] in Hbuf. exists (cur ++ x0a :: pre).
    split_and!; [by rewrite Hbuf, <- app_assoc| |done].
    right. destruct Hpre as [->|Hlast]; [apply last_snoc|].
    rewrite last_app_cons. by rewrite last_cons, Hlast.
  - destruct (IH _ _ _ _ Hloop) as (pre & Hbuf & Hpre & Hlf).
    { rewrite not_elem_of_app, not_elem_of_cons. split_and!; try done.
      apply not_elem_of_nil. }
    exists pre. rewrite <- app_assoc in Hbuf. by split_and!.
Qed.

(** The line loop on an input given in two parts. *)
Lemma dispatch_lines_app a : ∀ b st cur,
  dispatch_lines' st cur (a ++ b)
  = let '(st', rest) := dispatch_lines' st cur a in
    dispatch_lines' st' rest b.
Proof.
  induction a as [|c a IH]; intros b st cur; [done|].
  cbn [app dispatch_lines]. destruct (decide (c = x0a)); apply IH.
Qed.

(** A partial line handed back to the line loop. *)
Lemma dispatch_lines_cur cur : ∀ st pre buf,
  x0a ∉ cur →
  dispatch_lines' st pre (cur ++ buf) = dispatch_lines' st (pre ++ cur) buf.
Proof.
  induction cur as [|c cur IH]; intros st pre buf Hlf.
  { by rewrite app_nil_r. }
  apply not_elem_of_cons in Hlf as [Hc Hcur].
  cbn [app dispatch_lines]. rewrite decide_False by done.
  rewrite IH by done. by rewrite <- app_assoc.
Qed.

Lemma c_str_app_nul_free a b : x00 ∉ a → c_str (a ++ b) = a ++ c_str b.
Proof.
  induction a as [|c a IH]; intros Hnul; [done|].
  apply not_elem_of_cons in Hnul as [Hc Ha].
  cbn. rewrite decide_False by done. by rewrite IH.
Qed.

Lemma c_str_nul_free_out l : x00 ∉ c_str l.
Proof.
  induction l as [|c l IH]; cbn; [apply not_elem_of_nil|].
  destruct (decide (c = x00)); [apply not_elem_of_nil|].
  by apply not_elem_of_cons.
Qed.

Lemma c_str_length l : (length (c_str l) ≤ length l)%nat.
Proof.
  induction l as [|c l IH]; cbn; [done|].
  destruct (decide (c = x00)); cbn; lia.
Qed.

(** X18: a connection that survives a read keeps in its receive buffer
    exactly the bytes after the last line feed of what it had and what it
    read: the accumulated input is cut into a part that is empty or ends
    in a line feed, which is handled, and the part after it, which holds
    no line feed and is what the buffer keeps. The kept part is within
    the size limit and, as the buffer is extended by C strings only,
    without a NUL. *)
Theorem recv_buf_invariant
    (s : server) (client : ipc_client) (data : list byte)
    (s' : server) (client' : ipc_client) (out : list byte) :
  handle_client_readable' s client (ReadData data)
  = (s', Some client', out) →
  ∃ handled,
    recv_buf client ++ c_str data = handled ++ recv_buf client'
    ∧ (handled = [] ∨ list.last handled = Some x0a)
    ∧ (x0a ∉ recv_buf client')
    ∧ Z.of_nat (length (recv_buf client')) ≤ IPC_MAX_RECV_BUF
    ∧ (x00 ∉ recv_buf client → x00 ∉ recv_buf client').
Proof.
  unfold handle_client_readable.
  destruct (decide _) as [|Hlen]; [done|].
  destruct (dispatch_lines' _ _ _) as [[[s1 client1] out1] rest] eqn:Hloop.
  intros [= <- <- <-].
  destruct (dispatch_lines_split _ _ _ _ _ Hloop)
    as (handled & Hcut & Hhandled & Hlf); [apply not_elem_of_nil|].
  cbn [app] in Hcut. cbn [set_recv_buf recv_buf].
  exists handled. split_and!; [done..| |].
  - apply (f_equal length) in Hcut. rewrite !length_app in Hcut.
    rewrite length_app in Hlen. lia.
  - intros Hnul Hin.
    assert (x00 ∈ recv_buf client ++ c_str data) as Hin'
      by (rewrite Hcut, elem_of_app; by right).
    apply elem_of_app in Hin' as [?|Hin']; [done|].
    by apply c_str_nul_free_out in Hin'.
Qed.

(** X19: how the byte stream of a connection is cut into reads does not
    matter. Within the size limit, reading [d1] and then [d2] has the
    effect of reading [d1 ++ d2] at once: the same server, the same
    connection with the same partial line, and the same bytes sent. *)
Theorem reads_can_be_split
    (s : server) (client : ipc_client) (d1 d2 : list byte) :
  x00 ∉ d1 →
  Z.of_nat (length (recv_buf client ++ d1 ++ c_str d2)) ≤ IPC_MAX_RECV_BUF →
  ∃ s1 client1 out1,
    handle_client_readable' s client (ReadData d1)
    = (s1, Some client1, out1)
    ∧ handle_client_readable' s client (ReadData (d1 ++ d2))
      = let '(s2, client2, out2) :=
          handle_client_readable' s1 client1 (ReadData d2) in
        (s2, client2, out1 ++ out2).
Proof.
  intros Hnul Hlen. unfold handle_client_readable.
  rewrite c_str_app_nul_free, (c_str_nul_free d1) by done.
  rewrite !length_app in Hlen.
  rewrite decide_False by (rewrite length_app; lia).
  rewrite decide_False by (rewrite !length_app; lia).
  rewrite (app_assoc (recv_buf client)).
  rewrite (dispatch_lines_app (recv_buf client ++ d1) (c_str d2)).
  destruct (dispatch_lines' _ _ (recv_buf client ++ d1))
    as [[[s1 client1] out1] rest1] eqn:Hloop1.
  destruct (dispatch_lines_rest _ _ _ _ _ Hloop1) as [Hlf Hsuf];
    [apply not_elem_of_nil|].
  cbn [app] in Hsuf. apply suffix_length in Hsuf. rewrite length_app in Hsuf.
  eexists _, _, _. split; [done|].
  cbn [set_recv_buf recv_buf subscribed_events].
  rewrite decide_False by (rewrite length_app; lia).
  rewrite dispatch_lines_cur by done. cbn [app].
  pose proof (dispatch_lines_frame rest1 [] (c_str d2) s1 client1 [] rest1)
    as Htwo.
  pose proof (dispatch_lines_frame (recv_buf client1) out1 (c_str d2) s1
                client1 [] rest1) as Hone.
  destruct client1 as [sub1 buf1]. unfold set_recv_buf in *.
  cbn [recv_buf subscribed_events app] in *.
  rewrite app_nil_r in Hone. rewrite Htwo, Hone.
  by destruct (dispatch_lines' (s1, IpcClient sub1 buf1, []) rest1
                 (c_str d2)) as [[[s2 client2] out2] rest2].
Qed.

(** X20: a subscription lasts as long as the connection: no command and
    no read clears it. *)
Theorem subscription_permanent
    (s : server) (client : ipc_client) (ev : readable)
    (s' : server) (client' : ipc_client) (out : list byte) :
  handle_client_readable' s client ev = (s', Some client', out) →
  subscribed_events client = true →
  subscribed_events client' = true.
Proof.
  unfold handle_client_readable. destruct ev as [| | |data]; try done.
  { by intros [= <- <- <-]. }
  destruct (decide _) as [|Hlen]; [done|].
  destruct (dispatch_lines' _ _ _) as [[[s1 client1] out1] rest] eqn:Hloop.
  intros [= <- <- <-] Hsub. cbn [set_recv_buf subscribed_events].
  by eapply dispatch_lines_subscribed.
Qed.

End ConnectionProperties.

Lemma recv_buf_invariant_witness :
  ∃ handled,
    str "pi" ++ c_str (str "ng" ++ [x0a] ++ str "li")
    = handled ++ str "li"
    ∧ (handled = [] ∨ list.last handled = Some x0a)
    ∧ (x0a ∉ str "li")
    ∧ Z.of_nat (length (str "li")) ≤ IPC_MAX_RECV_BUF
    ∧ (x00 ∉ str "pi" → x00 ∉ str "li").
Proof.
  apply (recv_buf_invariant no_action_create no_action_arg_add_str
           no_action_is_valid no_actions_run no_payload no_payload
           no_payload registry_ABC (IpcClient false (str "pi"))
           (str "ng" ++ [x0a] ++ str "li") registry_ABC
           (IpcClient false (str "li")) (str "OK" ++ [x0a])).
  reflexivity.
Defined.

Lemma reads_can_be_split_witness :
  ∃ s1 client1 out1,
    example_handle_client_readable registry_ABC fresh_client
      (ReadData (str "ping" ++ [x0a] ++ str "li"))
    = (s1, Some client1, out1)
    ∧ example_handle_client_readable registry_ABC fresh_client
        (ReadData ((str "ping" ++ [x0a] ++ str "li")
                   ++ (str "st-workspaces" ++ [x0a])))
      = let '(s2, client2, out2) :=
          example_handle_client_readable s1 client1
            (ReadData (str "st-workspaces" ++ [x0a])) in
        (s2, client2, out1 ++ out2).
Proof.
  apply (reads_can_be_split no_action_create no_action_arg_add_str
           no_action_is_valid no_actions_run no_payload no_payload
           no_payload registry_ABC fresh_client).
  - by apply (bool_decide_unpack _).
  - by vm_compute.
Defined.

Lemma subscription_permanent_witness :
  subscribed_events (IpcClient true (str "li")) = true.
Proof.
  apply (subscription_permanent no_action_create no_action_arg_add_str
           no_action_is_valid no_actions_run no_payload no_payload
           no_payload registry_ABC (IpcClient true (str "pi"))
           (ReadData (str "ng" ++ [x0a] ++ str "li")) registry_ABC
           (IpcClient true (str "li")) (str "OK" ++ [x0a])).
  - reflexivity.
  - reflexivity.
Defined.

Section ResponseProperties.

Local Abbreviation digits_of d := (str (NilEmpty.string_of_uint d)).

Lemma digits_of_digits d : Forall (λ c, isdigit c = true) (digits_of d).
Proof.
  induction d as [|d IH|d IH|d IH|d IH|d IH|d IH|d IH|d IH|d IH|d IH];
    [done|..];
    cbn [NilEmpty.string_of_uint];
    change (str (String ?a ?s)) with (Ascii.byte_of_ascii a :: str s);
    by constructor.
Qed.

(** What [%d] prints: digits, after a minus sign for a negative number. *)
Lemma fmt_d_bytes z : Forall (λ c, isdigit c = true ∨ c = x2d) (fmt_d z).
Proof.
  destruct z as [|p|p].
  - by repeat constructor.
  - rewrite fmt_d_pos. eapply List.Forall_impl; [|apply digits_of_digits].
    intros c Hc. by left.
  - rewrite fmt_d_neg. constructor; [by right|].
    eapply List.Forall_impl; [|apply digits_of_digits].
    intros c Hc. by left.
Qed.

Lemma digit_or_minus_printable c :
  isdigit c = true ∨ c = x2d → 32 ≤ byte_val c ∧ is_delim c = false.
Proof. by destruct c; intros [?|?]. Qed.

Lemma hex_digit_lower_printable d :
  0 ≤ d < 16 → 32 ≤ byte_val (hex_digit_lower d).
Proof.
  intros Hd.
  assert (d = 0 ∨ d = 1 ∨ d = 2 ∨ d = 3 ∨ d = 4 ∨ d = 5 ∨ d = 6 ∨ d = 7
          ∨ d = 8 ∨ d = 9 ∨ d = 10 ∨ d = 11 ∨ d = 12 ∨ d = 13 ∨ d = 14
          ∨ d = 15) as Hcases by lia.
  by repeat destruct Hcases as [->|Hcases]; [..|subst d].
Qed.

(** Every byte that stands for a byte of a JSON string is printable. *)
Lemma json_escape_printable c :
  Forall (λ b, 32 ≤ byte_val b) (json_escape c).
Proof. destruct c; by repeat constructor. Qed.

Lemma json_string_body_printable s :
  Forall (λ b, 32 ≤ byte_val b) (json_string_body s).
Proof.
  induction s as [|c s IH]; cbn [json_string_body]; [done|].
  destruct (decide (c = x00)); [done|].
  apply Forall_app. split; [apply json_escape_printable|done].
Qed.

Lemma json_string_printable s :
  Forall (λ b, 32 ≤ byte_val b) (buf_add_json_string s).
Proof.
  unfold buf_add_json_string. rewrite !Forall_app.
  split_and!; [by repeat constructor|apply json_string_body_printable|].
  by repeat constructor.
Qed.

Lemma fmt_d_printable z : Forall (λ b, 32 ≤ byte_val b) (fmt_d z).
Proof.
  eapply List.Forall_impl; [|apply fmt_d_bytes].
  intros c Hc. by apply digit_or_minus_printable.
Qed.

End ResponseProperties.

(** X22: the JSON form of the workspace list is one line: whatever the
    names of the workspaces, every control byte of a name being escaped,
    the response holds no byte below 0x20 except the line feed that ends
    it. *)
Theorem workspaces_json_one_line (s : server) :
  ∃ body,
    handle_query_workspaces_json s = body ++ [x0a]
    ∧ Forall (λ b, 32 ≤ byte_val b) body.
Proof.
  unfold handle_query_workspaces_json.
  eexists. split.
  { rewrite !app_assoc. reflexivity. }
  rewrite !Forall_app.
  split_and!;
    try apply json_string_printable; try apply fmt_d_printable;
    try (by repeat constructor).
  apply Forall_concat, list.Forall_forall.
  intros line (i & w & -> & _)%elem_of_lookup_imap.
  rewrite !Forall_app.
  split_and!;
    try apply json_string_printable; try apply fmt_d_printable;
    try (by repeat constructor).
  - by destruct (decide _); repeat constructor.
  - by destruct (decide _); repeat constructor.
Qed.

Section TokenProperties.

Lemma split_on_not_nil p l : split_on p l ≠ [].
Proof.
  destruct l as [|c l]; cbn; [done|].
  destruct (p c); [done|]. by destruct (split_on p l).
Qed.

(** A separator ends a piece and starts the next. *)
Lemma split_on_app p a d b :
  p d = true → split_on p (a ++ d :: b) = split_on p a ++ split_on p b.
Proof.
  intros Hd. induction a as [|c a IH]; cbn [app split_on].
  - by rewrite Hd.
  - rewrite IH. destruct (p c); [done|].
    pose proof (split_on_not_nil p a). by destruct (split_on p a).
Qed.

Lemma split_on_whole p t :
  Forall (λ c, p c = false) t → split_on p t = [t].
Proof.
  induction 1 as [|c t Hc _ IH]; cbn [split_on]; [done|].
  by rewrite Hc, IH.
Qed.

Lemma strtok_all_app a b :
  strtok_all (a ++ x20 :: b) = strtok_all a ++ strtok_all b.
Proof.
  unfold strtok_all. by rewrite split_on_app, list.filter_app.
Qed.

(** A non-empty string without a separator is one token. *)
Lemma strtok_all_whole t :
  t ≠ [] → Forall (λ c, is_delim c = false) t → strtok_all t = [t].
Proof.
  intros Hne Ht. unfold strtok_all.
  rewrite split_on_whole by done. by rewrite filter_cons_True.
Qed.

Lemma encoded_no_delim s :
  Forall (λ c, is_delim c = false ∧ c ≠ x0a) (buf_add_pct_encoded s).
Proof.
  eapply List.Forall_impl; [|apply encoded_unreserved].
  intros c Hc. by destruct c, Hc.
Qed.

Lemma fmt_d_no_delim z :
  Forall (λ c, is_delim c = false ∧ c ≠ x0a) (fmt_d z).
Proof.
  eapply List.Forall_impl; [|apply fmt_d_bytes].
  intros c Hc. by destruct c, Hc.
Qed.

(** Decoding an encoded name gives the C string of the name back, also in
    front of further input. *)
Lemma decode_encode_app s t :
  x00 ∉ s →
  ipc_pct_decode_inplace (buf_add_pct_encoded s ++ t)
  = (s ++.) <$> ipc_pct_decode_inplace t.
Proof.
  induction s as [|c s IH]; intros Hnul.
  { cbn [buf_add_pct_encoded app]. by destruct (ipc_pct_decode_inplace t). }
  apply not_elem_of_cons in Hnul as [Hc Hs].
  cbn [buf_add_pct_encoded]. rewrite decide_False by done.
  destruct (ipc_pct_is_unreserved c) eqn:Hun.
  - cbn [app ipc_pct_decode_inplace]. rewrite decide_False by done.
    rewrite bool_decide_false by by apply unreserved_not_percent.
    cbn [negb]. rewrite IH by done.
    by destruct (ipc_pct_decode_inplace t).
  - cbn [app]. rewrite <- app_assoc, decode_escape by done.
    rewrite IH by done. by destruct (ipc_pct_decode_inplace t).
Qed.

End TokenProperties.

(** X21: the response to [list-workspaces] has a line for every workspace
    between its two header lines and the final [END], none of them
    holding a line feed of its own. Whatever the name of the workspace,
    its line has exactly four tokens, the third being [name=] and the
    encoded name, and decoding that name gives the C string of the name
    back. *)
Theorem list_workspaces_lines (s : server) :
  ∃ lines,
    handle_query_workspaces s = concat ((λ l, l ++ [x0a]) <$> lines)
    ∧ length lines = (length (workspaces_all s) + 3)%nat
    ∧ Forall (λ l, x0a ∉ l) lines
    ∧ list.last lines = Some (str "END")
    ∧ (∀ i w, workspaces_all s !! i = Some w →
         ∃ l, lines !! (i + 2)%nat = Some l
              ∧ strtok_all l
                = [str "workspace";
                   str "index=" ++ fmt_d (Z.of_nat (S i));
                   str "name=" ++ buf_add_pct_encoded (ws_name w);
                   str "active="
                   ++ fmt_d (if decide (ws_id w = workspaces_current s)
                             then 1 else 0)])
    ∧ (∀ w, w ∈ workspaces_all s → x00 ∉ ws_name w →
         ipc_pct_decode_inplace (buf_add_pct_encoded (ws_name w))
         = Some (ws_name w)).
Proof.
  set (line := λ (i : nat) (ws : workspace),
         str "workspace" ++ x20 :: (str "index=" ++ fmt_d (Z.of_nat (S i)))
         ++ x20 :: (str "name=" ++ buf_add_pct_encoded (ws_name ws))
         ++ x20 :: (str "active="
                    ++ fmt_d (if decide (ws_id ws = workspaces_current s)
                              then 1 else 0))).
  exists ([str "current="
             ++ fmt_d (workspace_index s (Some (workspaces_current s)));
           str "encoding=percent"]
          ++ imap line (workspaces_all s) ++ [str "END"]).
  split_and!.
  - unfold handle_query_workspaces.
    rewrite !fmap_app, !concat_app, fmap_imap. cbn [fmap list_fmap concat].
    rewrite <- !app_assoc. rewrite app_nil_r, app_nil_l.
    do 5 (apply f_equal2; [done|]). apply f_equal2; [|done].
    f_equal. apply imap_ext. intros i w _. unfold line. cbn.
    by repeat (rewrite <- app_assoc; cbn [app]).
  - rewrite !length_app, length_imap. cbn. lia.
  - rewrite !Forall_app. split_and!.
    + repeat constructor.
      rewrite not_elem_of_app. split; [by apply (bool_decide_unpack _)|].
      intros Hin.
      pose proof (fmt_d_no_delim (workspace_index s
                                    (Some (workspaces_current s)))) as Hd.
      rewrite list.Forall_forall in Hd. by destruct (Hd _ Hin).
      by apply (bool_decide_unpack _).
    + apply list.Forall_forall.
      intros l (i & w & -> & _)%elem_of_lookup_imap. unfold line.
      assert (∀ z, x0a ∉ fmt_d z) as Hfmt.
      { intros z Hin. pose proof (fmt_d_no_delim z) as Hd.
        rewrite list.Forall_forall in Hd. by destruct (Hd _ Hin). }
      assert (∀ n, x0a ∉ buf_add_pct_encoded n) as Henc.
      { intros n Hin. pose proof (encoded_no_delim n) as Hd.
        rewrite list.Forall_forall in Hd. by destruct (Hd _ Hin). }
      repeat first [rewrite not_elem_of_app|rewrite not_elem_of_cons].
      split_and!; try apply Hfmt; try apply Henc; try done;
        by apply (bool_decide_unpack _).
    + repeat constructor. by apply (bool_decide_unpack _).
  - by rewrite app_assoc, last_snoc.
  - intros i w Hw. exists (line i w). split.
    + rewrite lookup_app_r by (cbn; lia).
      rewrite lookup_app_l by (rewrite length_imap; cbn;
                               apply lookup_lt_Some in Hw; lia).
      rewrite list_lookup_imap.
      replace (i + 2 - length _)%nat with i by (cbn; lia).
      by rewrite Hw.
    + unfold line. rewrite !strtok_all_app.
      assert (∀ pre z, pre ≠ [] → Forall (λ c, is_delim c = false) pre →
                strtok_all (pre ++ fmt_d z) = [pre ++ fmt_d z]) as Hfmt.
      { intros pre z Hne Hpre. apply strtok_all_whole; [by destruct pre|].
        apply Forall_app. split; [done|].
        eapply List.Forall_impl; [|apply fmt_d_no_delim]. by intros c []. }
      rewrite !Hfmt by (try done; by repeat constructor).
      rewrite (strtok_all_whole (str "name=" ++ _)); [done..|].
      apply Forall_app. split; [by repeat constructor|].
      eapply List.Forall_impl; [|apply encoded_no_delim]. by intros c [].
  - intros w _ Hnul.
    pose proof (decode_encode_app (ws_name w) [] Hnul) as Hdec.
    rewrite app_nil_r in Hdec. rewrite Hdec. cbn. by rewrite app_nil_r.
Qed.

Section EncodedCommandProperties.

Context {action : Type}.
Variable action_create : list byte → option action.
Variable action_arg_add_str : action → list byte → list byte → action.
Variable action_is_valid : action → bool.
Variable actions_run : server → action → server.
Variable handle_query_views : server → list byte.
Variable handle_query_views_json : server → list byte.
Variable handle_query_workspaces_json : server → list byte.

Local Abbreviation handle_command' :=
  (handle_command action_create action_arg_add_str action_is_valid
     actions_run handle_query_views handle_query_views_json
     handle_query_workspaces_json).

Lemma lstrip_keeps p l :
  (∀ c, head l = Some c → p c = false) → lstrip p l = l.
Proof. destruct l as [|c l]; [done|]. intros Hc. cbn. by rewrite Hc. Qed.

(** A line without whitespace at its ends is left as it is. *)
Lemma string_strip_keeps l :
  (∀ c, head l = Some c → isspace c = false) →
  (∀ c, list.last l = Some c → isspace c = false) →
  string_strip l = l.
Proof.
  intros Hhead Hlast. unfold string_strip.
  rewrite rstrip_keeps by done. by apply lstrip_keeps.
Qed.

Lemma last_app_encoded pre n c :
  pre ≠ [] →
  (∀ d, list.last pre = Some d → isspace d = false) →
  list.last (pre ++ buf_add_pct_encoded n) = Some c → isspace c = false.
Proof.
  intros Hpre Hd Hlast.
  destruct (buf_add_pct_encoded n) as [|e l] eqn:Henc.
  - rewrite app_nil_r in Hlast. by apply Hd.
  - rewrite last_app_cons in Hlast.
    apply last_Some_elem_of in Hlast.
    pose proof (encoded_unreserved n) as Hall.
    rewrite Henc, list.Forall_forall in Hall.
    by destruct (unreserved_plain c (Hall c Hlast)).
Qed.

Lemma last_app_fmt_d pre z c :
  list.last (pre ++ fmt_d z) = Some c → isspace c = false.
Proof.
  pose proof (fmt_d_not_empty z) as Hne.
  destruct (fmt_d z) as [|e l] eqn:Hfmt; [done|].
  rewrite last_app_cons. intros Hlast%last_Some_elem_of.
  pose proof (fmt_d_bytes z) as Hall.
  rewrite Hfmt, list.Forall_forall in Hall.
  by destruct c, (Hall _ Hlast).
Qed.

Lemma encoded_not_empty n :
  n ≠ [] → x00 ∉ n → buf_add_pct_encoded n ≠ [].
Proof.
  destruct n as [|c n]; [done|]. intros _ [Hc _]%not_elem_of_cons.
  cbn [buf_add_pct_encoded]. rewrite decide_False by done.
  by destruct (ipc_pct_is_unreserved c).
Qed.

(** A line that starts with [w] is none of the six queries. *)
Lemma workspace_line_no_query line rest :
  string_strip line = x77 :: rest →
  ∃ toks,
    toks = tail (strtok_all (string_strip line))
    ∧ dispatch line
      = (if strncaseeq (string_strip line) (str "workspace-add")
         then CmdWorkspaceAdd (foldl add_arg None toks)
         else if strncaseeq (string_strip line) (str "workspace-rename")
         then CmdWorkspaceRename (foldl rename_arg (None, 0) toks).1
                (foldl rename_arg (None, 0) toks).2
         else if strncaseeq (string_strip line) (str "workspace-remove")
         then CmdWorkspaceRemove (foldl remove_arg 0 toks)
         else CmdAction (strtok_all (string_strip line))).
Proof.
  intros Hline. eexists. split; [done|]. unfold dispatch. by rewrite Hline.
Qed.

Lemma decode_encoded n :
  x00 ∉ n → ipc_pct_decode_inplace (buf_add_pct_encoded n) = Some n.
Proof.
  intros Hnul. pose proof (decode_encode_app n [] Hnul) as Hdec.
  rewrite app_nil_r in Hdec. rewrite Hdec. cbn. by rewrite app_nil_r.
Qed.

Lemma encoded_token pre n :
  Forall (λ c, is_delim c = false) pre → pre ≠ [] →
  strtok_all (pre ++ buf_add_pct_encoded n) = [pre ++ buf_add_pct_encoded n].
Proof.
  intros Hpre Hne. apply strtok_all_whole; [by destruct pre|].
  apply Forall_app. split; [done|].
  eapply List.Forall_impl; [|apply encoded_no_delim]. by intros c [].
Qed.

Lemma fmt_d_token pre z :
  Forall (λ c, is_delim c = false) pre → pre ≠ [] →
  strtok_all (pre ++ fmt_d z) = [pre ++ fmt_d z].
Proof.
  intros Hpre Hne. apply strtok_all_whole; [by destruct pre|].
  apply Forall_app. split; [done|].
  eapply List.Forall_impl; [|apply fmt_d_no_delim]. by intros c [].
Qed.

Lemma fmt_d_no_eq z : x3d ∉ fmt_d z.
Proof.
  intros Hin. pose proof (fmt_d_bytes z) as Hd.
  rewrite list.Forall_forall in Hd. by destruct (Hd _ Hin).
Qed.

Lemma split_eq_app k v : x3d ∉ k → split_eq (k ++ x3d :: v) = Some (k, v).
Proof.
  induction k as [|c k IH]; intros Hk; cbn [app split_eq].
  - by rewrite decide_True.
  - apply not_elem_of_cons in Hk as [Hc Hk].
    rewrite decide_False by done. by rewrite IH.
Qed.

(** X23: a name as [list-workspaces] prints it can be given back. For a
    non-empty name [n] without a NUL, whatever its bytes, the command
    [workspace-add name=] followed by the encoding of [n] adds a workspace
    named [n], and [workspace-rename index=i name=] followed by the
    encoding of [n] gives the workspace at a valid position [i] the name
    [n]; both are answered OK. *)
Theorem encoded_name_commands
    (s : server) (client : ipc_client) (n : list byte) :
  n ≠ [] → x00 ∉ n →
  handle_command' s client (str "workspace-add name=" ++ buf_add_pct_encoded n)
  = ((workspaces_add_named n s).1, client, str "OK" ++ [x0a])
  ∧ ws_names (workspaces_add_named n s).1 = ws_names s ++ [n]
  ∧ (∀ i w,
       workspaces_all s !! i = Some w → Z.of_nat (S i) < 2 ^ 31 →
       handle_command' s client
         (str "workspace-rename index=" ++ fmt_d (Z.of_nat (S i))
          ++ str " name=" ++ buf_add_pct_encoded n)
       = ((workspaces_rename_index (Z.of_nat (S i)) n s).1, client,
          str "OK" ++ [x0a])).
Proof.
  intros Hne Hnul.
  pose proof (encoded_not_empty n Hne Hnul) as Henc.
  pose proof (decode_encoded n Hnul) as Hdec.
  split_and!.
  - set (line := str "workspace-add name=" ++ buf_add_pct_encoded n).
    assert (string_strip line = line) as Hstrip.
    { apply string_strip_keeps; [by intros c [= <-]|].
      intros c. unfold line. apply last_app_encoded; [done|].
      by intros d [= <-]. }
    unfold handle_command.
    destruct (workspace_line_no_query line
                (str "orkspace-add name=" ++ buf_add_pct_encoded n) Hstrip)
      as (toks & Htoks & ->).
    rewrite Hstrip in *.
    change (strncaseeq line (str "workspace-add")) with true. cbn match.
    change line with (str "workspace-add"
                      ++ x20 :: (str "name=" ++ buf_add_pct_encoded n))
      in Htoks.
    rewrite strtok_all_app, encoded_token in Htoks by by repeat constructor.
    rewrite (strtok_all_whole (str "workspace-add")) in Htoks
      by by repeat constructor.
    subst toks. cbn [app tail foldl]. unfold add_arg.
    change (str "name=" ++ buf_add_pct_encoded n)
      with (str "name" ++ x3d :: buf_add_pct_encoded n).
    rewrite (split_eq_app (str "name")) by by apply (bool_decide_unpack _).
    change (strcaseeq (str "name") (str "name")) with true. cbn match.
    cbn [from_option id]. rewrite bool_decide_false by done.
    rewrite Hdec. cbn [fmap option_fmap option_map].
    rewrite c_str_nul_free by done.
    destruct (add_named_effect n s Hne) as [Hok _].
    by destruct (workspaces_add_named n s) as [s' []].
  - destruct (add_named_effect n s Hne) as (_ & Hall & _).
    unfold ws_names. by rewrite Hall, fmap_app.
  - intros i w Hw Hint.
    set (z := Z.of_nat (S i)).
    set (line := str "workspace-rename index=" ++ fmt_d z
                 ++ str " name=" ++ buf_add_pct_encoded n).
    assert (string_strip line = line) as Hstrip.
    { apply string_strip_keeps; [by intros c [= <-]|].
      intros c. unfold line. rewrite !app_assoc.
      apply last_app_encoded; [by destruct (fmt_d z)|].
      intros d. change (str " name=") with (str " name" ++ [x3d]).
      rewrite app_assoc, last_snoc. by intros [= <-]. }
    assert (workspaces_rename_index z n s
            = ((workspaces_rename_index z n s).1, true)) as Hok.
    { unfold workspaces_rename_index. rewrite bool_decide_false by done.
      unfold workspace_by_index.
      replace (z <? 1) with false by (symmetry; apply Z.ltb_ge; lia).
      replace (Z.to_nat (z - 1)) with i by lia. rewrite Hw. cbn.
      by destruct (negb _). }
    unfold handle_command.
    destruct (workspace_line_no_query line
                (str "orkspace-rename index=" ++ fmt_d z
                 ++ str " name=" ++ buf_add_pct_encoded n) Hstrip)
      as (toks & Htoks & ->).
    rewrite Hstrip in *.
    change (strncaseeq line (str "workspace-add")) with false.
    change (strncaseeq line (str "workspace-rename")) with true.
    cbn match.
    change line with (str "workspace-rename"
                      ++ x20 :: (str "index=" ++ fmt_d z)
                      ++ x20 :: (str "name=" ++ buf_add_pct_encoded n))
      in Htoks.
    rewrite !strtok_all_app, encoded_token, fmt_d_token in Htoks
      by by repeat constructor.
    rewrite (strtok_all_whole (str "workspace-rename")) in Htoks
      by by repeat constructor.
    subst toks. cbn [app tail foldl]. unfold rename_arg.
    change (str "index=" ++ fmt_d z) with (str "index" ++ x3d :: fmt_d z).
    rewrite (split_eq_app (str "index")) by by apply (bool_decide_unpack _).
    change (strcaseeq (str "index") (str "name")) with false.
    change (strcaseeq (str "index") (str "index")) with true.
    cbn match. cbn [fst snd].
    change (str "name=" ++ buf_add_pct_encoded n)
      with (str "name" ++ x3d :: buf_add_pct_encoded n).
    rewrite (split_eq_app (str "name")) by by apply (bool_decide_unpack _).
    change (strcaseeq (str "name") (str "name")) with true. cbn match.
    cbn [fst snd from_option id].
    rewrite atoi_fmt_d by lia.
    replace (z <? 1) with false by (symmetry; apply Z.ltb_ge; lia).
    rewrite bool_decide_false by done. cbn [orb].
    rewrite Hdec, c_str_nul_free by done. by rewrite Hok.
Qed.

End EncodedCommandProperties.

Lemma encoded_name_commands_witness :
  example_handle_command registry_ABC fresh_client
    (str "workspace-add name=" ++ buf_add_pct_encoded (str "web docs"))
  = ((workspaces_add_named (str "web docs") registry_ABC).1, fresh_client,
     str "OK" ++ [x0a])
  ∧ ws_names (workspaces_add_named (str "web docs") registry_ABC).1
    = ws_names registry_ABC ++ [str "web docs"]
  ∧ (∀ i w,
       workspaces_all registry_ABC !! i = Some w → Z.of_nat (S i) < 2 ^ 31 →
       example_handle_command registry_ABC fresh_client
         (str "workspace-rename index=" ++ fmt_d (Z.of_nat (S i))
          ++ str " name=" ++ buf_add_pct_encoded (str "web docs"))
       = ((workspaces_rename_index (Z.of_nat (S i)) (str "web docs")
             registry_ABC).1, fresh_client, str "OK" ++ [x0a])).
Proof.
  apply (encoded_name_commands no_action_create no_action_arg_add_str
           no_action_is_valid no_actions_run no_payload no_payload
           no_payload registry_ABC fresh_client (str "web docs")).
  - done.
  - by apply (bool_decide_unpack _).
Defined.

(** X13: the index that [list-workspaces] prints is read back by
    [workspace-remove]: for every [int] [z], the line
    [workspace-remove index=] followed by [z] in decimal is taken for the
    removal of the workspace at index [z]. *)
Theorem remove_command_index (z : Z) :
  - 2 ^ 31 ≤ z < 2 ^ 31 →
  dispatch (str "workspace-remove index=" ++ fmt_d z) = CmdWorkspaceRemove z.
Proof.
  intros Hz.
  set (line := str "workspace-remove index=" ++ fmt_d z).
  assert (string_strip line = line) as Hstrip.
  { apply string_strip_keeps; [by intros c [= <-]|].
    intros c. apply last_app_fmt_d. }
  destruct (workspace_line_no_query line
              (str "orkspace-remove index=" ++ fmt_d z) Hstrip)
    as (toks & Htoks & ->).
  rewrite Hstrip in *.
  change (strncaseeq line (str "workspace-add")) with false.
  change (strncaseeq line (str "workspace-rename")) with false.
  change (strncaseeq line (str "workspace-remove")) with true.
  cbn match.
  change line with (str "workspace-remove"
                    ++ x20 :: (str "index=" ++ fmt_d z)) in Htoks.
  rewrite strtok_all_app, fmt_d_token in Htoks by by repeat constructor.
  rewrite (strtok_all_whole (str "workspace-remove")) in Htoks
    by by repeat constructor.
  subst toks. cbn [app tail foldl]. unfold remove_arg.
  change (str "index=" ++ fmt_d z) with (str "index" ++ x3d :: fmt_d z).
  rewrite (split_eq_app (str "index")) by by apply (bool_decide_unpack _).
  change (strcaseeq (str "index") (str "index")) with true. cbn match.
  by rewrite atoi_fmt_d.
Qed.

Lemma remove_command_index_witness :
  dispatch (str "workspace-remove index=" ++ fmt_d 2) = CmdWorkspaceRemove 2
  ∧ dispatch (str "workspace-remove index=" ++ fmt_d (-1))
    = CmdWorkspaceRemove (-1).
Proof. split; apply remove_command_index; lia. Defined.

Section ReconfigureProperties.

Lemma add_workspace_wf name s :
  registry_wf s → registry_wf (add_workspace name s).
Proof.
  intros [Hdup Hfresh Hmem Hlastmem].
  assert (ws_id <$> workspaces_all (add_workspace name s)
          = (ws_id <$> workspaces_all s) ++ [next_ws s]) as Hids
    by (cbn; by rewrite fmap_app).
  split; rewrite Hids.
  - apply list.NoDup_app. split_and!; [done| |apply NoDup_singleton].
    intros id Hid%Hfresh ->%list_elem_of_singleton. lia.
  - intros id [Hid%Hfresh| ->%list_elem_of_singleton]%elem_of_app; cbn; lia.
  - apply elem_of_app. by left.
  - intros id Hid. apply elem_of_app. left. by apply Hlastmem.
Qed.

Lemma add_workspace_visuals name s :
  registry_wf s → visuals_ok s → visuals_ok (add_workspace name s).
Proof.
  intros Hwf Hvis.
  intros w [Hw| ->%list_elem_of_singleton]%elem_of_app; [by apply Hvis|].
  cbn. rewrite bool_decide_false; [done|].
  intros Heq. pose proof (wf_fresh s Hwf _ (wf_current s Hwf)). lia.
Qed.

Lemma ids_set_name conf (j : nat) (l : list workspace) :
  ws_id <$> alter (set_name conf) j l = ws_id <$> l.
Proof.
  apply list_eq. intros i. rewrite !list_lookup_fmap.
  destruct (decide (i = j)) as [->|Hne].
  - rewrite list_lookup_alter_eq. by destruct (l !! j).
  - by rewrite list_lookup_alter_ne.
Qed.

Lemma names_set_name conf (j : nat) (l : list workspace) w :
  l !! j = Some w →
  ws_name <$> alter (set_name conf) j l = <[j:=conf]> (ws_name <$> l).
Proof.
  intros Hw. apply list_eq. intros i. rewrite list_lookup_fmap.
  destruct (decide (i = j)) as [->|Hne].
  - rewrite list_lookup_alter_eq, Hw. cbn.
    rewrite list_lookup_insert_eq; [done|].
    rewrite length_fmap. by eapply lookup_lt_Some.
  - rewrite list_lookup_alter_ne, list_lookup_insert_ne by done.
    by rewrite list_lookup_fmap.
Qed.

Lemma set_name_wf conf j s :
  registry_wf s →
  registry_wf (set_all (alter (set_name conf) j (workspaces_all s)) s).
Proof. apply registry_wf_same; [apply ids_set_name|done..]. Qed.

Lemma set_name_visuals conf j s :
  visuals_ok s →
  visuals_ok (set_all (alter (set_name conf) j (workspaces_all s)) s).
Proof.
  intros Hvis w (i & Hi)%list_elem_of_lookup_1. cbn in *.
  destruct (decide (i = j)) as [->|Hne].
  - rewrite list_lookup_alter_eq in Hi.
    destruct (workspaces_all s !! j) as [w'|] eqn:Hw'; [|done].
    injection Hi as <-. cbn. apply Hvis. by eapply list_elem_of_lookup_2.
  - rewrite list_lookup_alter_ne in Hi by done.
    apply Hvis. by eapply list_elem_of_lookup_2.
Qed.

(** The first loop keeps the invariants of the registry. *)
Lemma reconfigure_names_inv confs : ∀ lk ch s,
  registry_wf s → visuals_ok s →
  registry_wf (reconfigure_names confs lk ch s).1.1
  ∧ visuals_ok (reconfigure_names confs lk ch s).1.1.
Proof.
  induction confs as [|conf confs IH]; intros lk ch s Hwf Hvis; [done|].
  cbn [reconfigure_names]. destruct lk as [|j].
  - apply IH; [by apply add_workspace_wf|by apply add_workspace_visuals].
  - destruct (workspaces_all s !! j) as [w|]; [|done].
    destruct (negb _); [|by apply IH].
    apply IH; [by apply set_name_wf|by apply set_name_visuals].
Qed.

(** At the head of the list every further name is added. *)
Lemma reconfigure_names_head confs : ∀ ch s,
  ∃ s',
    reconfigure_names confs Head ch s
    = (s', Head, if confs is [] then ch else true)
    ∧ ws_names s' = ws_names s ++ confs.
Proof.
  induction confs as [|conf confs IH]; intros ch s.
  { exists s. by rewrite app_nil_r. }
  cbn [reconfigure_names].
  destruct (IH true (add_workspace conf s)) as (s' & -> & Hnames).
  exists s'. split; [by destruct confs|].
  rewrite Hnames. unfold ws_names. cbn.
  by rewrite fmap_app, <- app_assoc.
Qed.

(** The link at position [j] of a list of [n] nodes. *)
Local Abbreviation link_at n j :=
  (if decide (j < n)%nat then Node j else Head).

(** From a node, the names from its position on are replaced by the
    configured names, as far as these go. *)
Lemma reconfigure_names_node confs : ∀ j ch s,
  (j < length (workspaces_all s))%nat →
  ∃ s' ch',
    reconfigure_names confs (Node j) ch s
    = (s', link_at (length (workspaces_all s)) (j + length confs)%nat, ch')
    ∧ ws_names s'
      = take j (ws_names s) ++ confs
        ++ drop (j + length confs) (ws_names s)
    ∧ (length (workspaces_all s) ≤ length (workspaces_all s'))%nat
    ∧ ((j + length confs ≤ length (workspaces_all s))%nat →
       length (workspaces_all s') = length (workspaces_all s)).
Proof.
  induction confs as [|conf confs IH]; intros j ch s Hj.
  { exists s, ch. cbn [length app]. rewrite !Nat.add_0_r.
    rewrite decide_True by done. by rewrite take_drop. }
  cbn [reconfigure_names].
  destruct (workspaces_all s !! j) as [w|] eqn:Hw;
    [|apply lookup_ge_None in Hw; lia].
  set (s1 := set_all (alter (set_name conf) j (workspaces_all s)) s).
  assert (length (workspaces_all s1) = length (workspaces_all s)) as Hlen1
    by (cbn; by rewrite length_alter).
  assert (ws_names s1 = <[j:=conf]> (ws_names s)) as Hnames1
    by by apply (names_set_name conf j _ w).
  assert (∃ s2 ch2,
            (if negb (streq (ws_name w) conf)
             then reconfigure_names confs
                    (link_next (length (workspaces_all s)) (Node j)) true s1
             else reconfigure_names confs
                    (link_next (length (workspaces_all s)) (Node j)) ch s)
            = reconfigure_names confs
                (link_next (length (workspaces_all s2)) (Node j)) ch2 s2
            ∧ ws_names s2 = <[j:=conf]> (ws_names s)
            ∧ length (workspaces_all s2) = length (workspaces_all s))
    as (s2 & ch2 & -> & Hnames2 & Hlen2).
  { destruct (negb _) eqn:Hsame.
    - exists s1, true. by rewrite Hlen1.
    - exists s, ch. split_and!; [done| |done].
      apply negb_false_iff, bool_decide_eq_true in Hsame.
      symmetry. apply list_insert_id.
      unfold ws_names. by rewrite list_lookup_fmap, Hw, <- Hsame. }
  rewrite <- Hlen2. cbn [link_next length].
  assert (length (ws_names s) = length (workspaces_all s)) as Hlnames
    by (unfold ws_names; by rewrite length_fmap).
  destruct (decide (S j < length (workspaces_all s2))%nat) as [Hnext|Hlast].
  - destruct (IH (S j) ch2 s2 Hnext) as (s' & ch' & -> & Hnames & Hle & Heq).
    exists s', ch'.
    replace (S j + length confs)%nat with (j + S (length confs))%nat by lia.
    split_and!; [done| |done|intros ?; apply Heq; lia].
    rewrite Hnames, Hnames2.
    rewrite (take_S_r _ j conf) by (apply list_lookup_insert_eq; lia).
    rewrite take_insert_ge, drop_insert_lt by lia.
    rewrite <- !app_assoc. cbn [app length].
    by replace (S j + length confs)%nat with (j + S (length confs))%nat
      by lia.
  - destruct (reconfigure_names_head confs ch2 s2) as (s' & -> & Hnames).
    exists s', (if confs is [] then ch2 else true).
    rewrite decide_False by lia.
    assert (length (workspaces_all s2) ≤ length (workspaces_all s'))%nat
      as Hle.
    { rewrite <- !(length_fmap ws_name). fold (ws_names s2) (ws_names s').
      rewrite Hnames, length_app. lia. }
    split_and!; [done| |done|].
    + rewrite Hnames, Hnames2.
      rewrite drop_ge by lia. rewrite app_nil_r.
      rewrite <- (take_drop (S j) (<[j:=conf]> (ws_names s))) at 1.
      rewrite (drop_ge _ (S j)) by (rewrite length_insert; lia).
      rewrite app_nil_r.
      rewrite (take_S_r _ j conf) by (apply list_lookup_insert_eq; lia).
      rewrite take_insert_ge by lia. by rewrite <- app_assoc.
    + intros Hfit.
      assert (confs = []) as ->
        by (destruct confs; [done|cbn in Hfit; lia]).
      rewrite app_nil_r in Hnames.
      rewrite <- !(length_fmap ws_name). fold (ws_names s2) (ws_names s').
      by rewrite Hnames.
Qed.

Lemma take_delete_eq {A} (l : list A) j :
  (j < length l)%nat → take j (delete j l) = take j l.
Proof.
  intros Hj. rewrite delete_take_drop.
  apply take_app_length'. rewrite length_take. lia.
Qed.

Lemma drop_delete_eq {A} (l : list A) j :
  (j < length l)%nat → drop j (delete j l) = drop (S j) l.
Proof.
  intros Hj. rewrite delete_take_drop.
  apply drop_app_length'. rewrite length_take. lia.
Qed.

(** One round of the second loop unlinks the node at its position and
    touches no other node. *)
Lemma reconfigure_destroy_registry first j s w :
  ws_names (reconfigure_destroy first j s w) = delete j (ws_names s)
  ∧ ws_id <$> workspaces_all (reconfigure_destroy first j s w)
    = delete j (ws_id <$> workspaces_all s).
Proof.
  unfold reconfigure_destroy, destroy_workspace, ws_names.
  cbn [workspaces_all set_all]. rewrite !list_fmap_delete.
  set (s1 := set_views _ s).
  set (s2 := if decide (workspaces_current s1 = ws_id w) then _ else s1).
  assert (ws_names s2 = ws_names s
          ∧ ws_id <$> workspaces_all s2 = ws_id <$> workspaces_all s)
    as [Hnames Hids].
  { unfold s2. case_decide; [|done].
    by rewrite names_switch_to, ids_switch_to. }
  unfold ws_names in Hnames. case_decide; cbn; by rewrite Hnames, Hids.
Qed.

Lemma reconfigure_destroy_wf first j s w :
  registry_wf s →
  (ws_id <$> workspaces_all s) !! j = Some (ws_id w) →
  first ∈ ws_id <$> workspaces_all s →
  first ≠ ws_id w →
  registry_wf (reconfigure_destroy first j s w).
Proof.
  intros Hwf Hwid Hfirst Hne.
  destruct (reconfigure_destroy_registry first j s w) as [_ Hids].
  revert Hids. unfold reconfigure_destroy.
  set (s1 := set_views _ s).
  assert (registry_wf s1) as Hwf1 by by apply (registry_wf_same s).
  set (s2 := if decide (workspaces_current s1 = ws_id w) then _ else s1).
  assert (registry_wf s2
          ∧ ws_id <$> workspaces_all s2 = ws_id <$> workspaces_all s
          ∧ workspaces_current s2 ≠ ws_id w) as (Hwf2 & Hids2 & Hcur2).
  { unfold s2. case_decide as Hcur; [|done].
    destruct (switch_to_registry first true s1) as (-> & _); [congruence|].
    split_and!; [by apply registry_wf_switch_to|by rewrite ids_switch_to|].
    done. }
  set (s3 := if decide (workspaces_last s2 = Some (ws_id w)) then _ else s2).
  assert (registry_wf s3
          ∧ ws_id <$> workspaces_all s3 = ws_id <$> workspaces_all s
          ∧ workspaces_current s3 ≠ ws_id w
          ∧ workspaces_last s3 ≠ Some (ws_id w))
    as (Hwf3 & Hids3 & Hcur3 & Hlast3).
  { unfold s3. case_decide as Hlast; [|done].
    split_and!; [|done..|cbn; congruence].
    destruct Hwf2 as [? ? ? ?]. split; try done.
    cbn. intros id [= <-]. by rewrite Hids2. }
  intros Hids. destruct Hwf3 as [Hdup Hfresh Hmem Hlastmem].
  rewrite Hids3 in *.
  split; rewrite Hids.
  - by eapply sublist_NoDup, sublist_delete.
  - intros id Hid%list_elem_of_delete_inv. by apply Hfresh.
  - by apply (elem_of_delete_ne _ _ _ (ws_id w)).
  - intros id Hid. apply (elem_of_delete_ne _ _ _ (ws_id w)); [done| |].
    + by apply Hlastmem.
    + intros ->. by apply Hlast3.
Qed.

Lemma reconfigure_destroy_visuals first j s w :
  visuals_ok s → visuals_ok (reconfigure_destroy first j s w).
Proof.
  intros Hvis. unfold reconfigure_destroy.
  set (s1 := set_views _ s).
  assert (visuals_ok s1) as Hvis1 by done.
  set (s2 := if decide (workspaces_current s1 = ws_id w) then _ else s1).
  assert (visuals_ok s2) as Hvis2
    by (unfold s2; case_decide; [by apply visuals_ok_switch_to|done]).
  set (s3 := if decide (workspaces_last s2 = Some (ws_id w)) then _ else s2).
  assert (visuals_ok s3) as Hvis3 by (unfold s3; by case_decide).
  unfold visuals_ok in *. cbn.
  apply list.Forall_forall, Forall_delete. by apply list.Forall_forall.
Qed.

(** The second loop: the workspaces from position [j] on are destroyed in
    turn, [first] taking their views and their place. *)
Lemma reconfigure_destroy_loop first j ws : ∀ s,
  ws_id <$> ws = drop j (ws_id <$> workspaces_all s) →
  ws_names (foldl (reconfigure_destroy first j) s ws) = take j (ws_names s)
  ∧ (registry_wf s → visuals_ok s →
     (∃ i, (i < j)%nat ∧ (ws_id <$> workspaces_all s) !! i = Some first) →
     registry_wf (foldl (reconfigure_destroy first j) s ws)
     ∧ visuals_ok (foldl (reconfigure_destroy first j) s ws)).
Proof.
  induction ws as [|w ws IH]; intros s Hws.
  { cbn [foldl]. split; [|done]. symmetry. apply take_ge.
    unfold ws_names. rewrite length_fmap, <- (length_fmap ws_id).
    apply (f_equal length) in Hws. rewrite length_drop in Hws.
    cbn in Hws. lia. }
  cbn [foldl].
  assert ((ws_id <$> workspaces_all s) !! j = Some (ws_id w)) as Hj.
  { rewrite <- (Nat.add_0_r j), <- lookup_drop, <- Hws. done. }
  assert (j < length (workspaces_all s))%nat as Hlt
    by (apply lookup_lt_Some in Hj; by rewrite length_fmap in Hj).
  destruct (reconfigure_destroy_registry first j s w) as [Hnames Hids].
  destruct (IH (reconfigure_destroy first j s w)) as [Hn Hinv].
  { rewrite Hids, drop_delete_eq by (by rewrite length_fmap).
    rewrite (drop_S _ _ _ Hj) in Hws. by injection Hws. }
  split.
  - rewrite Hn, Hnames. apply take_delete_eq.
    unfold ws_names. by rewrite length_fmap.
  - intros Hwf Hvis (i & Hi & Hfirst).
    apply Hinv.
    + apply reconfigure_destroy_wf; [done..| |].
      * by eapply list_elem_of_lookup_2.
      * intros ->. destruct Hwf as [Hdup _ _ _].
        pose proof (NoDup_lookup _ _ _ _ Hdup Hfirst Hj). lia.
    + by apply reconfigure_destroy_visuals.
    + exists i. split; [done|]. by rewrite Hids, list_lookup_delete_lt.
Qed.

(** The first loop keeps the workspaces it meets and appends a new
    workspace for every name it still has when the link is back at the
    head of the list. *)
Lemma reconfigure_names_ids confs : ∀ lk ch s,
  match lk with
  | Head => True
  | Node j => (j < length (workspaces_all s))%nat
  end →
  ws_id <$> workspaces_all (reconfigure_names confs lk ch s).1.1
  = (ws_id <$> workspaces_all s)
    ++ seq (next_ws s)
         match lk with
         | Head => length confs
         | Node j => j + length confs - length (workspaces_all s)
         end.
Proof.
  induction confs as [|conf confs IH]; intros lk ch s Hlk.
  { cbn [reconfigure_names fst length].
    destruct lk as [|j]; [by rewrite app_nil_r|].
    replace (j + 0 - length (workspaces_all s))%nat with 0%nat by lia.
    by rewrite app_nil_r. }
  cbn [reconfigure_names]. destruct lk as [|j].
  - rewrite IH by done. cbn [workspaces_all next_ws add_workspace set_all
                              set_next_ws length seq].
    by rewrite fmap_app, <- app_assoc.
  - destruct (workspaces_all s !! j) as [w|] eqn:Hw;
      [|apply lookup_ge_None in Hw; lia].
    set (s1 := set_all (alter (set_name conf) j (workspaces_all s)) s).
    assert (∃ s2 ch2,
              (if negb (streq (ws_name w) conf)
               then reconfigure_names confs
                      (link_next (length (workspaces_all s)) (Node j)) true
                      s1
               else reconfigure_names confs
                      (link_next (length (workspaces_all s)) (Node j)) ch s)
              = reconfigure_names confs
                  (link_next (length (workspaces_all s2)) (Node j)) ch2 s2
              ∧ ws_id <$> workspaces_all s2 = ws_id <$> workspaces_all s
              ∧ next_ws s2 = next_ws s
              ∧ length (workspaces_all s2) = length (workspaces_all s))
      as (s2 & ch2 & -> & Hids2 & Hnext2 & Hlen2).
    { destruct (negb _).
      - exists s1, true. cbn [workspaces_all set_all s1].
        rewrite length_alter. split_and!; [done| |done..].
        apply ids_set_name.
      - by exists s, ch. }
    rewrite <- Hids2, <- Hnext2, <- Hlen2. cbn [link_next length].
    destruct (decide (S j < length (workspaces_all s2))%nat).
    + rewrite IH by done. do 2 f_equal. lia.
    + rewrite IH by done. do 2 f_equal. lia.
Qed.

(** The second loop leaves the workspaces before position [j]. *)
Lemma reconfigure_destroy_loop_ids first j ws : ∀ s,
  ws_id <$> ws = drop j (ws_id <$> workspaces_all s) →
  ws_id <$> workspaces_all (foldl (reconfigure_destroy first j) s ws)
  = take j (ws_id <$> workspaces_all s).
Proof.
  induction ws as [|w ws IH]; intros s Hws.
  { cbn [foldl]. symmetry. apply take_ge.
    apply (f_equal length) in Hws. rewrite length_drop in Hws.
    cbn in Hws. lia. }
  cbn [foldl].
  assert ((ws_id <$> workspaces_all s) !! j = Some (ws_id w)) as Hj.
  { rewrite <- (Nat.add_0_r j), <- lookup_drop, <- Hws. done. }
  pose proof (lookup_lt_Some _ _ _ Hj) as Hlt.
  destruct (reconfigure_destroy_registry first j s w) as [_ Hids].
  rewrite IH.
  - rewrite Hids. by apply take_delete_eq.
  - rewrite Hids, drop_delete_eq by done.
    rewrite (drop_S _ _ _ Hj) in Hws. by injection Hws.
Qed.

(** The names that [workspaces_reconfigure] takes the registry to. *)
Local Abbreviation workspace_source rc s :=
  (default rc (workspace_config_list_load_persisted s)).

Lemma reconfigure_unfold rc s :
  workspaces_reconfigure rc s
  = let '(s1, workspace_link, list_changed) :=
      reconfigure_names (workspace_source rc s)
        (link_next (length (workspaces_all s)) Head) false s in
    match workspace_link with
    | Head =>
      if list_changed
      then ipc_notify_workspace_list_changed (workspace_state_persist s1)
      else s1
    | Node j =>
      match head (workspaces_all s1) with
      | None => s1
      | Some first_workspace =>
        ipc_notify_workspace_list_changed
          (workspace_state_persist
             (foldl (reconfigure_destroy (ws_id first_workspace) j) s1
                (drop j (workspaces_all s1))))
      end
    end.
Proof.
  unfold workspaces_reconfigure.
  by destruct (workspace_config_list_load_persisted s).
Qed.

(** The first loop from the start of the list. *)
Lemma reconfigure_names_start confs s :
  ∃ s1 ch,
    reconfigure_names confs (link_next (length (workspaces_all s)) Head)
      false s
    = (s1, link_at (length (workspaces_all s)) (length confs), ch)
    ∧ ws_names s1 = confs ++ drop (length confs) (ws_names s)
    ∧ (length (workspaces_all s) ≤ length (workspaces_all s1))%nat
    ∧ ((length confs ≤ length (workspaces_all s))%nat →
       length (workspaces_all s1) = length (workspaces_all s)).
Proof.
  cbn [link_next]. destruct (decide (length (workspaces_all s) = 0%nat))
    as [Hempty|Hne].
  - destruct (reconfigure_names_head confs false s) as (s1 & -> & Hnames).
    exists s1, (if confs is [] then false else true).
    rewrite decide_False by lia.
    assert (ws_names s = []) as Hnil
      by (apply length_zero_iff_nil; unfold ws_names;
          by rewrite length_fmap).
    rewrite Hnil in *. cbn [app] in Hnames.
    assert (length (workspaces_all s1) = length confs) as Hlen
      by (rewrite <- Hnames; unfold ws_names; by rewrite length_fmap).
    rewrite drop_nil, app_nil_r. split_and!; [done..|lia|lia].
  - destruct (reconfigure_names_node confs 0 false s) as
      (s1 & ch & -> & Hnames & Hle & Heq); [lia|].
    exists s1, ch. cbn [Nat.add take app] in *. done.
Qed.

(** Names that the registry already has change nothing. *)
Lemma reconfigure_names_same confs : ∀ j ch s,
  confs = drop j (ws_names s) →
  reconfigure_names confs (link_at (length (workspaces_all s)) j) ch s
  = (s, Head, ch).
Proof.
  induction confs as [|conf confs IH]; intros j ch s Hconfs.
  { cbn [reconfigure_names]. rewrite decide_False; [done|].
    apply (f_equal length) in Hconfs. rewrite length_drop in Hconfs.
    unfold ws_names in Hconfs. rewrite length_fmap in Hconfs.
    cbn in Hconfs. lia. }
  assert (ws_names s !! j = Some conf) as Hj.
  { rewrite <- (Nat.add_0_r j), <- lookup_drop, <- Hconfs. done. }
  assert (j < length (workspaces_all s))%nat as Hlt.
  { apply lookup_lt_Some in Hj. unfold ws_names in Hj.
    by rewrite length_fmap in Hj. }
  rewrite decide_True by done. cbn [reconfigure_names].
  rewrite (drop_S _ _ _ Hj) in Hconfs. injection Hconfs as Hconfs.
  unfold ws_names in Hj. rewrite list_lookup_fmap in Hj.
  destruct (workspaces_all s !! j) as [w|] eqn:Hw; [|done].
  injection Hj as Hname. unfold streq.
  rewrite bool_decide_true by done. cbn [negb link_next].
  by apply IH.
Qed.

End ReconfigureProperties.

(** X24: [workspaces_reconfigure] takes the registry to the names of its
    source, the persisted names when the state file holds any and the
    configured names otherwise: afterwards the registry has exactly these
    names, in order. Workspaces are renamed in place, added at the end or
    destroyed from the end as the count requires: the workspaces after the
    call are, in order, the first ones of before, as many as the source
    has names, followed by one newly allocated workspace for every name
    beyond the old size. *)
Theorem reconfigure_names_source (rc : list (list byte)) (s : server) :
  ws_names (workspaces_reconfigure rc s)
  = default rc (workspace_config_list_load_persisted s)
  ∧ ws_id <$> workspaces_all (workspaces_reconfigure rc s)
    = take (length (default rc (workspace_config_list_load_persisted s)))
        (ws_id <$> workspaces_all s)
      ++ seq (next_ws s)
           (length (default rc (workspace_config_list_load_persisted s))
            - length (workspaces_all s)).
Proof.
  rewrite reconfigure_unfold.
  set (confs := default rc (workspace_config_list_load_persisted s)).
  pose proof (reconfigure_names_ids confs
                (link_next (length (workspaces_all s)) Head) false s)
    as Hids.
  destruct (reconfigure_names_start confs s)
    as (s1 & ch & Hloop & Hnames & Hle & Heq).
  rewrite Hloop in *. cbn [fst] in Hids.
  assert (ws_id <$> workspaces_all s1
          = (ws_id <$> workspaces_all s)
            ++ seq (next_ws s) (length confs - length (workspaces_all s)))
    as Hids1.
  { cbn [link_next] in Hids.
    destruct (decide (length (workspaces_all s) = 0%nat)).
    - rewrite Hids by done. do 2 f_equal. lia.
    - rewrite Hids by lia. do 2 f_equal. }
  assert (∀ s', ws_id <$> workspaces_all
                           (ipc_notify_workspace_list_changed
                              (workspace_state_persist s'))
                = ws_id <$> workspaces_all s') as Hpersist
    by (intros s'; by destruct (persist_notify_registry s') as (-> & _)).
  assert (length (ws_names s) = length (workspaces_all s)) as Hlen
    by (unfold ws_names; by rewrite length_fmap).
  case_decide as Hfit.
  - specialize (Heq ltac:(lia)).
    destruct (head (workspaces_all s1)) as [first|] eqn:Hfirst.
    + rewrite names_persist_notify, Hpersist.
      destruct (reconfigure_destroy_loop (ws_id first) (length confs)
                  (drop (length confs) (workspaces_all s1)) s1) as [-> _].
      { by rewrite fmap_drop. }
      rewrite reconfigure_destroy_loop_ids by by rewrite fmap_drop.
      rewrite Hnames, Hids1.
      replace (length confs - length (workspaces_all s))%nat with 0%nat
        by lia.
      cbn [seq]. by rewrite take_app_length, !app_nil_r.
    + destruct (workspaces_all s1); [cbn in Heq; lia|done].
  - rewrite drop_ge in Hnames by lia. rewrite app_nil_r in Hnames.
    rewrite take_ge by (rewrite length_fmap; lia).
    destruct ch; [by rewrite names_persist_notify, Hpersist|done].
Qed.

(** With three names for the registry [A, B, C], these stay and get the
    names; with one name, [A] alone stays; with four, a workspace is
    added. *)
Lemma reconfigure_names_source_example :
  ws_id <$> workspaces_all
              (workspaces_reconfigure [str "x"; str "y"; str "z"]
                 registry_ABC)
  = [0; 1; 2]%nat
  ∧ ws_id <$> workspaces_all (workspaces_reconfigure [str "x"] registry_ABC)
    = [0]%nat
  ∧ ws_id <$> workspaces_all
                (workspaces_reconfigure
                   [str "x"; str "y"; str "z"; str "w"] registry_ABC)
    = [0; 1; 2; 3]%nat
  ∧ ws_names
      (workspaces_reconfigure [str "x"; str "y"; str "z"; str "w"]
         registry_ABC)
    = [str "x"; str "y"; str "z"; str "w"].
Proof. by split_and!. Qed.

(** X25: a registry that already has the names of the source is left as
    it is by [workspaces_reconfigure]: no rename, no write of the state
    file, no event. In particular, once the registry has been persisted
    with names that the state file gives back, a reconfiguration changes
    nothing, whatever names are configured. *)
Theorem reconfigure_fixed_point (rc : list (list byte)) (s : server) :
  (default rc (workspace_config_list_load_persisted s) = ws_names s →
   workspaces_reconfigure rc s = s)
  ∧ (fs_ok s = true → workspaces_all s ≠ [] →
     Forall persistable (ws_names s) →
     workspaces_reconfigure rc (workspace_state_persist s)
     = workspace_state_persist s).
Proof.
  assert (∀ s', default rc (workspace_config_list_load_persisted s')
                = ws_names s' →
                workspaces_reconfigure rc s' = s') as Hfix.
  { intros s' Hsrc. rewrite reconfigure_unfold, Hsrc.
    pose proof (reconfigure_names_same (ws_names s') 0 false s' eq_refl)
      as Hsame.
    cbn [link_next]. destruct (decide (length (workspaces_all s') = 0%nat))
      as [Hempty|Hne].
    - rewrite decide_False in Hsame by lia. by rewrite Hsame.
    - rewrite decide_True in Hsame by lia. by rewrite Hsame. }
  split; [apply Hfix|]. intros Hfs Hne Hnames. apply Hfix.
  assert (ws_names (workspace_state_persist s) = ws_names s) as Hsame
    by (unfold ws_names; by rewrite all_persist).
  rewrite Hsame.
  unfold workspace_state_persist, workspace_config_list_load_persisted.
  rewrite Hfs. cbn [state_file write_state_file].
  rewrite getlines_serialize
    by (revert Hnames; apply List.Forall_impl; by intros name (_ & ? & _)).
  rewrite load_names by done.
  rewrite bool_decide_false; [done|].
  unfold ws_names. by destruct (workspaces_all s).
Qed.

Lemma reconfigure_fixed_point_witness :
  workspaces_reconfigure [str "Default"]
    (workspace_state_persist registry_ABC)
  = workspace_state_persist registry_ABC.
Proof.
  destruct (reconfigure_fixed_point [str "Default"] registry_ABC)
    as [_ Hpersisted].
  apply Hpersisted.
  - reflexivity.
  - done.
  - by apply (bool_decide_unpack _).
Defined.

(** X26: with a source that names at least one workspace,
    [workspaces_reconfigure] keeps the invariants of the registry: the
    workspaces stay distinct, [current] and [last] point into the
    registry, also when the workspace they pointed to is destroyed, and
    exactly the current workspace is enabled and active. *)
Theorem reconfigure_keeps_invariants (rc : list (list byte)) (s : server) :
  registry_wf s → visuals_ok s →
  default rc (workspace_config_list_load_persisted s) ≠ [] →
  registry_wf (workspaces_reconfigure rc s)
  ∧ visuals_ok (workspaces_reconfigure rc s).
Proof.
  intros Hwf Hvis Hsrc. rewrite reconfigure_unfold.
  set (confs := default rc (workspace_config_list_load_persisted s)) in *.
  destruct (reconfigure_names_inv confs
              (link_next (length (workspaces_all s)) Head) false s Hwf Hvis)
    as [Hwf1 Hvis1].
  destruct (reconfigure_names_start confs s)
    as (s1 & ch & Hloop & Hnames & Hle & Heq).
  rewrite Hloop in *. cbn [fst] in Hwf1, Hvis1.
  assert (∀ s', registry_wf s' → visuals_ok s' →
            registry_wf (ipc_notify_workspace_list_changed
                           (workspace_state_persist s'))
            ∧ visuals_ok (ipc_notify_workspace_list_changed
                            (workspace_state_persist s'))) as Hpersist.
  { intros s' Hwf' Hvis'.
    destruct (persist_notify_registry s')
      as (Hall & Hcur & Hlast & Hnext & _).
    split; [apply (registry_wf_same s')|apply (visuals_ok_same s')];
      try done. by rewrite Hall. }
  case_decide as Hfit; [|destruct ch; [by apply Hpersist|done]].
  destruct (workspaces_all s1) as [|first l] eqn:Hall; [done|].
  cbn [head]. rewrite <- Hall. apply Hpersist.
  - destruct (reconfigure_destroy_loop (ws_id first) (length confs)
                (drop (length confs) (workspaces_all s1)) s1) as [_ Hinv].
    { by rewrite fmap_drop. }
    apply Hinv; [done..|]. exists 0%nat. rewrite Hall.
    split; [destruct confs; [done|cbn; lia]|done].
  - destruct (reconfigure_destroy_loop (ws_id first) (length confs)
                (drop (length confs) (workspaces_all s1)) s1) as [_ Hinv].
    { by rewrite fmap_drop. }
    apply Hinv; [done..|]. exists 0%nat. rewrite Hall.
    split; [destruct confs; [done|cbn; lia]|done].
Qed.

Lemma reconfigure_keeps_invariants_witness :
  registry_wf (workspaces_reconfigure [str "Default"] registry_ABC)
  ∧ visuals_ok (workspaces_reconfigure [str "Default"] registry_ABC).
Proof.
  apply reconfigure_keeps_invariants.
  - split; cbn.
    + by apply (bool_decide_unpack _).
    + intros id Hid.
      repeat (apply elem_of_cons in Hid as [->|Hid]; [lia|]).
      by apply elem_of_nil in Hid.
    + by apply (bool_decide_unpack _).
    + done.
  - intros w Hw. cbn in Hw.
    repeat (apply elem_of_cons in Hw as [->|Hw]; [done|]).
    by apply elem_of_nil in Hw.
  - done.
Defined.

Section LookupProperties.

Lemma link_workspace_member s lk id :
  link_workspace s lk = Some id → id ∈ ws_id <$> workspaces_all s.
Proof.
  destruct lk as [|j]; [done|]. cbn. rewrite <- list_lookup_fmap.
  apply list_elem_of_lookup_2.
Qed.

Lemma get_prev_member s current wrap id :
  get_prev s current wrap = Some id → id ∈ ws_id <$> workspaces_all s.
Proof.
  unfold get_prev. destruct (ws_position s current) as [start|]; [|done].
  destruct (link_prev _ (Node start)); [destruct (negb wrap); [done|]|];
    apply link_workspace_member.
Qed.

Lemma get_next_member s current wrap id :
  get_next s current wrap = Some id → id ∈ ws_id <$> workspaces_all s.
Proof.
  unfold get_next. destruct (ws_position s current) as [start|]; [|done].
  destruct (link_next _ (Node start)); [destruct (negb wrap); [done|]|];
    apply link_workspace_member.
Qed.

Lemma workspace_find_by_name_member s name id :
  workspace_find_by_name s name = Some id →
  id ∈ ws_id <$> workspaces_all s.
Proof.
  unfold workspace_find_by_name.
  destruct (if bool_decide _ then _ else _) as [w|] eqn:Hidx.
  - intros [= <-]. case_bool_decide; [done|].
    apply list_elem_of_fmap_2. by eapply list_elem_of_lookup_2.
  - destruct (List.find _ _) as [w|] eqn:Hfind; [|done].
    intros [= <-]. apply find_some in Hfind as [Hin%list_elem_of_In _].
    by apply list_elem_of_fmap_2.
Qed.

Lemma candidates_members s start wrap reverse w :
  w ∈ occupied_candidates s start wrap reverse → w ∈ workspaces_all s.
Proof.
  unfold occupied_candidates.
  destruct reverse, wrap;
    rewrite ?app_nil_r, ?elem_of_app, ?elem_of_reverse;
    intros; destruct_or?;
    first [by eapply elem_of_take_inv|by eapply elem_of_drop_inv].
Qed.

Lemma first_occupied_member s candidates id :
  first_occupied s candidates = Some id → id ∈ ws_id <$> candidates.
Proof.
  unfold first_occupied.
  destruct (List.find _ _) as [w|] eqn:Hfind; [|done].
  intros [= <-]. apply find_some in Hfind as [Hin%list_elem_of_In _].
  by apply list_elem_of_fmap_2.
Qed.

End LookupProperties.

(** X27: [workspaces_find] returns, and never a pointer out of the
    registry. From an anchor that is a member of a registry with sound
    pointers, whatever the name asked for, a keyword in any letter case,
    a position or the name of a workspace, the result is [NULL] or a
    member of the registry. *)
Theorem workspaces_find_member
    (s : server) (anchor start : nat) (name : option (list byte))
    (wrap : bool) (fuel : nat) :
  registry_wf s →
  ws_id <$> workspaces_all s !! start = Some anchor →
  (length (workspaces_all s) < fuel)%nat →
  ∃ r, workspaces_find fuel s anchor name wrap = Some r
       ∧ (∀ id, r = Some id → id ∈ ws_id <$> workspaces_all s).
Proof.
  intros Hwf Hanchor Hfuel.
  assert (∀ reverse,
            ∃ r, get_adjacent_occupied fuel s anchor wrap reverse = Some r
                 ∧ (∀ id, r = Some id → id ∈ ws_id <$> workspaces_all s))
    as Hocc.
  { intros reverse.
    rewrite (get_adjacent_occupied_candidates s anchor start
               (wf_ids s Hwf) Hanchor wrap reverse fuel Hfuel).
    eexists. split; [done|].
    intros id (w & -> & Hw)%first_occupied_member%list_elem_of_fmap_1.
    apply list_elem_of_fmap_2. by eapply candidates_members. }
  unfold workspaces_find. destruct name as [name|]; [|by eexists].
  repeat case_match; try (eexists; split; [done|]).
  - intros id [= <-]. rewrite <- list_lookup_fmap in Hanchor.
    by eapply list_elem_of_lookup_2.
  - apply (wf_last s Hwf).
  - apply get_prev_member.
  - apply get_next_member.
  - apply Hocc.
  - apply Hocc.
  - apply workspace_find_by_name_member.
Qed.

Lemma workspaces_find_member_witness :
  ∃ r, workspaces_find 4 registry_ABC 1 (Some (str "Right")) true = Some r
       ∧ (∀ id, r = Some id → id ∈ ws_id <$> workspaces_all registry_ABC).
Proof.
  apply (workspaces_find_member registry_ABC 1 1).
  - split; cbn.
    + by apply (bool_decide_unpack _).
    + intros id Hid.
      repeat (apply elem_of_cons in Hid as [->|Hid]; [lia|]).
      by apply elem_of_nil in Hid.
    + by apply (bool_decide_unpack _).
    + done.
  - reflexivity.
  - cbn. lia.
Defined.

Section SendProperties.

Lemma ipc_send_raw_sent writes : ∀ data ok sent,
  ipc_send_raw writes data = Some (ok, sent) →
  ∃ rest, data = sent ++ rest ∧ (ok = true ↔ rest = []).
Proof.
  induction writes as [|w writes IH]; intros data ok sent Hsend.
  { destruct data; [|done]. injection Hsend as <- <-. by exists []. }
  destruct data as [|c data]; [injection Hsend as <- <-; by exists []|].
  cbn [ipc_send_raw] in Hsend. destruct w as [n| |].
  - destruct (0 <? n); [|injection Hsend as <- <-; by eexists].
    destruct (ipc_send_raw writes _) as [[ok' sent']|] eqn:Hrest; [|done].
    cbn in Hsend. injection Hsend as <- <-.
    destruct (IH _ _ _ Hrest) as (rest & Hdata & Hok).
    exists rest. split; [|done].
    rewrite <- app_assoc, <- Hdata. by rewrite take_drop.
  - by apply IH.
  - injection Hsend as <- <-. by eexists.
Qed.

Lemma ipc_send_raw_progress writes : ∀ data,
  Forall (λ w, ∃ n, w = Wrote n ∧ 0 < n) writes →
  (length data ≤ length writes)%nat →
  ipc_send_raw writes data = Some (true, data).
Proof.
  induction writes as [|w writes IH]; intros data Hw Hlen.
  { destruct data; [done|cbn in Hlen; lia]. }
  destruct data as [|c data]; [done|].
  inversion_clear Hw as [|? ? (n & -> & Hn) Hws].
  cbn [ipc_send_raw]. replace (0 <? n) with true by (symmetry; lia).
  rewrite IH; [|done|].
  - cbn. by rewrite take_drop.
  - rewrite length_drop. cbn [length] in *. lia.
Qed.

End SendProperties.

(** X28: [ipc_send_raw] loses and repeats nothing. Whatever [write]
    returns, partial writes and interruptions included, the bytes that the
    socket took are the start of the data, and they are all of the data
    exactly when the function returns true. When every call of [write]
    takes at least one byte, the function returns true after at most as
    many calls as the data has bytes. *)
Theorem ipc_send_raw_delivers
    (writes : list write_result) (data : list byte) :
  (∀ ok sent,
     ipc_send_raw writes data = Some (ok, sent) →
     sent `prefix_of` data ∧ (ok = true ↔ sent = data))
  ∧ (Forall (λ w, ∃ n, w = Wrote n ∧ 0 < n) writes →
     (length data ≤ length writes)%nat →
     ipc_send_raw writes data = Some (true, data)).
Proof.
  split; [|apply ipc_send_raw_progress].
  intros ok sent (rest & -> & Hok)%ipc_send_raw_sent.
  split; [by exists rest|]. rewrite Hok. split.
  - intros ->. by rewrite app_nil_r.
  - intros Heq. apply (f_equal length) in Heq.
    rewrite length_app in Heq. apply length_zero_iff_nil. lia.
Qed.

Lemma ipc_send_raw_delivers_witness :
  ipc_send_raw [Wrote 2; WriteEintr; Wrote 1; Wrote 3] (str "OK" ++ [x0a])
  = Some (true, str "OK" ++ [x0a])
  ∧ ipc_send_raw [Wrote 1; Wrote 1; Wrote 1] (str "OK" ++ [x0a])
    = Some (true, str "OK" ++ [x0a]).
Proof.
  split; [reflexivity|].
  destruct (ipc_send_raw_delivers [Wrote 1; Wrote 1; Wrote 1]
              (str "OK" ++ [x0a])) as [_ Hall].
  apply Hall.
  - repeat constructor; eexists; (split; [reflexivity|lia]).
  - cbn. lia.
Defined.

Section LoadProperties.

(** What [getline] returns: a stretch without a line feed, followed by a
    line feed unless the file ends there. *)
Lemma getlines_lines content :
  x00 ∉ content →
  Forall (λ l, ∃ body, (l = body ++ [x0a] ∨ l = body)
                       ∧ (x0a ∉ body) ∧ (x00 ∉ body))
    (getlines content).
Proof.
  induction content as [|c content IH]; intros Hnul; [done|].
  apply not_elem_of_cons in Hnul as [Hc Hnul]. specialize (IH Hnul).
  cbn [getlines]. destruct (decide (c = x0a)) as [->|Hlf].
  - constructor; [|done]. exists []. split_and!; [by left|..];
      apply not_elem_of_nil.
  - destruct (getlines content) as [|l ls];
      [|inversion_clear IH as [|? ? Hl Hls]].
    + constructor; [|done]. exists [c].
      split_and!; [by right|..]; apply not_elem_of_cons;
        (split; [done|apply not_elem_of_nil]).
    + constructor; [|done]. destruct Hl as (body & Hbody & Hnolf & Hnonul).
      exists (c :: body). split_and!.
      * destruct Hbody as [->| ->]; [by left|by right].
      * by apply not_elem_of_cons.
      * by apply not_elem_of_cons.
Qed.

Lemma rstrip_prefix p l : rstrip p l `prefix_of` l.
Proof.
  induction l as [|c l IH]; [done|]. cbn [rstrip].
  destruct (rstrip p l) as [|d r].
  - destruct (p c); [apply prefix_nil|]. by apply prefix_cons, prefix_nil.
  - by apply prefix_cons.
Qed.

Lemma rstrip_last p l c : list.last (rstrip p l) = Some c → p c = false.
Proof.
  induction l as [|d l IH]; [done|]. cbn [rstrip].
  destruct (rstrip p l) as [|e r].
  - destruct (p d) eqn:Hd; [done|]. by intros [= <-].
  - intros Hlast. by apply IH.
Qed.

Lemma not_elem_of_prefix (x : byte) l k : l `prefix_of` k → x ∉ k → x ∉ l.
Proof. intros [t ->] Hx Hin. apply Hx, elem_of_app. by left. Qed.

End LoadProperties.

(** X29: what the loader takes from a state file without a NUL are names
    that the state file gives back as they are: there is at least one
    name, and every name is non-empty, holds no line feed and does not end
    in a carriage return. *)
Theorem loaded_names_persistable
    (s : server) (content : list byte) (names : list (list byte)) :
  state_file s = Some content →
  x00 ∉ content →
  workspace_config_list_load_persisted s = Some names →
  names ≠ [] ∧ Forall persistable names.
Proof.
  intros Hfile Hnul. unfold workspace_config_list_load_persisted.
  rewrite Hfile. case_bool_decide as Hne; [done|]. intros [= <-].
  split; [done|]. apply Forall_fmap, list.Forall_forall.
  intros r [Hr (l & -> & Hl)%list_elem_of_fmap_1]%list_elem_of_filter.
  pose proof (getlines_lines content Hnul) as Hlines.
  rewrite list.Forall_forall in Hlines.
  destruct (Hlines l Hl) as (body & Hbody & Hnolf & Hnonul).
  assert (rstrip is_eol l = rstrip is_eol body) as Hstrip.
  { destruct Hbody as [->| ->]; [|done]. by apply rstrip_snoc. }
  rewrite Hstrip in *.
  pose proof (rstrip_prefix is_eol body) as Hpre.
  pose proof (not_elem_of_prefix x0a _ _ Hpre Hnolf) as Hlf.
  pose proof (not_elem_of_prefix x00 _ _ Hpre Hnonul) as Hz.
  cbn. rewrite c_str_nul_free by done.
  split_and!; [done..|].
  intros Hlast. by apply rstrip_last in Hlast.
Qed.

Lemma loaded_names_persistable_witness :
  [str "web"; str "a b"] ≠ []
  ∧ Forall persistable [str "web"; str "a b"].
Proof.
  apply (loaded_names_persistable
           (Server [] 0 None [] None 0 true
              (Some (str "web" ++ [x0d; x0a; x0a] ++ str "a b")) 0 [])
           (str "web" ++ [x0d; x0a; x0a] ++ str "a b")).
  - reflexivity.
  - by apply (bool_decide_unpack _).
  - reflexivity.
Defined.
